(** * stfs.js: block-address translation, chain walking, file table and
      extraction of an STFS container, embedded from [src/stfs.js].

    The library keeps its state in six global variables and signals errors
    by [throw]; the embedding threads a [State] record through a small
    state-and-exception monad.  Numbers are JavaScript numbers restricted
    to the integers the code produces: they are modelled in [Z], with the
    32-bit wrap-around of the bit operators written out. *)

From Stdlib Require Import ZArith List Lia Bool.
From Stdlib.Strings Require Import String Ascii Byte.
From Stdlib.Strings Require HexString.
From stdpp Require Import base list relations.
Import ListNotations.
Local Open Scope Z_scope.

(** ** JavaScript integer operators *)

Module JS.

(** [ToInt32]: the conversion every bit operator applies to its operands. *)
Definition ToInt32 (z : Z) : Z := (z + 2 ^ 31) mod 2 ^ 32 - 2 ^ 31.

(** [a << n] *)
Definition shl (a n : Z) : Z := ToInt32 (Z.shiftl (ToInt32 a) (Z.land n 31)).
(** [a >> n] (sign-propagating) *)
Definition sar (a n : Z) : Z := Z.shiftr (ToInt32 a) (Z.land n 31).
(** [a & b] *)
Definition and (a b : Z) : Z := Z.land (ToInt32 a) (ToInt32 b).
(** [a | b] *)
Definition or (a b : Z) : Z := Z.lor (ToInt32 a) (ToInt32 b).

(** The value of an indexed read of a [Uint8Array]: a number, or
    [undefined] when the index is out of range. *)
Inductive elem : Type :=
  | undefined
  | num (z : Z).

(** [ToNumber] followed by [ToInt32]: [undefined] becomes [NaN], then 0. *)
Definition int32_of_elem (e : elem) : Z :=
  match e with
  | undefined => 0
  | num z => ToInt32 z
  end.

(** [e == 0] (loose equality): [undefined == 0] is false. *)
Definition eq0 (e : elem) : bool :=
  match e with
  | undefined => false
  | num z => z =? 0
  end.

(** [String.fromCharCode(e)] for a byte or [undefined] (code unit 0). *)
Definition fromCharCode (e : elem) : ascii :=
  match e with
  | undefined => ascii_of_N 0
  | num z => ascii_of_N (Z.to_N z)
  end.

End JS.

(** ** Global state *)

(** One row of [STFS_FileTable], the object literal pushed by [STFS_InitFS]. *)
Record FileEntry : Type := mkFile {
  fileName : string;
  nameLength : Z;
  flags : Z;
  parentDirectory : Z;
  fileSize : Z;
  startingBlock : Z;
  numOfBlocks : Z
}.

(** [STFS_FileTable] holds an array, except after [STFS_Reset], which
    stores the boolean [false] in it. *)
Inductive TableVal : Type :=
  | TFalse
  | TArray (rows : list FileEntry).

(** The globals.  [STFS_FileBuffer] and [STFS_UInt8View] are assigned
    together and the view aliases the buffer, so one field holds the bytes
    of both; [None] is [null]. *)
Record State : Type := mkState {
  STFS_FileBuffer : option (list byte);
  STFS_Dirty : bool;
  STFS_PackageLoaded : bool;
  STFS_TableSizeShift : Z;
  STFS_FileTable : TableVal
}.

(** The values of the globals when the script has just been evaluated. *)
Definition initial_state : State :=
  {| STFS_FileBuffer := None;
     STFS_Dirty := false;
     STFS_PackageLoaded := false;
     STFS_TableSizeShift := 0;
     STFS_FileTable := TArray [] |}.

(** ** The monad: state, exceptions, and running out of fuel *)

Inductive exn : Type :=
  | Str (msg : string)      (* [throw '...'] of a string literal *)
  | TypeError               (* property access on [null]/[undefined]/[false] *)
  | RangeError.             (* typed-array view out of the buffer *)

Inductive outcome (A : Type) : Type :=
  | Ok (a : A)
  | Throw (e : exn)
  | OutOfFuel.
Arguments Ok {A} a.
Arguments Throw {A} e.
Arguments OutOfFuel {A}.

Definition M (A : Type) : Type := State -> outcome A * State.

Definition ret {A} (a : A) : M A := fun st => (Ok a, st).
Definition throw {A} (e : exn) : M A := fun st => (Throw e, st).
Definition diverge {A} : M A := fun st => (OutOfFuel, st).
Definition bind {A B} (m : M A) (k : A -> M B) : M B :=
  fun st =>
    match m st with
    | (Ok a, st') => k a st'
    | (Throw e, st') => (Throw e, st')
    | (OutOfFuel, st') => (OutOfFuel, st')
    end.
Definition gets {A} (f : State -> A) : M A := fun st => (Ok (f st), st).
Definition modify (f : State -> State) : M unit := fun st => (Ok tt, f st).

Declare Scope stfs_scope.
Delimit Scope stfs_scope with stfs.
Notation "x <- m ;; k" := (bind m (fun x => k))
  (at level 100, m at next level, right associativity) : stfs_scope.
Notation "m ;;; k" := (bind m (fun _ => k))
  (at level 100, right associativity) : stfs_scope.
Local Open Scope stfs_scope.

(** The result and the final state of a run. *)
Definition result {A} (m : M A) (st : State) : outcome A := fst (m st).
Definition after {A} (m : M A) (st : State) : State := snd (m st).

Definition NoPackage : exn :=
  Str "No STFS package loaded, please run STFS_LoadPackage".

(** [if (!STFS_Dirty) throw ...] and [if (!STFS_PackageLoaded) throw ...] *)
Definition require_dirty : M unit :=
  d <- gets STFS_Dirty ;; if d then ret tt else throw NoPackage.
Definition require_loaded : M unit :=
  l <- gets STFS_PackageLoaded ;; if l then ret tt else throw NoPackage.

(** ** Reading *)

(** [view[offset]] on a [Uint8Array] over [buf]. *)
Definition view_get (buf : list byte) (offset : Z) : JS.elem :=
  if offset <? 0 then JS.undefined
  else match buf !! Z.to_nat offset with
       | Some b => JS.num (Z.of_N (Byte.to_N b))
       | None => JS.undefined
       end.

(** [STFS_UInt8View[offset]]; indexing [null] is a [TypeError]. *)
Definition view_read (offset : Z) : M JS.elem :=
  v <- gets STFS_FileBuffer ;;
  match v with
  | None => throw TypeError
  | Some buf => ret (view_get buf offset)
  end.

Definition STFS_Read8 (offset : Z) : M JS.elem :=
  require_dirty ;;; view_read offset.

Definition STFS_Read16 (offset : Z) : M Z :=
  require_dirty ;;;
  hi <- STFS_Read8 offset ;;
  lo <- STFS_Read8 (offset + 1) ;;
  ret (JS.and (JS.or (JS.shl (JS.int32_of_elem hi) 8) (JS.int32_of_elem lo)) 0xffff).

Definition STFS_Read32 (offset : Z) : M Z :=
  require_dirty ;;;
  hi <- STFS_Read16 offset ;;
  lo <- STFS_Read16 (offset + 2) ;;
  ret (JS.and (JS.or (JS.shl hi 16) lo) 0xffffffff).

Definition STFS_Read24 (offset : Z) : M Z :=
  require_dirty ;;;
  w <- STFS_Read32 (offset - 1) ;;
  ret (JS.and w 0xffffff).

(** [STFS_Swap24] *)
Definition STFS_Swap24 (i : Z) : Z :=
  JS.and (JS.or (JS.or (JS.shl (JS.and i 0xff) 16) (JS.and i 0x00ff00)) (JS.sar i 16))
         0xffffff.

(** [STFS_ReadASCIIString]: the loop [for (i = offset; i < offset + length; i++)]
    runs at most [length] times; [n] counts the iterations left. *)
Fixpoint ascii_loop (n : nat) (i : Z) (str : string) : M string :=
  match n with
  | O => ret str
  | S n' =>
      read <- view_read i ;;
      if JS.eq0 read then ret str
      else ascii_loop n' (i + 1) (str ++ String (JS.fromCharCode read) EmptyString)
  end.

Definition STFS_ReadASCIIString (offset length : Z) : M string :=
  require_loaded ;;; ascii_loop (Z.to_nat length) offset EmptyString.

(** ** Address translation *)

(** [STFS_BlockToOffset].  [oBlockNum / 0xAA] is a division of doubles whose
    result [<<] truncates; both corrections are guarded by [oBlockNum >= 0xAA],
    so the operand is positive and the truncation is [Z.div]. *)
Definition STFS_BlockToOffset (blockNum : Z) : M Z :=
  shift <- gets STFS_TableSizeShift ;;
  let oBlockNum := blockNum in
  let blockNum :=
    if oBlockNum >=? 0xAA then blockNum + JS.shl (oBlockNum / 0xAA + 1) shift
    else blockNum in
  let blockNum :=
    if oBlockNum >=? 0x70E4 then blockNum + JS.shl (oBlockNum / 0x70E4 + 1) shift
    else blockNum in
  ret (0xC000 + blockNum * 0x1000).

(** [STFS_BlockToHashOffset].  [%] is the remainder with the sign of the
    dividend ([Z.rem]); [Math.floor(blockNum / 0xAA)] is [Z.div]. *)
Definition STFS_BlockToHashOffset (blockNum : Z) : M Z :=
  shift <- gets STFS_TableSizeShift ;;
  let record := Z.rem blockNum 0xAA in
  let tableIndex := blockNum / 0xAA * (if shift =? 1 then 0xAC else 0xAB) in
  let tableIndex :=
    if blockNum >=? 0xAA then tableIndex + JS.shl (blockNum / 0x70E4 + 1) shift
    else tableIndex in
  let tableIndex :=
    if blockNum >=? 0x70E4 then tableIndex + JS.shl 1 shift
    else tableIndex in
  ret ((if shift =? 0 then 0xB000 else 0x0000) + tableIndex * 0x1000 + record * 0x18).

(** ** Assignments to the globals *)

Definition set_FileBuffer (b : option (list byte)) (st : State) : State :=
  {| STFS_FileBuffer := b;
     STFS_Dirty := STFS_Dirty st;
     STFS_PackageLoaded := STFS_PackageLoaded st;
     STFS_TableSizeShift := STFS_TableSizeShift st;
     STFS_FileTable := STFS_FileTable st |}.
Definition set_Dirty (d : bool) (st : State) : State :=
  {| STFS_FileBuffer := STFS_FileBuffer st;
     STFS_Dirty := d;
     STFS_PackageLoaded := STFS_PackageLoaded st;
     STFS_TableSizeShift := STFS_TableSizeShift st;
     STFS_FileTable := STFS_FileTable st |}.
Definition set_PackageLoaded (l : bool) (st : State) : State :=
  {| STFS_FileBuffer := STFS_FileBuffer st;
     STFS_Dirty := STFS_Dirty st;
     STFS_PackageLoaded := l;
     STFS_TableSizeShift := STFS_TableSizeShift st;
     STFS_FileTable := STFS_FileTable st |}.
Definition set_TableSizeShift (s : Z) (st : State) : State :=
  {| STFS_FileBuffer := STFS_FileBuffer st;
     STFS_Dirty := STFS_Dirty st;
     STFS_PackageLoaded := STFS_PackageLoaded st;
     STFS_TableSizeShift := s;
     STFS_FileTable := STFS_FileTable st |}.
Definition set_FileTable (t : TableVal) (st : State) : State :=
  {| STFS_FileBuffer := STFS_FileBuffer st;
     STFS_Dirty := STFS_Dirty st;
     STFS_PackageLoaded := STFS_PackageLoaded st;
     STFS_TableSizeShift := STFS_TableSizeShift st;
     STFS_FileTable := t |}.

(** ** Chain walking *)

(** The loop of [STFS_GetBlocksFromBlock]: [while (blockCount > 0) { ...;
    blockCount--; }] runs at most [blockCount] times, [n] is the value of
    [blockCount].  [blocks] is never empty, so [blocks.at(-1)] is its last
    element. *)
Fixpoint blocks_loop (n : nat) (blocks : list Z) : M (list Z) :=
  match n with
  | O => ret blocks
  | S n' =>
      hashOffset <- STFS_BlockToHashOffset (List.last blocks 0) ;;
      newBlock <- STFS_Read24 (hashOffset + 0x15) ;;
      if (newBlock =? List.last blocks 0) || (newBlock =? 0xFFFFFF)
      then ret blocks
      else blocks_loop n' (blocks ++ [newBlock])
  end.

Definition STFS_GetBlocksFromBlock (blockNum blockCount : Z) : M (list Z) :=
  blocks_loop (Z.to_nat blockCount) [blockNum].

(** ** The file table *)

(** [STFS_FileTable.push(row)]; [false] has no [push]. *)
Definition table_push (row : FileEntry) : M unit :=
  t <- gets STFS_FileTable ;;
  match t with
  | TFalse => throw TypeError
  | TArray rows => modify (set_FileTable (TArray (rows ++ [row])))
  end.

(** The [while (true)] loop of [STFS_InitFS], from [offset] on.  It has no
    bound of its own: [fuel] bounds the number of iterations, and the loop
    that exhausts it has not returned. *)
Fixpoint scan_records (fuel : nat) (offset : Z) : M unit :=
  match fuel with
  | O => diverge
  | S fuel' =>
      first <- STFS_Read8 offset ;;
      if JS.eq0 first then ret tt
      else
        raw <- STFS_Read8 (offset + 0x28) ;;
        let flags := JS.sar (JS.and (JS.int32_of_elem raw) 0xC0) 6 in
        let nameLength := JS.and (JS.int32_of_elem raw) 0x3F in
        fileName <- STFS_ReadASCIIString offset nameLength ;;
        parentDirectory <- STFS_Read16 (offset + 0x32) ;;
        fileSize <- STFS_Read32 (offset + 0x34) ;;
        sb <- STFS_Read24 (offset + 0x2F) ;;
        let startingBlock := STFS_Swap24 sb in
        nb <- STFS_Read24 (offset + 0x29) ;;
        let numOfBlocks := STFS_Swap24 nb in
        table_push {| fileName := fileName; nameLength := nameLength;
                      flags := flags; parentDirectory := parentDirectory;
                      fileSize := fileSize; startingBlock := startingBlock;
                      numOfBlocks := numOfBlocks |} ;;;
        scan_records fuel' (offset + 0x40)
  end.

(** The [for] loop of [STFS_InitFS] over [tableBlocks]. *)
Fixpoint scan_blocks (fuel : nat) (tableBlocks : list Z) : M unit :=
  match tableBlocks with
  | [] => ret tt
  | block :: rest =>
      offset <- STFS_BlockToOffset block ;;
      scan_records fuel offset ;;;
      scan_blocks fuel rest
  end.

Definition STFS_InitFS (fuel : nat) : M unit :=
  require_loaded ;;;
  modify (set_FileTable (TArray [])) ;;;
  entryID <- STFS_Read32 0x340 ;;
  (if negb (JS.sar (JS.and (entryID + 0xFFF) 0xF000) 0xC =? 0xB)
   then modify (set_TableSizeShift 1) else ret tt) ;;;
  start <- STFS_Read24 (0x379 + 0x4) ;;
  count <- STFS_Read16 (0x379 + 0x2) ;;
  tableBlocks <- STFS_GetBlocksFromBlock start count ;;
  scan_blocks fuel tableBlocks.

Definition STFS_GetFileTable : M TableVal := gets STFS_FileTable.

(** [STFS_FileTable[i]]: [None] is [undefined]. *)
Definition table_get (t : TableVal) (i : Z) : option FileEntry :=
  match t with
  | TFalse => None
  | TArray rows => if i <? 0 then None else rows !! Z.to_nat i
  end.

(** [STFS_GetFile]: [find] returns the first match or [undefined] ([None]);
    [false.find] is not a function. *)
Definition STFS_GetFile (name : string) : M (option FileEntry) :=
  t <- gets STFS_FileTable ;;
  match t with
  | TFalse => throw TypeError
  | TArray rows => ret (List.find (fun f => String.eqb (fileName f) name) rows)
  end.

(** The [while] loop of [STFS_GetFilePath]; one unit of [fuel] per test of
    the loop condition. *)
Fixpoint path_loop (fuel : nat) (file : FileEntry) (filePath : string) : M string :=
  match fuel with
  | O => diverge
  | S fuel' =>
      if negb (parentDirectory file =? 0xffff) then
        t <- gets STFS_FileTable ;;
        match table_get t (parentDirectory file) with
        | None => throw TypeError          (* [undefined.fileName] *)
        | Some parent =>
            path_loop fuel' parent (fileName parent ++ "/" ++ filePath)%string
        end
      else ret filePath
  end.

Definition STFS_GetFilePath (fuel : nat) (file : FileEntry) : M string :=
  path_loop fuel file (fileName file).

(** ** Extraction *)

(** [new Uint8Array(STFS_FileBuffer, offset, length)]: a view of [length]
    bytes at [offset]; a negative offset or length, or a view that passes
    the end of the buffer, is a [RangeError].  With [null] for the buffer
    the constructor takes its first argument as a length and returns an
    empty array. *)
Definition new_view (offset len : Z) : M (list byte) :=
  b <- gets STFS_FileBuffer ;;
  match b with
  | None => ret []
  | Some buf =>
      if (offset <? 0) || (len <? 0) || (Z.of_nat (length buf) <? offset + len)
      then throw RangeError
      else ret (take (Z.to_nat len) (drop (Z.to_nat offset) buf))
  end.

(** The [for] loop of [STFS_ReadFile], with its [break]. *)
Fixpoint read_loop (blocks : list Z) (readRemaining : Z)
    (blockArrays : list (list byte)) : M (list (list byte)) :=
  match blocks with
  | [] => ret blockArrays
  | block :: rest =>
      offset <- STFS_BlockToOffset block ;;
      v <- new_view offset (if readRemaining <? 0x1000 then readRemaining else 0x1000) ;;
      let blockArrays := blockArrays ++ [v] in
      let readRemaining := readRemaining - 0x1000 in
      if readRemaining <=? 0 then ret blockArrays
      else read_loop rest readRemaining blockArrays
  end.

(** [STFS_ReadFile].  The value is the content of the [Blob] the returned
    URL names: the concatenation of the views. *)
Definition STFS_ReadFile (file : FileEntry) : M (list byte) :=
  if JS.and (flags file) 2 =? 2 then throw (Str "This is a directory!")
  else
    blocks <- STFS_GetBlocksFromBlock (startingBlock file) (numOfBlocks file) ;;
    blockArrays <- read_loop blocks (fileSize file) [] ;;
    ret (concat blockArrays).

(** ** Writing *)

(** [STFS_UInt8View[offset] = v]: stores the low byte of [v]; a store out
    of the range of a typed array is ignored, a store into [null] is a
    [TypeError]. *)
Definition byte_of_Z (v : Z) : byte :=
  match Byte.of_N (Z.to_N (JS.and v 0xff)) with
  | Some b => b
  | None => x00
  end.

Definition view_write (offset v : Z) : M unit :=
  b <- gets STFS_FileBuffer ;;
  match b with
  | None => throw TypeError
  | Some buf =>
      if offset <? 0 then ret tt
      else modify (set_FileBuffer (Some (<[Z.to_nat offset := byte_of_Z v]> buf)))
  end.

Definition STFS_Write8 (offset i : Z) : M unit :=
  require_loaded ;;; view_write offset (JS.and i 0xff).

Definition STFS_Write16 (offset i : Z) : M unit :=
  require_loaded ;;;
  STFS_Write8 offset (JS.and (JS.sar i 8) 0xff) ;;;
  STFS_Write8 (offset + 1) (JS.and i 0xff).

Definition STFS_Write24 (offset i : Z) : M unit :=
  require_loaded ;;;
  STFS_Write8 offset (JS.and (JS.sar i 16) 0xff) ;;;
  STFS_Write16 (offset + 1) (JS.and i 0xffff).

Definition STFS_Write32 (offset i : Z) : M unit :=
  require_loaded ;;;
  STFS_Write16 offset (JS.and (JS.sar i 16) 0xffff) ;;;
  STFS_Write16 (offset + 2) (JS.and i 0xffff).

(** ** Header fields *)

Definition STFS_CON : Z := 0x434F4E20.
Definition STFS_LIVE : Z := 0x4C495645.
Definition STFS_PIRS : Z := 0x50495253.

Definition STFS_GetFileType : M Z := require_loaded ;;; STFS_Read32 0.
Definition STFS_GetContentType : M Z := require_loaded ;;; STFS_Read32 0x344.
Definition STFS_GetTitleID : M Z := require_loaded ;;; STFS_Read32 0x360.
Definition STFS_SetContentType (contentType : Z) : M unit :=
  require_loaded ;;; STFS_Write32 0x344 contentType.
Definition STFS_SetTitleID (titleID : Z) : M unit :=
  require_loaded ;;; STFS_Write32 0x360 titleID.

(** [for (var i = 0x4; i < 0x22C; i++) STFS_UInt8View[i] = 0;] *)
Fixpoint blank_loop (n : nat) (i : Z) : M unit :=
  match n with
  | O => ret tt
  | S n' => view_write i 0 ;;; blank_loop n' (i + 1)
  end.

Definition STFS_FakeSignLIVE : M unit :=
  require_loaded ;;; STFS_Write32 0 STFS_LIVE ;;; blank_loop (Z.to_nat (0x22C - 0x4)) 0x4.
Definition STFS_FakeSignPIRS : M unit :=
  require_loaded ;;; STFS_Write32 0 STFS_PIRS ;;; blank_loop (Z.to_nat (0x22C - 0x4)) 0x4.

(** ** Loading and resetting *)

Definition STFS_Reset : M unit :=
  modify (set_FileBuffer None) ;;;
  modify (set_PackageLoaded false) ;;;
  modify (set_Dirty false) ;;;
  modify (set_TableSizeShift 0) ;;;
  modify (set_FileTable TFalse).

Definition DirtyState : exn := Str "STFS.js is in a dirty state, please run STFS_Reset".
Definition AlreadyLoaded : exn := Str "STFS file already loaded, please run STFS_Reset".
Definition TooShort : exn := Str "Input file too short".
Definition NotSTFS : exn := Str "Input is not a valid STFS archive".

(** [STFS_LoadPackage(abuf)] for an [ArrayBuffer] holding the bytes [abuf].
    The test [!abuf instanceof ArrayBuffer] parses as
    [(!abuf) instanceof ArrayBuffer], which is false for every argument, so
    it never throws.  The cases of the [switch] compare with [===]. *)
Definition STFS_LoadPackage (abuf : list byte) : M bool :=
  d <- gets STFS_Dirty ;;
  if d then throw DirtyState else
  l <- gets STFS_PackageLoaded ;;
  if l then throw AlreadyLoaded else
  if Z.of_nat (length abuf) <=? 0x971A then throw TooShort else
  modify (set_Dirty true) ;;;
  modify (set_FileBuffer (Some abuf)) ;;;
  magic <- STFS_Read32 0 ;;
  if (magic =? STFS_CON) || (magic =? STFS_LIVE) || (magic =? STFS_PIRS)
  then modify (set_PackageLoaded true) ;;; gets STFS_PackageLoaded
  else throw NotSTFS.

(** ** Calls of the library, for statements about sequences of calls *)

Inductive call : Type :=
  | CallLoadPackage (abuf : list byte)
  | CallReset
  | CallInitFS (fuel : nat)
  | CallGetFileTable
  | CallGetFile (name : string)
  | CallGetFilePath (fuel : nat) (file : FileEntry)
  | CallReadFile (file : FileEntry)
  | CallBlockToOffset (blockNum : Z)
  | CallBlockToHashOffset (blockNum : Z)
  | CallGetBlocksFromBlock (blockNum blockCount : Z)
  | CallRead (width : Z) (offset : Z)
  | CallReadASCIIString (offset len : Z)
  | CallWrite (width : Z) (offset i : Z)
  | CallGetFileType
  | CallGetContentType
  | CallGetTitleID
  | CallSetContentType (contentType : Z)
  | CallSetTitleID (titleID : Z)
  | CallFakeSignLIVE
  | CallFakeSignPIRS.

Definition ignore {A} (m : M A) : M unit := _ <- m ;; ret tt.

(** Runs one call, dropping its value. *)
Definition run_call (c : call) : M unit :=
  match c with
  | CallLoadPackage abuf => ignore (STFS_LoadPackage abuf)
  | CallReset => STFS_Reset
  | CallInitFS fuel => STFS_InitFS fuel
  | CallGetFileTable => ignore STFS_GetFileTable
  | CallGetFile name => ignore (STFS_GetFile name)
  | CallGetFilePath fuel file => ignore (STFS_GetFilePath fuel file)
  | CallReadFile file => ignore (STFS_ReadFile file)
  | CallBlockToOffset b => ignore (STFS_BlockToOffset b)
  | CallBlockToHashOffset b => ignore (STFS_BlockToHashOffset b)
  | CallGetBlocksFromBlock b n => ignore (STFS_GetBlocksFromBlock b n)
  | CallRead width offset =>
      if width =? 8 then ignore (STFS_Read8 offset)
      else if width =? 16 then ignore (STFS_Read16 offset)
      else if width =? 24 then ignore (STFS_Read24 offset)
      else ignore (STFS_Read32 offset)
  | CallReadASCIIString offset len => ignore (STFS_ReadASCIIString offset len)
  | CallWrite width offset i =>
      if width =? 8 then STFS_Write8 offset i
      else if width =? 16 then STFS_Write16 offset i
      else if width =? 24 then STFS_Write24 offset i
      else STFS_Write32 offset i
  | CallGetFileType => ignore STFS_GetFileType
  | CallGetContentType => ignore STFS_GetContentType
  | CallGetTitleID => ignore STFS_GetTitleID
  | CallSetContentType t => STFS_SetContentType t
  | CallSetTitleID t => STFS_SetTitleID t
  | CallFakeSignLIVE => STFS_FakeSignLIVE
  | CallFakeSignPIRS => STFS_FakeSignPIRS
  end.

(** The state after a sequence of calls, each run whatever the outcome of
    the ones before it (a caller may catch what a call throws). *)
Fixpoint run_calls (cs : list call) (st : State) : State :=
  match cs with
  | [] => st
  | c :: rest => run_calls rest (after (run_call c) st)
  end.

(** ** Notions used to state the properties *)

(** The number of hash-table blocks skipped before data block [b], as the
    two corrections of [STFS_BlockToOffset] add them up. *)
Definition skipped (s b : Z) : Z :=
  (if 0xAA <=? b then (b / 0xAA + 1) * 2 ^ s else 0)
  + (if 0x70E4 <=? b then (b / 0x70E4 + 1) * 2 ^ s else 0).


(** The values the reading functions compute over the bytes [buf] once the
    guard on [STFS_Dirty] has passed. *)
Definition u16 (buf : list byte) (offset : Z) : Z :=
  JS.and (JS.or (JS.shl (JS.int32_of_elem (view_get buf offset)) 8)
                (JS.int32_of_elem (view_get buf (offset + 1)))) 0xffff.
Definition u32 (buf : list byte) (offset : Z) : Z :=
  JS.and (JS.or (JS.shl (u16 buf offset) 16) (u16 buf (offset + 2))) 0xffffffff.
Definition u24 (buf : list byte) (offset : Z) : Z :=
  JS.and (u32 buf (offset - 1)) 0xffffff.

(** A state in which the reading functions do not throw: the dirty flag is
    set and the view is over [buf]. *)
Definition readable (buf : list byte) (st : State) : Prop :=
  STFS_Dirty st = true /\ STFS_FileBuffer st = Some buf.

(** A library on which nothing is loaded and no load has failed. *)
Definition unloaded (st : State) : Prop :=
  STFS_Dirty st = false /\ STFS_PackageLoaded st = false.

(** The three recognized container tags, as the first four bytes of a file:
    the characters of CON and a space, of LIVE, and of PIRS. *)
Definition CON_tag : list byte := [x43; x4f; x4e; x20].
Definition LIVE_tag : list byte := [x4c; x49; x56; x45].
Definition PIRS_tag : list byte := [x50; x49; x52; x53].
Definition recognized (abuf : list byte) : Prop :=
  take 4 abuf = CON_tag \/ take 4 abuf = LIVE_tag \/ take 4 abuf = PIRS_tag.

(** The hash-table blocks that precede the chain record of block [b] when
    [STFS_TableSizeShift] is 0, as [STFS_BlockToHashOffset] counts them. *)
Definition hash_table_index0 (b : Z) : Z :=
  b / 0xAA * 0xAB
  + (if 0xAA <=? b then b / 0x70E4 + 1 else 0)
  + (if 0x70E4 <=? b then 1 else 0).

(** ** Sample containers *)

(** [poke offset bs buf]: the bytes [buf] with [bs] written at [offset]. *)
Definition poke (offset : Z) (bs : list byte) (buf : list byte) : list byte :=
  take (Z.to_nat offset) buf ++ bs ++ drop (Z.to_nat offset + length bs) buf.

(** An image of [n] bytes: the CON tag, the rest zero. *)
Definition sized_image (n : Z) : list byte :=
  poke 0 CON_tag (replicate (Z.to_nat n) x00).

Definition blank_image : list byte := sized_image 0xE000.

(** A container whose chain records (at [0xB000], 24 bytes each, the next
    block in the last three bytes) link block 0 to block 1 and block 1 to
    block 2. *)
Definition chain_image : list byte :=
  poke 0xB02D [x00; x00; x02] (poke 0xB015 [x00; x00; x01] blank_image).

(** The library after [STFS_LoadPackage(chain_image)] on a fresh page. *)
Definition chain_state : State :=
  after (STFS_LoadPackage chain_image) initial_state.

(** The numeric value of a byte of the buffer. *)
Definition byte_val (b : byte) : Z := Z.of_N (Byte.to_N b).

(** ** Properties of the state that calls keep *)

(** [m] keeps [P]: from a state in which [P] holds, the state [m] leaves
    behind, whatever its outcome, satisfies [P] again. *)
Definition preserves (P : State -> Prop) {A} (m : M A) : Prop :=
  forall st, P st -> P (snd (m st)).

(** The assignments every call but [STFS_Reset] and the start of
    [STFS_InitFS] is made of. *)
Class Frame (P : State -> Prop) : Prop := {
  frame_FileBuffer : forall b st, P st -> P (set_FileBuffer b st);
  frame_TableSizeShift : forall s st, P st -> P (set_TableSizeShift s st);
  frame_PackageLoaded : forall l st, P st -> P (set_PackageLoaded l st);
  frame_Dirty_true : forall st, P st -> P (set_Dirty true st);
  frame_push : forall row, preserves P (table_push row)
}.

(** The predicates at hand: the dirty flag is set; the table is [false];
    the table is an array. *)
Definition dirty (st : State) : Prop := STFS_Dirty st = true.
Definition table_is_false (st : State) : Prop := STFS_FileTable st = TFalse.
Definition table_is_array (st : State) : Prop :=
  exists rows, STFS_FileTable st = TArray rows.

Definition is_InitFS (c : call) : Prop :=
  match c with CallInitFS _ => True | _ => False end.
Definition is_Reset (c : call) : Prop :=
  match c with CallReset => True | _ => False end.

(** The state a load that got past the length test leaves: dirty, with
    the buffer stored. *)
Definition stored (abuf : list byte) (st : State) : State :=
  set_FileBuffer (Some abuf) (set_Dirty true st).

(** A container of [0x971A] bytes, the threshold itself, and one of
    [0x971B] bytes, both with the CON tag. *)
Definition threshold_image : list byte := sized_image 0x971A.
Definition above_threshold_image : list byte := sized_image 0x971B.

(** ** The parent chain of a file-table row *)

(** [g] is the row the loop of [STFS_GetFilePath] moves to from [f]. *)
Definition parent_of (t : TableVal) (f g : FileEntry) : Prop :=
  parentDirectory f <> 0xffff /\ table_get t (parentDirectory f) = Some g.

(** The chain of parents of [f] reaches a row whose parent is the root
    sentinel after [k] steps. *)
Inductive reaches_root (t : TableVal) : FileEntry -> nat -> Prop :=
  | reaches_root_here f :
      parentDirectory f = 0xffff -> reaches_root t f 0
  | reaches_root_step f g k :
      parent_of t f g -> reaches_root t g k -> reaches_root t f (S k).

(** Rows from which the chain of parents goes on for ever. *)
Definition endless (t : TableVal) (f : FileEntry) : Prop :=
  forall n, exists g, nsteps (parent_of t) n f g.

(** A container with a one-block file table (header size [0xAD0E] at
    [0x340], block count 1 at [0x37B], first block 0 at [0x37D], the chain
    record of block 0 ending the chain) whose only row, a directory named A,
    names row 0, itself, as its parent. *)
Definition cyclic_image : list byte :=
  poke 0xC028 [x81] (poke 0xC000 [x41]
    (poke 0xB015 [xff; xff; xff]
      (poke 0x37B [x00; x01; x00; x00; x00]
        (poke 0x340 [x00; x00; xad; x0e] blank_image)))).

Definition cyclic_state : State :=
  after (STFS_InitFS 2) (after (STFS_LoadPackage cyclic_image) initial_state).

Definition cyclic_row : FileEntry :=
  {| fileName := "A"; nameLength := 1; flags := 2; parentDirectory := 0;
     fileSize := 0; startingBlock := 0; numOfBlocks := 0 |}.

(** A table of two rows: a directory D under the root and a file A in it. *)
Definition nested_dir : FileEntry :=
  {| fileName := "D"; nameLength := 1; flags := 2; parentDirectory := 0xffff;
     fileSize := 0; startingBlock := 0; numOfBlocks := 0 |}.
Definition nested_file : FileEntry :=
  {| fileName := "A"; nameLength := 1; flags := 0; parentDirectory := 0;
     fileSize := 5; startingBlock := 1; numOfBlocks := 1 |}.
Definition nested_state : State :=
  set_FileTable (TArray [nested_dir; nested_file]) chain_state.

(** ** The rows a scan produces *)

(** The string [STFS_ReadASCIIString] builds over the bytes [buf]: the
    value of [ascii_loop] once the view is known. *)
Fixpoint ascii_of (buf : list byte) (n : nat) (i : Z) (str : string) : string :=
  match n with
  | O => str
  | S n' =>
      if JS.eq0 (view_get buf i) then str
      else ascii_of buf n' (i + 1)
             (str ++ String (JS.fromCharCode (view_get buf i)) EmptyString)
  end.

(** The row the body of the [while] loop of [STFS_InitFS] builds from the
    64-byte record at [offset]. *)
Definition row_at (buf : list byte) (offset : Z) : FileEntry :=
  let raw := view_get buf (offset + 0x28) in
  let nameLength := JS.and (JS.int32_of_elem raw) 0x3F in
  {| fileName := ascii_of buf (Z.to_nat nameLength) offset EmptyString;
     nameLength := nameLength;
     flags := JS.sar (JS.and (JS.int32_of_elem raw) 0xC0) 6;
     parentDirectory := u16 buf (offset + 0x32);
     fileSize := u32 buf (offset + 0x34);
     startingBlock := STFS_Swap24 (u24 buf (offset + 0x2F));
     numOfBlocks := STFS_Swap24 (u24 buf (offset + 0x29)) |}.

(** The rows of [k] consecutive records from [offset] on. *)
Fixpoint rows_from (buf : list byte) (offset : Z) (k : nat) : list FileEntry :=
  match k with
  | O => []
  | S k' => row_at buf offset :: rows_from buf (offset + 0x40) k'
  end.

(** A container with a file table of two blocks: the root chain starts at
    block 0 and is declared two blocks long, block 0 is chained to block 1
    and block 1 ends the chain.  The first record of block 0 (at [0xC000])
    has first byte 0 and is followed by a record named B; block 1 (at
    [0xD000]) holds one record, a file named A of 5 bytes at block 2. *)
Definition two_block_image : list byte :=
  poke 0xD034 [x00; x00; x00; x05]
    (poke 0xD028 [x01; x01; x00; x00; x00; x00; x00; x02; x00; x00; xff; xff]
      (poke 0xD000 [x41]
        (poke 0xC068 [x01]
          (poke 0xC040 [x42]
            (poke 0xB02D [xff; xff; xff]
              (poke 0xB015 [x00; x00; x01]
                (poke 0x37B [x00; x02; x00; x00; x00]
                  (poke 0x340 [x00; x00; xad; x0e] blank_image)))))))).

Definition two_block_state : State :=
  after (STFS_LoadPackage two_block_image) initial_state.

Definition two_block_row : FileEntry :=
  {| fileName := "A"; nameLength := 1; flags := 0; parentDirectory := 0xffff;
     fileSize := 5; startingBlock := 2; numOfBlocks := 1 |}.

(** ** Extraction of a file whose chain is short *)

(** The 4096 bytes of block [b] lie within the buffer. *)
Definition block_in_buffer (st : State) (buf : list byte) (b : Z) : Prop :=
  exists o, STFS_BlockToOffset b st = (Ok o, st) /\
            0 <= o /\ o + 0x1000 <= Z.of_nat (length buf).

(** A container whose block 0 ends its chain, and a row that declares a
    file of 5000 bytes in two blocks from block 0. *)
Definition truncated_image : list byte :=
  poke 0xB015 [xff; xff; xff] blank_image.
Definition truncated_state : State :=
  after (STFS_LoadPackage truncated_image) initial_state.
Definition truncated_file : FileEntry :=
  {| fileName := "A"; nameLength := 1; flags := 0; parentDirectory := 0xffff;
     fileSize := 5000; startingBlock := 0; numOfBlocks := 2 |}.

(** ** Further functions of the library *)

(** [STFS_Swap32] *)
Definition STFS_Swap32 (i : Z) : Z :=
  JS.and
    (JS.or (JS.or (JS.or (JS.and (JS.sar i 24) 0xff) (JS.and (JS.shl i 8) 0xff0000))
                  (JS.and (JS.sar i 8) 0xff00))
           (JS.and (JS.shl i 24) 0xff000000))
    0xffffffff.

(** [STFS_Swap16] *)
Definition STFS_Swap16 (i : Z) : Z :=
  JS.and (JS.or (JS.sar i 8) (JS.shl i 8)) 0xffff.

(** [STFS_SavePackage].  The value is the content of the [Blob] the
    returned URL names: the bytes of the buffer; a [Blob] made of [null]
    holds the four characters of the word null. *)
Definition STFS_SavePackage : M (list byte) :=
  b <- gets STFS_FileBuffer ;;
  match b with
  | None => ret [x6e; x75; x6c; x6c]
  | Some buf => ret buf
  end.

(** ** Notions for the further properties *)

(** [m] never changes the state. *)
Definition readonly {A} (m : M A) : Prop := forall st, snd (m st) = st.

(** Each block of [l] differs from the one before it ([prev] for the
    first), and is a 24-bit number other than the terminator [0xFFFFFF]. *)
Fixpoint links (prev : Z) (l : list Z) : Prop :=
  match l with
  | [] => True
  | x :: rest => x <> prev /\ 0 <= x < 0xFFFFFF /\ links x rest
  end.

(** The byte of [buf] at [offset] as the reading functions use it: a read
    beyond either end of the view gives [undefined], which the bit
    operators take for 0. *)
Definition byte_or_0 (buf : list byte) (offset : Z) : Z :=
  JS.int32_of_elem (view_get buf offset).

(** The bytes after [STFS_UInt8View[offset] = v], and after the stores of
    [STFS_Write16] and [STFS_Write32]. *)
Definition poke_byte (offset v : Z) (buf : list byte) : list byte :=
  if offset <? 0 then buf else <[Z.to_nat offset := byte_of_Z v]> buf.
Definition poke16 (offset i : Z) (buf : list byte) : list byte :=
  poke_byte (offset + 1) (JS.and (JS.and i 0xff) 0xff)
    (poke_byte offset (JS.and (JS.and (JS.sar i 8) 0xff) 0xff) buf).
Definition poke32 (offset i : Z) (buf : list byte) : list byte :=
  poke16 (offset + 2) (JS.and i 0xffff)
    (poke16 offset (JS.and (JS.sar i 16) 0xffff) buf).

(** The 4096 bytes of data block [b] in the buffer. *)
Definition block_bytes (st : State) (buf : list byte) (b : Z) : list byte :=
  match result (STFS_BlockToOffset b) st with
  | Ok o => take (Z.to_nat 0x1000) (drop (Z.to_nat o) buf)
  | _ => []
  end.

(** A row for a file of 100 bytes in block 0. *)
Definition small_file : FileEntry :=
  {| fileName := "A"; nameLength := 1; flags := 0; parentDirectory := 0xffff;
     fileSize := 100; startingBlock := 0; numOfBlocks := 1 |}.

(** The rows met on the way from a row to the root, nearest first. *)
Inductive chain_to_root (t : TableVal) : FileEntry -> list FileEntry -> Prop :=
  | chain_to_root_here f :
      parentDirectory f = 0xffff -> chain_to_root t f []
  | chain_to_root_step f g l :
      parent_of t f g -> chain_to_root t g l -> chain_to_root t f (g :: l).

(** ** The table [STFS_InitFS] builds *)

(** The table-size shift after the test of the header size field at
    [0x340]: set to 1 unless the field, rounded up to a multiple of
    [0x1000], is [0xB000] in its low 16 bits; otherwise left as it is. *)
Definition header_shift (buf : list byte) (shift : Z) : Z :=
  if negb (JS.sar (JS.and (u32 buf 0x340 + 0xFFF) 0xF000) 0xC =? 0xB)
  then 1 else shift.

(** The state in which [STFS_InitFS] walks the root chain and scans. *)
Definition scanning_state (buf : list byte) (st : State) : State :=
  set_TableSizeShift (header_shift buf (STFS_TableSizeShift st))
    (set_FileTable (TArray []) st).

(** The record of index [k] from [o] on is the first whose first byte is 0. *)
Definition first_null (buf : list byte) (o : Z) (k : nat) : Prop :=
  (forall j, (j < k)%nat -> JS.eq0 (view_get buf (o + 0x40 * Z.of_nat j)) = false) /\
  JS.eq0 (view_get buf (o + 0x40 * Z.of_nat k)) = true.

(** The rows of the first [k] records of block [b]. *)
Definition block_rows (st : State) (buf : list byte) (b : Z) (k : nat)
    : list FileEntry :=
  match result (STFS_BlockToOffset b) st with
  | Ok o => rows_from buf o k
  | _ => []
  end.

(** Block [b] has its first null record at index [k], within the fuel. *)
Definition ends_at (st : State) (buf : list byte) (fuel : nat) (b : Z) (k : nat)
    : Prop :=
  exists o, STFS_BlockToOffset b st = (Ok o, st) /\ first_null buf o k /\ (k < fuel)%nat.

(** The globals after a successful load that follows a reset. *)
Definition loaded_state (abuf : list byte) : State :=
  {| STFS_FileBuffer := Some abuf;
     STFS_Dirty := true;
     STFS_PackageLoaded := true;
     STFS_TableSizeShift := 0;
     STFS_FileTable := TFalse |}.

(** ** What a call other than a load or a reset can change *)

(** Two values of the buffer variable of the same size. *)
Definition same_size (b b' : option (list byte)) : Prop :=
  match b, b' with
  | Some x, Some y => length y = length x
  | None, None => True
  | _, _ => False
  end.

(** From [st] to [st']: both flags as before, the shift as before or set
    to 1, the buffer of the same size. *)
Definition evolves (st st' : State) : Prop :=
  STFS_Dirty st' = STFS_Dirty st /\
  STFS_PackageLoaded st' = STFS_PackageLoaded st /\
  (STFS_TableSizeShift st' = STFS_TableSizeShift st \/ STFS_TableSizeShift st' = 1) /\
  same_size (STFS_FileBuffer st) (STFS_FileBuffer st').

Definition effect {A} (m : M A) : Prop := forall st, evolves st (snd (m st)).

(** The states the library can be in: a loaded package is dirty; a dirty
    library holds a buffer longer than [0x971A] bytes; a library that is not
    dirty holds none; the shift is 0 or 1. *)
Definition well_formed (st : State) : Prop :=
  (STFS_PackageLoaded st = true -> STFS_Dirty st = true) /\
  (STFS_Dirty st = true ->
     exists buf, STFS_FileBuffer st = Some buf /\ 0x971A < Z.of_nat (length buf)) /\
  (STFS_Dirty st = false -> STFS_FileBuffer st = None) /\
  (STFS_TableSizeShift st = 0 \/ STFS_TableSizeShift st = 1).

Definition is_LoadPackage (c : call) : Prop :=
  match c with CallLoadPackage _ => True | _ => False end.

(** The bytes after the loop [for (i = ...; ...; i++) STFS_UInt8View[i] = 0]
    has run [n] times from [i] on. *)
Fixpoint blank (n : nat) (i : Z) (buf : list byte) : list byte :=
  match n with
  | O => buf
  | S n' => blank n' (i + 1) (poke_byte i 0 buf)
  end.

(** [buf'] is [buf] with the signature and padding, bytes 4 to [0x22B],
    set to 0, whatever its first four bytes. *)
Definition signature_blanked (buf buf' : list byte) : Prop :=
  length buf' = length buf /\
  (forall j, 4 <= j < 0x22C -> view_get buf' j = JS.num 0) /\
  (forall j, 0x22C <= j -> view_get buf' j = view_get buf j).

(** ** Header text *)

(** [STFS_ReadString].  A string is the list of its 16-bit code units;
    [String.fromCharCode(read)] is the one unit [read].  The loop
    [for (i = offset; i < offset + length; i += 2)] runs at most
    [(length + 1) / 2] times; [n] counts the iterations left. *)
Fixpoint string_loop (n : nat) (i : Z) (str : list Z) : M (list Z) :=
  match n with
  | O => ret str
  | S n' =>
      read <- STFS_Read16 i ;;
      if read =? 0x0000 then ret str
      else string_loop n' (i + 2) (str ++ [read])
  end.

Definition STFS_ReadString (offset length : Z) : M (list Z) :=
  require_loaded ;;; string_loop (Z.to_nat ((length + 1) / 2)) offset [].

Definition STFS_GetPackageName : M (list Z) :=
  require_loaded ;;; STFS_ReadString 0x411 0x900.
Definition STFS_GetPackageDescription : M (list Z) :=
  require_loaded ;;; STFS_ReadString 0xD11 0x900.
Definition STFS_GetPublisherName : M (list Z) :=
  require_loaded ;;; STFS_ReadString 0x1611 0x80.
Definition STFS_GetTitleName : M (list Z) :=
  require_loaded ;;; STFS_ReadString 0x1691 0x80.

(** [units] is the text stored at [offset] in [buf], cut at [n] units: the
    big-endian words from [offset] on, up to the first zero word. *)
Definition text_at (buf : list byte) (offset : Z) (n : nat) (units : list Z) : Prop :=
  (length units <= n)%nat /\
  (forall k : nat, (k < length units)%nat ->
     units !! k = Some (u16 buf (offset + 2 * Z.of_nat k)) /\
     1 <= u16 buf (offset + 2 * Z.of_nat k) <= 65535) /\
  ((length units < n)%nat -> u16 buf (offset + 2 * Z.of_nat (length units)) = 0).

(** ** Thumbnails *)

(** [STFS_GetPackageThumb] and [STFS_GetTitleThumb].  The value is the
    content of the [Blob] the returned URL names: the bytes of the view. *)
Definition STFS_GetPackageThumb : M (list byte) :=
  require_loaded ;;;
  thumbSize <- STFS_Read32 0x1712 ;;
  new_view 0x171A thumbSize.

Definition STFS_GetTitleThumb : M (list byte) :=
  require_loaded ;;;
  thumbSize <- STFS_Read32 0x1716 ;;
  new_view 0x571A thumbSize.

(** [data] is the [size] bytes of [buf] from [offset] on. *)
Definition slice_of (buf : list byte) (offset size : Z) (data : list byte) : Prop :=
  Z.of_nat (length data) = size /\
  forall k : nat, (k < length data)%nat -> data !! k = buf !! (Z.to_nat offset + k)%nat.

(** ** The content ID *)

(** [n.toString(16)] on an integer: lower-case digits, no prefix. *)
Definition toString16 (z : Z) : string :=
  match z with
  | Z0 => "0"
  | Zpos p => HexString.Raw.of_pos p ""
  | Zneg p => String "-" (HexString.Raw.of_pos p "")
  end.

(** [s.padStart(n, c)] for a one-character pad. *)
Definition padStart (n : nat) (c : ascii) (s : string) : string :=
  (string_of_list_ascii (repeat c (n - String.length s)) ++ s)%string.

(** [s.toUpperCase()] on a string of ASCII characters. *)
Definition upper (c : ascii) : ascii :=
  let n := nat_of_ascii c in
  if (97 <=? n)%nat && (n <=? 122)%nat then ascii_of_nat (n - 32) else c.

Fixpoint toUpperCase (s : string) : string :=
  match s with
  | EmptyString => EmptyString
  | String c s' => String (upper c) (toUpperCase s')
  end.

(** The loop of [STFS_GetContentID]; [undefined.toString] is a
    [TypeError]. *)
Fixpoint id_loop (n : nat) (i : Z) (outString : string) : M string :=
  match n with
  | O => ret outString
  | S n' =>
      e <- view_read i ;;
      match e with
      | JS.undefined => throw TypeError
      | JS.num z =>
          id_loop n' (i + 1) (outString ++ padStart 2 "0" (toString16 z))%string
      end
  end.

Definition STFS_GetContentID : M string :=
  require_loaded ;;;
  outString <- id_loop (Z.to_nat (0x340 - 0x32C)) 0x32C "" ;;
  ret (toUpperCase outString).

(** The usual hexadecimal writing of a list of bytes: two upper-case
    digits for each byte. *)
Definition nibble (d : Z) : ascii :=
  ascii_of_N (Z.to_N (if d <? 10 then 48 + d else 55 + d)).

Fixpoint hex_of_bytes (l : list byte) : string :=
  match l with
  | [] => EmptyString
  | b :: l' =>
      String (nibble (byte_val b / 16)) (String (nibble (byte_val b mod 16))
        (hex_of_bytes l'))
  end.

(** The lower-case digits the loop appends for the bytes [l]. *)
Fixpoint raw_hex (l : list byte) : string :=
  match l with
  | [] => EmptyString
  | b :: l' => (padStart 2 "0" (toString16 (byte_val b)) ++ raw_hex l')%string
  end.

(** ** Friendly names *)

Definition STFS_SAVEGAME : Z := 0x1.
Definition STFS_DLC : Z := 0x2.
Definition STFS_AVATARITEM : Z := 0x9000.
Definition STFS_PROFILE : Z := 0x10000.
Definition STFS_GAMERPIC : Z := 0x20000.
Definition STFS_THEME : Z := 0x30000.
Definition STFS_TITLEUPDATE : Z := 0xB0000.
Definition STFS_ARCADEGAME : Z := 0xD0000.

Definition STFS_Name_FileType (fileType : Z) : string :=
  if fileType =? STFS_CON then "Console-signed"
  else if fileType =? STFS_PIRS then "Microsoft-signed"
  else if fileType =? STFS_LIVE then "Xbox Live-signed"
  else ("Unknown Type " ++ toString16 fileType)%string.

Definition STFS_Name_ContentType (contentType : Z) : string :=
  if contentType =? STFS_SAVEGAME then "Saved Game"
  else if contentType =? STFS_DLC then "Downloadable Content"
  else if contentType =? STFS_PROFILE then "User Profile"
  else if contentType =? STFS_ARCADEGAME then "Xbox Live Arcade Game"
  else if contentType =? STFS_TITLEUPDATE then "Title Update"
  else ("Unknown Type " ++ toString16 contentType)%string.

(** ** Writing text *)

(** [offset + length] where [length] may be [undefined]: the sum is then
    [NaN], here [None]. *)
Definition plus_elem (a : Z) (e : JS.elem) : option Z :=
  match e with
  | JS.undefined => None
  | JS.num z => Some (a + z)
  end.

(** [i < bound]: false when [bound] is [NaN]. *)
Definition less_than (i : Z) (bound : option Z) : bool :=
  match bound with
  | None => false
  | Some z => i <? z
  end.

(** [str.Length]: a string has a property [length], none called [Length],
    so the read gives [undefined]. *)
Definition string_Length (str : list Z) : JS.elem := JS.undefined.

(** [str.charCodeAt(a)] as the bit operators of [STFS_Write16] see it:
    out of the string it is [NaN], which they take as 0. *)
Definition charCodeAt (str : list Z) (a : nat) : Z :=
  match str !! a with
  | Some u => u
  | None => 0
  end.

(** The loop of [STFS_WriteString]. *)
Fixpoint write_string_loop (fuel : nat) (i : Z) (bound : option Z) (a : nat)
    (str : list Z) : M unit :=
  match fuel with
  | O => diverge
  | S fuel' =>
      if less_than i bound then
        STFS_Write16 i (charCodeAt str a) ;;;
        write_string_loop fuel' (i + 2) bound (S a) str
      else ret tt
  end.

Definition STFS_WriteString (fuel : nat) (offset : Z) (str : list Z) : M (list Z) :=
  require_loaded ;;;
  let length := string_Length str in
  write_string_loop fuel offset (plus_elem offset length) 0 str ;;;
  ret str.

(** The bytes after the stores of [STFS_Write24]. *)
Definition poke24 (offset i : Z) (buf : list byte) : list byte :=
  poke16 (offset + 1) (JS.and i 0xffff)
    (poke_byte offset (JS.and (JS.and (JS.sar i 16) 0xff) 0xff) buf).

(** [m] changes nothing but the file table. *)
Definition table_only {A} (m : M A) : Prop :=
  forall st, exists t, snd (m st) = set_FileTable t st.

(** [STFS_InitFS] from the walk of the root chain on. *)
Definition scan_root (fuel : nat) : M unit :=
  start <- STFS_Read24 (0x379 + 0x4) ;;
  count <- STFS_Read16 (0x379 + 0x2) ;;
  tableBlocks <- STFS_GetBlocksFromBlock start count ;;
  scan_blocks fuel tableBlocks.

(** ** The chain a walk follows *)

(** The number in the chain record of block [b]: the 24 bits at [0x15] in
    the record [STFS_BlockToHashOffset] locates, which the walk reads as
    the block after [b]. *)
Definition next_block (st : State) (buf : list byte) (b : Z) : Z :=
  match result (STFS_BlockToHashOffset b) st with
  | Ok h => u24 buf (h + 0x15)
  | _ => 0
  end.

(** Each block of [l] is the number in the chain record of the block
    before it ([prev] for the first), differs from that block, and is not
    the terminator [0xFFFFFF]. *)
Fixpoint chain_links (st : State) (buf : list byte) (prev : Z) (l : list Z) : Prop :=
  match l with
  | [] => True
  | x :: rest =>
      x = next_block st buf prev /\ x <> prev /\ 0 <= x < 0xFFFFFF /\
      chain_links st buf x rest
  end.

(** A container of [0xD000] bytes whose root chain is block 0, the last
    block of the file, filled with the byte [0x41]: each of its 64 records
    starts with a byte that is not 0. *)
Definition dense_image : list byte :=
  take (Z.to_nat 0xC000) (poke 0x340 [x00; x00; xad; x0e] blank_image)
  ++ replicate (Z.to_nat 0x1000) x41.
Definition dense_state : State :=
  after (STFS_LoadPackage dense_image) initial_state.

(** A container whose package name, at [0x411], is the two-letter text
    Hi, and one with a package thumbnail of four bytes at [0x171A] and a
    title thumbnail whose size field, at [0x1716], holds -1. *)
Definition text_image : list byte :=
  poke 0x411 [x00; x48; x00; x69] blank_image.
Definition text_state : State :=
  after (STFS_LoadPackage text_image) initial_state.

Definition thumb_image : list byte :=
  poke 0x1712 [x00; x00; x00; x04; xff; xff; xff; xff; x89; x50; x4e; x47] blank_image.
Definition thumb_state : State :=
  after (STFS_LoadPackage thumb_image) initial_state.
(** * Properties *)

(** ** Arithmetic of the bit operators *)

Section JSArith.

Lemma ToInt32_small z : -2147483648 <= z < 2147483648 -> JS.ToInt32 z = z.
Proof.
  intros H. unfold JS.ToInt32.
  change (2 ^ 31) with 2147483648. change (2 ^ 32) with 4294967296.
  rewrite Z.mod_small by lia. lia.
Qed.

Lemma ToInt32_range z : -2147483648 <= JS.ToInt32 z < 2147483648.
Proof.
  unfold JS.ToInt32.
  change (2 ^ 31) with 2147483648. change (2 ^ 32) with 4294967296.
  pose proof (Z.mod_pos_bound (z + 2147483648) 4294967296). lia.
Qed.

(** Shifting by the table-size shift (0 or 1) multiplies, as long as the
    result fits 32 bits. *)
Lemma shl_small x s : 0 <= s <= 1 -> 0 <= x < 2 ^ 30 -> JS.shl x s = x * 2 ^ s.
Proof.
  intros Hs Hx. change (2 ^ 30) with 1073741824 in Hx. unfold JS.shl.
  rewrite (ToInt32_small x) by lia.
  assert (s = 0 \/ s = 1) as [-> | ->] by lia.
  - change (Z.land 0 31) with 0. rewrite Z.shiftl_0_r.
    rewrite ToInt32_small by lia. lia.
  - change (Z.land 1 31) with 1. rewrite Z.shiftl_mul_pow2 by lia.
    apply ToInt32_small. lia.
Qed.

End JSArith.

(** ** Address translation *)

Section AddressTranslation.

Lemma BlockToOffset_value st b :
  0 <= STFS_TableSizeShift st <= 1 -> 0 <= b <= 0xFFFFFF ->
  STFS_BlockToOffset b st
  = (Ok (0xC000 + (b + skipped (STFS_TableSizeShift st) b) * 0x1000), st).
Proof.
  intros Hs Hb. unfold STFS_BlockToOffset, bind, gets, ret, skipped.
  f_equal. f_equal.
  assert (Hq1 : 0 <= b / 0xAA < 98690).
  { split; [apply Z.div_pos; lia | apply Z.div_lt_upper_bound; lia]. }
  assert (Hq2 : 0 <= b / 0x70E4 < 581).
  { split; [apply Z.div_pos; lia | apply Z.div_lt_upper_bound; lia]. }
  rewrite !shl_small by (change (2 ^ 30) with 1073741824; lia).
  destruct (Z.geb_spec b 0xAA), (Z.leb_spec 0xAA b); try lia;
  destruct (Z.geb_spec b 0x70E4), (Z.leb_spec 0x70E4 b); lia.
Qed.

Lemma skipped_mono s a b : 0 <= s -> 0 <= a <= b -> skipped s a <= skipped s b.
Proof.
  intros Hs Hab. unfold skipped.
  assert (0 < 2 ^ s) by (apply Z.pow_pos_nonneg; lia).
  assert (a / 0xAA <= b / 0xAA) by (apply Z.div_le_mono; lia).
  assert (a / 0x70E4 <= b / 0x70E4) by (apply Z.div_le_mono; lia).
  assert (0 <= a / 0xAA) by (apply Z.div_pos; lia).
  assert (0 <= a / 0x70E4) by (apply Z.div_pos; lia).
  destruct (Z.leb_spec 0xAA a), (Z.leb_spec 0xAA b); try lia;
  destruct (Z.leb_spec 0x70E4 a), (Z.leb_spec 0x70E4 b); try lia; nia.
Qed.

End AddressTranslation.

(** C8: [STFS_BlockToOffset] is strictly increasing in the block index over
    the 24-bit block range, for either value (0 or 1) of
    [STFS_TableSizeShift]: for [a < b] the offset of [a] is below that of
    [b]; the call itself returns and leaves the state as it was. *)
Theorem BlockToOffset_strictly_increasing (st : State) (a b : Z) :
  STFS_TableSizeShift st = 0 \/ STFS_TableSizeShift st = 1 ->
  0 <= a -> a < b -> b <= 0xFFFFFF ->
  exists oa ob,
    STFS_BlockToOffset a st = (Ok oa, st) /\
    STFS_BlockToOffset b st = (Ok ob, st) /\
    oa < ob.
Proof.
  intros Hs Ha Hab Hb.
  assert (Hs' : 0 <= STFS_TableSizeShift st <= 1) by lia.
  eexists _, _. split; [| split].
  - apply BlockToOffset_value; lia.
  - apply BlockToOffset_value; lia.
  - pose proof (skipped_mono (STFS_TableSizeShift st) a b). lia.
Qed.

Lemma BlockToOffset_strictly_increasing_witness :
  exists oa ob,
    STFS_BlockToOffset 0xA9 (set_TableSizeShift 1 initial_state)
      = (Ok oa, set_TableSizeShift 1 initial_state) /\
    STFS_BlockToOffset 0xAA (set_TableSizeShift 1 initial_state)
      = (Ok ob, set_TableSizeShift 1 initial_state) /\
    oa < ob.
Proof.
  apply (BlockToOffset_strictly_increasing (set_TableSizeShift 1 initial_state) 0xA9 0xAA).
  - right. reflexivity.
  - lia.
  - lia.
  - lia.
Defined.

(** ** Running the monad *)

Section Running.

Context {A B : Type}.

Lemma bind_Ok (m : M A) (k : A -> M B) st a st' :
  m st = (Ok a, st') -> bind m k st = k a st'.
Proof. intros H. unfold bind. rewrite H. reflexivity. Qed.

Lemma bind_Throw (m : M A) (k : A -> M B) st e st' :
  m st = (Throw e, st') -> bind m k st = (Throw e, st').
Proof. intros H. unfold bind. rewrite H. reflexivity. Qed.

Lemma bind_OutOfFuel (m : M A) (k : A -> M B) st st' :
  m st = (OutOfFuel, st') -> bind m k st = (OutOfFuel, st').
Proof. intros H. unfold bind. rewrite H. reflexivity. Qed.

End Running.

(** ** Reads on a readable state return the bytes and change nothing *)

Section Reads.

Variable buf : list byte.
Variable st : State.
Hypothesis Hst : readable buf st.

Lemma run_require_dirty : require_dirty st = (Ok tt, st).
Proof. destruct Hst as [Hd _]. unfold require_dirty, bind, gets. rewrite Hd. reflexivity. Qed.

Lemma run_view_read offset : view_read offset st = (Ok (view_get buf offset), st).
Proof. destruct Hst as [_ Hb]. unfold view_read, bind, gets. rewrite Hb. reflexivity. Qed.

Lemma run_Read8 offset : STFS_Read8 offset st = (Ok (view_get buf offset), st).
Proof.
  unfold STFS_Read8. rewrite (bind_Ok _ _ _ _ _ run_require_dirty).
  apply run_view_read.
Qed.

Lemma run_Read16 offset : STFS_Read16 offset st = (Ok (u16 buf offset), st).
Proof.
  unfold STFS_Read16. rewrite (bind_Ok _ _ _ _ _ run_require_dirty).
  rewrite (bind_Ok _ _ _ _ _ (run_Read8 offset)).
  rewrite (bind_Ok _ _ _ _ _ (run_Read8 (offset + 1))).
  unfold ret, u16. reflexivity.
Qed.

Lemma run_Read32 offset : STFS_Read32 offset st = (Ok (u32 buf offset), st).
Proof.
  unfold STFS_Read32. rewrite (bind_Ok _ _ _ _ _ run_require_dirty).
  rewrite (bind_Ok _ _ _ _ _ (run_Read16 offset)).
  rewrite (bind_Ok _ _ _ _ _ (run_Read16 (offset + 2))).
  unfold ret, u32. reflexivity.
Qed.

Lemma run_Read24 offset : STFS_Read24 offset st = (Ok (u24 buf offset), st).
Proof.
  unfold STFS_Read24. rewrite (bind_Ok _ _ _ _ _ run_require_dirty).
  rewrite (bind_Ok _ _ _ _ _ (run_Read32 (offset - 1))).
  unfold ret, u24. reflexivity.
Qed.

End Reads.

Section AddressTranslationUnguarded.

Lemma BlockToHashOffset_value0 st b :
  STFS_TableSizeShift st = 0 -> 0 <= b <= 0xFFFFFF ->
  STFS_BlockToHashOffset b st
  = (Ok (0xB000 + hash_table_index0 b * 0x1000 + b mod 0xAA * 0x18), st).
Proof.
  intros Hs Hb. unfold STFS_BlockToHashOffset, bind, gets, ret, hash_table_index0.
  rewrite Hs. f_equal. f_equal.
  assert (Hq2 : 0 <= b / 0x70E4 < 581).
  { split; [apply Z.div_pos; lia | apply Z.div_lt_upper_bound; lia]. }
  rewrite !shl_small by (change (2 ^ 30) with 1073741824; lia).
  rewrite Z.rem_mod_nonneg by lia.
  change (0 =? 1) with false. change (0 =? 0) with true. cbv iota.
  destruct (Z.geb_spec b 0xAA), (Z.leb_spec 0xAA b); try lia;
  destruct (Z.geb_spec b 0x70E4), (Z.leb_spec 0x70E4 b); lia.
Qed.

End AddressTranslationUnguarded.

(** C7, as the code has it: neither [STFS_BlockToOffset] nor
    [STFS_BlockToHashOffset] tests whether a package is loaded.  On a
    library with nothing loaded both return an offset for every block index
    and leave the state as it was; no error is raised.  While
    [STFS_TableSizeShift] still has its unresolved value 0, the offsets
    returned for a 24-bit block index are those of the layout with one
    hash-table block per boundary. *)
Theorem address_translation_without_package (st : State) (b : Z) :
  STFS_PackageLoaded st = false ->
  (exists o h,
     STFS_BlockToOffset b st = (Ok o, st) /\
     STFS_BlockToHashOffset b st = (Ok h, st)) /\
  (STFS_TableSizeShift st = 0 -> 0 <= b <= 0xFFFFFF ->
     STFS_BlockToOffset b st = (Ok (0xC000 + (b + skipped 0 b) * 0x1000), st) /\
     STFS_BlockToHashOffset b st
     = (Ok (0xB000 + hash_table_index0 b * 0x1000 + b mod 0xAA * 0x18), st)).
Proof.
  intros _. split.
  - eexists _, _. split; reflexivity.
  - intros Hs Hb. split.
    + rewrite BlockToOffset_value by lia. rewrite Hs. reflexivity.
    + apply BlockToHashOffset_value0; assumption.
Qed.

Lemma address_translation_without_package_witness :
  STFS_BlockToOffset 0xAA initial_state = (Ok 0x0B8000, initial_state) /\
  STFS_BlockToHashOffset 0xAA initial_state = (Ok 0x0B7000, initial_state).
Proof.
  pose proof (address_translation_without_package initial_state 0xAA eq_refl) as [_ H].
  apply H.
  - reflexivity.
  - lia.
Defined.

(** C7, as the claim states it, fails: on the library as first evaluated,
    with nothing loaded, [STFS_BlockToOffset 0] returns [0xC000] and
    [STFS_BlockToHashOffset 0] returns [0xB000]; neither raises an error. *)
Lemma address_translation_invalid_state_counterexample :
  ~ (exists e,
       result (STFS_BlockToOffset 0) initial_state = Throw e \/
       result (STFS_BlockToHashOffset 0) initial_state = Throw e).
Proof.
  intros [e [H | H]]; vm_compute in H; discriminate H.
Qed.

(** ** The chain walk *)

Section ChainWalk.

(** The walk starts with one block and appends at most one per iteration. *)
Lemma blocks_loop_length n : forall blocks st out st',
  blocks_loop n blocks st = (Ok out, st') ->
  (length out <= length blocks + n)%nat.
Proof.
  induction n as [| n IH]; intros blocks st out st' H.
  - inversion H; subst. lia.
  - cbn [blocks_loop] in H. unfold bind at 1 in H.
    destruct (STFS_BlockToHashOffset (List.last blocks 0) st) as [[h | e |] st1];
      try discriminate H.
    unfold bind at 1 in H.
    destruct (STFS_Read24 (h + 21) st1) as [[nb | e |] st2]; try discriminate H.
    destruct ((nb =? List.last blocks 0) || (nb =? 16777215)).
    + inversion H; subst. lia.
    + apply IH in H. rewrite length_app in H. simpl in H. lia.
Qed.

(** What does hold of the length: at most [blockCount + 1] blocks. *)
Lemma GetBlocksFromBlock_length blockNum blockCount st out st' :
  STFS_GetBlocksFromBlock blockNum blockCount st = (Ok out, st') ->
  Z.of_nat (length out) <= Z.max blockCount 0 + 1.
Proof.
  intros H. apply blocks_loop_length in H. simpl in H. lia.
Qed.

Lemma BlockToOffset_runs st b :
  exists o, STFS_BlockToOffset b st = (Ok o, st).
Proof. eexists. reflexivity. Qed.

(** The chain-record offset is computed without a test or a change of
    state. *)
Lemma BlockToHashOffset_runs st b :
  exists h, STFS_BlockToHashOffset b st = (Ok h, st).
Proof. eexists. reflexivity. Qed.

(** On a readable state the walk returns, and leaves the state as it was. *)
Lemma blocks_loop_readable buf st n :
  readable buf st ->
  forall blocks, exists out, blocks_loop n blocks st = (Ok out, st).
Proof.
  intros Hst. induction n as [| n IH]; intros blocks.
  - exists blocks. reflexivity.
  - cbn [blocks_loop].
    destruct (BlockToHashOffset_runs st (List.last blocks 0)) as [h Hh].
    rewrite (bind_Ok _ _ _ _ _ Hh).
    rewrite (bind_Ok _ _ _ _ _ (run_Read24 buf st Hst (h + 0x15))).
    destruct ((u24 buf (h + 0x15) =? List.last blocks 0)
              || (u24 buf (h + 0x15) =? 0xFFFFFF)).
    + exists blocks. reflexivity.
    + apply IH.
Qed.

Lemma GetBlocksFromBlock_readable buf st blockNum blockCount :
  readable buf st ->
  exists out, STFS_GetBlocksFromBlock blockNum blockCount st = (Ok out, st).
Proof. intros Hst. apply (blocks_loop_readable buf st _ Hst). Qed.

End ChainWalk.

(** C1 fails on the code: the loop of [STFS_GetBlocksFromBlock] starts
    from the array holding the start block and then appends up to
    [blockCount] more.  On a loaded container whose records chain block 0 to
    1 and 1 to 2, the walk from block 0 with count 2 returns three blocks. *)
Theorem GetBlocksFromBlock_exceeds_count :
  STFS_PackageLoaded chain_state = true /\
  result (STFS_GetBlocksFromBlock 0 2) chain_state = Ok [0; 1; 2] /\
  ~ (exists out, result (STFS_GetBlocksFromBlock 0 2) chain_state = Ok out /\
                 Z.of_nat (length out) <= 2).
Proof.
  assert (H : result (STFS_GetBlocksFromBlock 0 2) chain_state = Ok [0; 1; 2])
    by (vm_compute; reflexivity).
  split; [vm_compute; reflexivity | split; [exact H |]].
  intros [out [Hout Hlen]]. rewrite H in Hout. inversion Hout; subst.
  simpl in Hlen. lia.
Qed.

(** C2 fails on the code: with count 1 the loop body still runs once, reads
    the chain record of the start block and appends the block it names.  On
    the same container the walk from block 0 with count 1 returns blocks 0
    and 1, not block 0 alone. *)
Theorem GetBlocksFromBlock_count_one_reads_record :
  STFS_PackageLoaded chain_state = true /\
  result (STFS_Read24 (0xB000 + 0x15)) chain_state = Ok 1 /\
  result (STFS_GetBlocksFromBlock 0 1) chain_state = Ok [0; 1] /\
  result (STFS_GetBlocksFromBlock 0 1) chain_state <> Ok [0].
Proof.
  assert (H : result (STFS_GetBlocksFromBlock 0 1) chain_state = Ok [0; 1])
    by (vm_compute; reflexivity).
  split; [vm_compute; reflexivity |].
  split; [vm_compute; reflexivity |].
  split; [exact H |].
  rewrite H. discriminate.
Qed.

(** ** Big-endian reads as arithmetic *)

Section BigEndian.

Lemma land_mul_pow2_low k l n : 0 <= n -> 0 <= l < 2 ^ n -> Z.land (k * 2 ^ n) l = 0.
Proof.
  intros Hn Hl. apply Z.bits_inj'. intros m Hm.
  rewrite Z.land_spec, Z.bits_0.
  destruct (Z.lt_ge_cases m n) as [Hlt | Hge].
  - rewrite Z.mul_pow2_bits_low by lia. reflexivity.
  - rewrite <- (Z.mod_small l (2 ^ n)) by lia.
    rewrite Z.mod_pow2_bits_high by lia. apply Bool.andb_false_r.
Qed.

Lemma lor_mul_pow2_low k l n :
  0 <= n -> 0 <= l < 2 ^ n -> Z.lor (k * 2 ^ n) l = k * 2 ^ n + l.
Proof.
  intros Hn Hl. pose proof (Z.add_lor_land (k * 2 ^ n) l) as H.
  rewrite land_mul_pow2_low in H by assumption. lia.
Qed.

Lemma byte_val_range b : 0 <= byte_val b <= 255.
Proof. unfold byte_val. pose proof (Byte.to_N_bounded b). lia. Qed.

Lemma byte_val_inj b c : byte_val b = byte_val c -> b = c.
Proof.
  unfold byte_val. intros H. apply N2Z.inj in H.
  pose proof (Byte.of_to_N b) as Hb. rewrite H, Byte.of_to_N in Hb.
  congruence.
Qed.

(** [((hi << 8) | lo) & 0xffff] on two bytes. *)
Lemma word16_value hi lo :
  0 <= hi <= 255 -> 0 <= lo <= 255 ->
  JS.and (JS.or (JS.shl (JS.ToInt32 hi) 8) (JS.ToInt32 lo)) 0xffff = hi * 256 + lo.
Proof.
  intros Hh Hl. unfold JS.and, JS.or, JS.shl.
  change (Z.land 8 31) with 8.
  rewrite !(ToInt32_small hi), !(ToInt32_small lo) by lia.
  rewrite Z.shiftl_mul_pow2 by lia. change (2 ^ 8) with 256.
  rewrite !(ToInt32_small (hi * 256)) by lia.
  change 256 with (2 ^ 8) at 1. rewrite lor_mul_pow2_low by (change (2 ^ 8) with 256; lia).
  change (2 ^ 8) with 256.
  rewrite (ToInt32_small (hi * 256 + lo)) by lia.
  rewrite (ToInt32_small 65535) by lia.
  change 65535 with (Z.ones 16). rewrite Z.land_ones by lia.
  change (2 ^ 16) with 65536. apply Z.mod_small. lia.
Qed.

(** [((hi << 16) | lo) & 0xffffffff] on two 16-bit words: the 32-bit word,
    read as a signed number. *)
Lemma word32_value hi lo :
  0 <= hi < 65536 -> 0 <= lo < 65536 ->
  JS.and (JS.or (JS.shl hi 16) lo) 0xffffffff = JS.ToInt32 (hi * 65536 + lo).
Proof.
  intros Hh Hl. unfold JS.and, JS.or, JS.shl.
  change (Z.land 16 31) with 16. change (JS.ToInt32 4294967295) with (-1).
  rewrite Z.land_m1_r.
  rewrite (ToInt32_small hi), (ToInt32_small lo) by lia.
  rewrite Z.shiftl_mul_pow2 by lia. change (2 ^ 16) with 65536.
  destruct (Z.lt_ge_cases hi 32768) as [Hlt | Hge].
  - rewrite !(ToInt32_small (hi * 65536)) by lia.
    change 65536 with (2 ^ 16) at 1.
    rewrite lor_mul_pow2_low by (change (2 ^ 16) with 65536; lia).
    reflexivity.
  - assert (E : JS.ToInt32 (hi * 65536) = (hi - 65536) * 2 ^ 16).
    { unfold JS.ToInt32. change (2 ^ 31) with 2147483648.
      change (2 ^ 32) with 4294967296. change (2 ^ 16) with 65536.
      replace (hi * 65536 + 2147483648)
        with (hi * 65536 - 2147483648 + 1 * 4294967296) by lia.
      rewrite Z.mod_add by lia. rewrite Z.mod_small by lia. lia. }
    assert (E' : JS.ToInt32 (hi * 65536 + lo) = (hi - 65536) * 2 ^ 16 + lo).
    { unfold JS.ToInt32. change (2 ^ 31) with 2147483648.
      change (2 ^ 32) with 4294967296. change (2 ^ 16) with 65536.
      replace (hi * 65536 + lo + 2147483648)
        with (hi * 65536 + lo - 2147483648 + 1 * 4294967296) by lia.
      rewrite Z.mod_add by lia. rewrite Z.mod_small by lia. lia. }
    rewrite E'. rewrite E.
    rewrite (ToInt32_small ((hi - 65536) * 2 ^ 16))
      by (change (2 ^ 16) with 65536; lia).
    rewrite lor_mul_pow2_low by (change (2 ^ 16) with 65536; lia).
    change (2 ^ 16) with 65536. apply ToInt32_small. lia.
Qed.

(** [STFS_Read32(0)] on a buffer of at least four bytes. *)
Lemma u32_head b0 b1 b2 b3 rest :
  u32 (b0 :: b1 :: b2 :: b3 :: rest) 0
  = JS.ToInt32 (byte_val b0 * 16777216 + byte_val b1 * 65536
                + byte_val b2 * 256 + byte_val b3).
Proof.
  pose proof (byte_val_range b0). pose proof (byte_val_range b1).
  pose proof (byte_val_range b2). pose proof (byte_val_range b3).
  assert (E0 : view_get (b0 :: b1 :: b2 :: b3 :: rest) 0 = JS.num (byte_val b0))
    by reflexivity.
  assert (E1 : view_get (b0 :: b1 :: b2 :: b3 :: rest) (0 + 1) = JS.num (byte_val b1))
    by reflexivity.
  assert (E2 : view_get (b0 :: b1 :: b2 :: b3 :: rest) (0 + 2) = JS.num (byte_val b2))
    by reflexivity.
  assert (E3 : view_get (b0 :: b1 :: b2 :: b3 :: rest) (0 + 2 + 1) = JS.num (byte_val b3))
    by reflexivity.
  unfold u32, u16. rewrite E0, E1, E2, E3. cbn [JS.int32_of_elem].
  rewrite !word16_value by lia.
  rewrite word32_value by lia. f_equal. lia.
Qed.

End BigEndian.

(** ** What the calls leave untouched *)

Section Preservation.

Context (P : State -> Prop).

Lemma preserves_ret {A} (a : A) : preserves P (ret a).
Proof. intros st H. exact H. Qed.

Lemma preserves_throw {A} e : preserves P (@throw A e).
Proof. intros st H. exact H. Qed.

Lemma preserves_diverge {A} : preserves P (@diverge A).
Proof. intros st H. exact H. Qed.

Lemma preserves_gets {A} (f : State -> A) : preserves P (gets f).
Proof. intros st H. exact H. Qed.

Lemma preserves_modify f : (forall st, P st -> P (f st)) -> preserves P (modify f).
Proof. intros Hf st H. apply Hf, H. Qed.

Lemma preserves_bind {A B} (m : M A) (k : A -> M B) :
  preserves P m -> (forall a, preserves P (k a)) -> preserves P (bind m k).
Proof.
  intros Hm Hk st H. unfold bind. specialize (Hm st H).
  destruct (m st) as [[a | e |] st1]; simpl in *.
  - apply Hk, Hm.
  - exact Hm.
  - exact Hm.
Qed.

End Preservation.

Create HintDb preserve.
#[local] Hint Resolve preserves_ret preserves_throw preserves_diverge
  preserves_gets : preserve.

(** One step of a proof that a monadic term keeps [P]. *)
Ltac preserve_step :=
  lazymatch goal with
  | |- preserves _ (ret _) => apply preserves_ret
  | |- preserves _ (throw _) => apply preserves_throw
  | |- preserves _ diverge => apply preserves_diverge
  | |- preserves _ (gets _) => apply preserves_gets
  | |- preserves _ (bind _ _) => apply preserves_bind; [| intros ?]
  | |- preserves _ (modify _) =>
      apply preserves_modify; intros ? ?;
      first [ apply frame_FileBuffer | apply frame_TableSizeShift
            | apply frame_PackageLoaded | apply frame_Dirty_true ];
      assumption
  | |- preserves _ (table_push _) => apply frame_push
  | |- preserves _ (if ?c then _ else _) => destruct c
  | |- preserves _ (match ?x with _ => _ end) => destruct x
  | |- preserves _ _ => solve [ eauto with preserve ]
  end.
Ltac preserve := repeat preserve_step.

Section FramedCalls.

Context (P : State -> Prop) `{HP : !Frame P}.

Lemma preserves_require_dirty : preserves P require_dirty.
Proof. unfold require_dirty. preserve. Qed.
Lemma preserves_require_loaded : preserves P require_loaded.
Proof. unfold require_loaded. preserve. Qed.
Lemma preserves_view_read o : preserves P (view_read o).
Proof. unfold view_read. preserve. Qed.
Hint Resolve preserves_require_dirty preserves_require_loaded preserves_view_read : preserve.

Lemma preserves_Read8 o : preserves P (STFS_Read8 o).
Proof. unfold STFS_Read8. preserve. Qed.
Hint Resolve preserves_Read8 : preserve.
Lemma preserves_Read16 o : preserves P (STFS_Read16 o).
Proof. unfold STFS_Read16. preserve. Qed.
Hint Resolve preserves_Read16 : preserve.
Lemma preserves_Read32 o : preserves P (STFS_Read32 o).
Proof. unfold STFS_Read32. preserve. Qed.
Hint Resolve preserves_Read32 : preserve.
Lemma preserves_Read24 o : preserves P (STFS_Read24 o).
Proof. unfold STFS_Read24. preserve. Qed.
Hint Resolve preserves_Read24 : preserve.

Lemma preserves_ascii_loop n : forall i str, preserves P (ascii_loop n i str).
Proof. induction n; intros; cbn [ascii_loop]; preserve. Qed.
Hint Resolve preserves_ascii_loop : preserve.
Lemma preserves_ReadASCIIString o l : preserves P (STFS_ReadASCIIString o l).
Proof. unfold STFS_ReadASCIIString. preserve. Qed.
Hint Resolve preserves_ReadASCIIString : preserve.

Lemma preserves_BlockToOffset b : preserves P (STFS_BlockToOffset b).
Proof. unfold STFS_BlockToOffset. preserve. Qed.
Lemma preserves_BlockToHashOffset b : preserves P (STFS_BlockToHashOffset b).
Proof. unfold STFS_BlockToHashOffset. preserve. Qed.
Hint Resolve preserves_BlockToOffset preserves_BlockToHashOffset : preserve.

Lemma preserves_blocks_loop n : forall blocks, preserves P (blocks_loop n blocks).
Proof. induction n; intros; cbn [blocks_loop]; preserve. Qed.
Hint Resolve preserves_blocks_loop : preserve.
Lemma preserves_GetBlocksFromBlock b n : preserves P (STFS_GetBlocksFromBlock b n).
Proof. unfold STFS_GetBlocksFromBlock. preserve. Qed.
Hint Resolve preserves_GetBlocksFromBlock : preserve.

Lemma preserves_scan_records fuel : forall o, preserves P (scan_records fuel o).
Proof. induction fuel; intros; cbn [scan_records]; preserve. Qed.
Hint Resolve preserves_scan_records : preserve.
Lemma preserves_scan_blocks fuel bs : preserves P (scan_blocks fuel bs).
Proof. induction bs; cbn [scan_blocks]; preserve. Qed.
Hint Resolve preserves_scan_blocks : preserve.

Lemma preserves_GetFile name : preserves P (STFS_GetFile name).
Proof. unfold STFS_GetFile. preserve. Qed.
Lemma preserves_path_loop fuel : forall f p, preserves P (path_loop fuel f p).
Proof. induction fuel; intros; cbn [path_loop]; preserve. Qed.
Hint Resolve preserves_path_loop : preserve.
Lemma preserves_GetFilePath fuel f : preserves P (STFS_GetFilePath fuel f).
Proof. unfold STFS_GetFilePath. preserve. Qed.

Lemma preserves_new_view o l : preserves P (new_view o l).
Proof. unfold new_view. preserve. Qed.
Hint Resolve preserves_new_view : preserve.
Lemma preserves_read_loop bs : forall r acc, preserves P (read_loop bs r acc).
Proof. induction bs; intros; cbn [read_loop]; preserve. Qed.
Hint Resolve preserves_read_loop : preserve.
Lemma preserves_ReadFile f : preserves P (STFS_ReadFile f).
Proof. unfold STFS_ReadFile. preserve. Qed.

Lemma preserves_view_write o v : preserves P (view_write o v).
Proof. unfold view_write. preserve. Qed.
Hint Resolve preserves_view_write : preserve.
Lemma preserves_Write8 o i : preserves P (STFS_Write8 o i).
Proof. unfold STFS_Write8. preserve. Qed.
Hint Resolve preserves_Write8 : preserve.
Lemma preserves_Write16 o i : preserves P (STFS_Write16 o i).
Proof. unfold STFS_Write16. preserve. Qed.
Hint Resolve preserves_Write16 : preserve.
Lemma preserves_Write24 o i : preserves P (STFS_Write24 o i).
Proof. unfold STFS_Write24. preserve. Qed.
Lemma preserves_Write32 o i : preserves P (STFS_Write32 o i).
Proof. unfold STFS_Write32. preserve. Qed.
Hint Resolve preserves_Write24 preserves_Write32 : preserve.
Lemma preserves_blank_loop n : forall i, preserves P (blank_loop n i).
Proof. induction n; intros; cbn [blank_loop]; preserve. Qed.
Hint Resolve preserves_blank_loop : preserve.

Lemma preserves_LoadPackage abuf : preserves P (STFS_LoadPackage abuf).
Proof. unfold STFS_LoadPackage. preserve. Qed.
Hint Resolve preserves_LoadPackage preserves_GetFile preserves_GetFilePath
  preserves_ReadFile : preserve.

Lemma preserves_FakeSignLIVE : preserves P STFS_FakeSignLIVE.
Proof.
  unfold STFS_FakeSignLIVE.
  apply preserves_bind; [apply preserves_require_loaded | intros _].
  apply preserves_bind; [apply preserves_Write32 | intros _].
  apply preserves_blank_loop.
Qed.
Lemma preserves_FakeSignPIRS : preserves P STFS_FakeSignPIRS.
Proof.
  unfold STFS_FakeSignPIRS.
  apply preserves_bind; [apply preserves_require_loaded | intros _].
  apply preserves_bind; [apply preserves_Write32 | intros _].
  apply preserves_blank_loop.
Qed.

(** Every call other than [STFS_Reset] and [STFS_InitFS] keeps [P]. *)
Lemma preserves_run_call c :
  ~ is_Reset c -> ~ is_InitFS c -> preserves P (run_call c).
Proof.
  intros HR HI.
  destruct c; cbn [run_call];
    try first [ exfalso; apply HR; exact I | exfalso; apply HI; exact I ];
    lazymatch goal with
    | |- preserves _ STFS_FakeSignLIVE => apply preserves_FakeSignLIVE
    | |- preserves _ STFS_FakeSignPIRS => apply preserves_FakeSignPIRS
    | |- preserves _ (if _ then STFS_Write8 _ _ else _) =>
        repeat match goal with
               | |- preserves _ (if ?c then _ else _) => destruct c
               end;
        [ apply preserves_Write8 | apply preserves_Write16
        | apply preserves_Write24 | apply preserves_Write32 ]
    | |- _ =>
        unfold ignore, STFS_GetFileTable, STFS_GetFileType, STFS_GetContentType,
          STFS_GetTitleID, STFS_SetContentType, STFS_SetTitleID;
        preserve
    end.
Qed.

End FramedCalls.

(** ** Loading *)

Section Loading.

Lemma ToInt32_eq_nonneg s m :
  0 <= s < 4294967296 -> 0 <= m -> JS.ToInt32 s = m -> s = m.
Proof.
  intros Hs Hm. unfold JS.ToInt32.
  change (2 ^ 31) with 2147483648. change (2 ^ 32) with 4294967296.
  destruct (Z.lt_ge_cases s 2147483648) as [Hlt | Hge].
  - rewrite Z.mod_small by lia. lia.
  - replace (s + 2147483648) with (s - 2147483648 + 1 * 4294967296) by lia.
    rewrite Z.mod_add by lia. rewrite Z.mod_small by lia. lia.
Qed.

(** The word [STFS_Read32(0)] returns equals a tag, all of which are below
    [2^31], exactly when the first four bytes spell it. *)
Lemma u32_head_eq b0 b1 b2 b3 rest c0 c1 c2 c3 :
  byte_val c0 < 128 ->
  u32 (b0 :: b1 :: b2 :: b3 :: rest) 0
  = byte_val c0 * 16777216 + byte_val c1 * 65536 + byte_val c2 * 256 + byte_val c3 ->
  [b0; b1; b2; b3] = [c0; c1; c2; c3].
Proof.
  intros Hc H. rewrite u32_head in H.
  pose proof (byte_val_range b0). pose proof (byte_val_range b1).
  pose proof (byte_val_range b2). pose proof (byte_val_range b3).
  pose proof (byte_val_range c0). pose proof (byte_val_range c1).
  pose proof (byte_val_range c2). pose proof (byte_val_range c3).
  apply ToInt32_eq_nonneg in H; [| lia | lia].
  assert (byte_val b0 = byte_val c0) by lia.
  assert (byte_val b1 = byte_val c1) by lia.
  assert (byte_val b2 = byte_val c2) by lia.
  assert (byte_val b3 = byte_val c3) by lia.
  repeat f_equal; apply byte_val_inj; assumption.
Qed.

Lemma long_buffer_head (abuf : list byte) :
  0x971A < Z.of_nat (length abuf) ->
  exists b0 b1 b2 b3 rest, abuf = b0 :: b1 :: b2 :: b3 :: rest.
Proof.
  intros H.
  destruct abuf as [| b0 [| b1 [| b2 [| b3 rest]]]]; simpl in H; try lia.
  eauto 6.
Qed.

(** The test of the [switch] on a buffer of at least four bytes. *)
Lemma magic_test_true (abuf : list byte) :
  recognized abuf ->
  (u32 abuf 0 =? STFS_CON) || (u32 abuf 0 =? STFS_LIVE) || (u32 abuf 0 =? STFS_PIRS)
  = true.
Proof.
  intros [H | [H | H]];
    destruct abuf as [| b0 [| b1 [| b2 [| b3 rest]]]]; try discriminate H;
    cbn [take] in H; inversion H; subst; rewrite u32_head; reflexivity.
Qed.

Lemma magic_test_false (abuf : list byte) :
  0x971A < Z.of_nat (length abuf) -> ~ recognized abuf ->
  (u32 abuf 0 =? STFS_CON) || (u32 abuf 0 =? STFS_LIVE) || (u32 abuf 0 =? STFS_PIRS)
  = false.
Proof.
  intros Hlen Hn. destruct (long_buffer_head abuf Hlen) as (b0 & b1 & b2 & b3 & rest & ->).
  apply not_true_is_false. intros Ht.
  apply Hn. unfold recognized. cbn [take].
  apply orb_prop in Ht. destruct Ht as [Ht | Ht]; [apply orb_prop in Ht; destruct Ht as [Ht | Ht] |];
    apply Z.eqb_eq in Ht.
  - left. apply (u32_head_eq _ _ _ _ rest x43 x4f x4e x20); [reflexivity | exact Ht].
  - right. left. apply (u32_head_eq _ _ _ _ rest x4c x49 x56 x45); [reflexivity | exact Ht].
  - right. right. apply (u32_head_eq _ _ _ _ rest x50 x49 x52 x53); [reflexivity | exact Ht].
Qed.

Lemma stored_readable abuf st : readable abuf (stored abuf st).
Proof. split; reflexivity. Qed.

(** [STFS_LoadPackage] on an unloaded library, case by case. *)
Lemma LoadPackage_too_short st abuf :
  unloaded st -> Z.of_nat (length abuf) <= 0x971A ->
  STFS_LoadPackage abuf st = (Throw TooShort, st).
Proof.
  intros [Hd Hl] Hlen. unfold STFS_LoadPackage, bind, gets.
  rewrite Hd, Hl. destruct (Z.leb_spec (Z.of_nat (length abuf)) 0x971A); [reflexivity | lia].
Qed.

Lemma LoadPackage_past_length st abuf :
  unloaded st -> 0x971A < Z.of_nat (length abuf) ->
  STFS_LoadPackage abuf st
  = if (u32 abuf 0 =? STFS_CON) || (u32 abuf 0 =? STFS_LIVE) || (u32 abuf 0 =? STFS_PIRS)
    then (Ok true, set_PackageLoaded true (stored abuf st))
    else (Throw NotSTFS, stored abuf st).
Proof.
  intros [Hd Hl] Hlen. unfold STFS_LoadPackage.
  unfold bind at 1, gets at 1. rewrite Hd.
  unfold bind at 1, gets at 1. rewrite Hl.
  destruct (Z.leb_spec (Z.of_nat (length abuf)) 0x971A); [lia |].
  unfold bind at 1, modify at 1. unfold bind at 1, modify at 1.
  fold (stored abuf st).
  rewrite (bind_Ok _ _ _ _ _ (run_Read32 abuf (stored abuf st) (stored_readable abuf st) 0)).
  destruct ((u32 abuf 0 =? STFS_CON) || (u32 abuf 0 =? STFS_LIVE) || (u32 abuf 0 =? STFS_PIRS));
    reflexivity.
Qed.

Lemma LoadPackage_dirty st abuf :
  dirty st -> STFS_LoadPackage abuf st = (Throw DirtyState, st).
Proof.
  intros Hd. unfold STFS_LoadPackage, bind, gets. rewrite Hd. reflexivity.
Qed.

(** A load that succeeds sets the three globals it touches. *)
Lemma LoadPackage_loaded st abuf :
  unloaded st -> recognized abuf -> 0x971A < Z.of_nat (length abuf) ->
  STFS_LoadPackage abuf st = (Ok true, set_PackageLoaded true (stored abuf st)).
Proof.
  intros Hu Hr Hlen. rewrite LoadPackage_past_length by assumption.
  rewrite magic_test_true by assumption. reflexivity.
Qed.

(** The state of a fresh page after the load of a sample container. *)
Lemma fresh_load abuf :
  recognized abuf -> 0x971A < Z.of_nat (length abuf) ->
  after (STFS_LoadPackage abuf) initial_state
  = set_PackageLoaded true (stored abuf initial_state).
Proof.
  intros Hr Hlen. unfold after.
  rewrite (LoadPackage_loaded initial_state abuf); [reflexivity | | assumption..].
  split; reflexivity.
Qed.

End Loading.

(** C4, as the code has it: the length test is [byteLength <= 0x971A], so
    the threshold itself is refused.  On an unloaded library, a buffer that
    starts with a recognized tag loads when it is longer than [0x971A] bytes
    ([0x971B] at least), and when its length is [0x971A] or less the call
    throws the too-short error and leaves the state as it was. *)
Theorem LoadPackage_length_threshold (st : State) (abuf : list byte) :
  unloaded st -> recognized abuf ->
  (0x971A < Z.of_nat (length abuf) ->
     result (STFS_LoadPackage abuf) st = Ok true /\
     STFS_PackageLoaded (after (STFS_LoadPackage abuf) st) = true) /\
  (Z.of_nat (length abuf) <= 0x971A ->
     STFS_LoadPackage abuf st = (Throw TooShort, st)).
Proof.
  intros Hu Hr. split.
  - intros Hlen. unfold result, after.
    rewrite LoadPackage_past_length by assumption.
    rewrite magic_test_true by assumption. split; reflexivity.
  - intros Hlen. apply LoadPackage_too_short; assumption.
Qed.

Lemma LoadPackage_length_threshold_witness :
  result (STFS_LoadPackage above_threshold_image) initial_state = Ok true /\
  STFS_LoadPackage threshold_image initial_state = (Throw TooShort, initial_state).
Proof.
  assert (Hu : unloaded initial_state) by (split; reflexivity).
  split.
  - apply (LoadPackage_length_threshold initial_state above_threshold_image Hu).
    + left. reflexivity.
    + vm_compute. reflexivity.
  - apply (LoadPackage_length_threshold initial_state threshold_image Hu).
    + left. reflexivity.
    + vm_compute. discriminate.
Defined.

(** C4, as the claim states it, fails: a buffer of exactly [0x971A] bytes
    that starts with the CON tag does not load on a fresh library; the call
    throws. *)
Lemma LoadPackage_at_threshold_counterexample :
  Z.of_nat (length threshold_image) = 0x971A /\
  recognized threshold_image /\
  unloaded initial_state /\
  result (STFS_LoadPackage threshold_image) initial_state = Throw TooShort /\
  result (STFS_LoadPackage threshold_image) initial_state <> Ok true.
Proof.
  assert (H : result (STFS_LoadPackage threshold_image) initial_state = Throw TooShort)
    by (vm_compute; reflexivity).
  split; [vm_compute; reflexivity |].
  split; [left; reflexivity |].
  split; [split; reflexivity |].
  split; [exact H | rewrite H; discriminate].
Qed.

(** ** The three predicates are kept *)

Section Instances.

#[local] Instance Frame_dirty : Frame dirty.
Proof.
  split; try (intros; assumption).
  { intros st _. reflexivity. }
  intros row st H. unfold table_push, bind, gets.
  destruct (STFS_FileTable st); exact H.
Qed.

#[local] Instance Frame_table_is_false : Frame table_is_false.
Proof.
  split; try (intros; assumption).
  intros row st H. unfold table_push, bind, gets.
  rewrite H. exact H.
Qed.

#[local] Instance Frame_table_is_array : Frame table_is_array.
Proof.
  split; try (intros; assumption).
  intros row st [rows H]. unfold table_push, bind, gets.
  rewrite H. simpl. eexists. reflexivity.
Qed.

Lemma preserves_InitFS_tail (P : State -> Prop) `{HP : !Frame P} fuel :
  preserves P
    (bind (STFS_Read32 0x340) (fun entryID =>
       bind (if negb (JS.sar (JS.and (entryID + 0xFFF) 0xF000) 0xC =? 0xB)
             then modify (set_TableSizeShift 1) else ret tt) (fun _ =>
       bind (STFS_Read24 (0x379 + 0x4)) (fun start =>
       bind (STFS_Read16 (0x379 + 0x2)) (fun count =>
       bind (STFS_GetBlocksFromBlock start count) (fun tableBlocks =>
       scan_blocks fuel tableBlocks)))))).
Proof.
  preserve; eauto using preserves_Read32, preserves_Read24, preserves_Read16,
    preserves_GetBlocksFromBlock, preserves_scan_blocks.
Qed.

Lemma preserves_InitFS (P : State -> Prop) `{HP : !Frame P} fuel :
  (forall st, P st -> P (set_FileTable (TArray []) st)) ->
  preserves P (STFS_InitFS fuel).
Proof.
  intros Hclear. unfold STFS_InitFS.
  apply preserves_bind; [apply preserves_require_loaded; exact HP | intros _].
  apply preserves_bind; [apply preserves_modify; exact Hclear | intros _].
  apply preserves_InitFS_tail; exact HP.
Qed.

(** Only [STFS_Reset] clears the dirty flag. *)
Lemma dirty_run_call c : ~ is_Reset c -> preserves dirty (run_call c).
Proof.
  intros HR. destruct c;
    try solve [apply preserves_run_call; [apply _ | exact HR | intros []]].
  cbn [run_call]. apply preserves_InitFS; [apply _ |]. intros st H. exact H.
Qed.

Lemma dirty_run_calls cs : forall st,
  Forall (fun c => ~ is_Reset c) cs -> dirty st -> dirty (run_calls cs st).
Proof.
  induction cs as [| c cs IH]; intros st Hcs Hd; [exact Hd |].
  inversion Hcs; subst. cbn [run_calls]. apply IH; [assumption |].
  apply dirty_run_call; assumption.
Qed.

(** Only [STFS_InitFS] and no other call replaces a table that is [false]. *)
Lemma table_is_false_run_call c :
  ~ is_InitFS c -> preserves table_is_false (run_call c).
Proof.
  intros HI. destruct c;
    try solve [apply preserves_run_call; [apply _ | intros [] | exact HI]].
  intros st _. reflexivity.
Qed.

Lemma table_is_false_run_calls cs : forall st,
  Forall (fun c => ~ is_InitFS c) cs -> table_is_false st ->
  table_is_false (run_calls cs st).
Proof.
  induction cs as [| c cs IH]; intros st Hcs Hd; [exact Hd |].
  inversion Hcs; subst. cbn [run_calls]. apply IH; [assumption |].
  apply table_is_false_run_call; assumption.
Qed.

End Instances.

(** C9: on an unloaded library, [STFS_LoadPackage] with a buffer longer
    than [0x971A] bytes whose first four bytes are none of the three tags
    throws the not-a-valid-archive error and does not leave the state as it
    was: the dirty flag is set and the loaded flag is still false.  From
    then on, after any calls other than [STFS_Reset], every
    [STFS_LoadPackage] throws the dirty-state error and changes nothing;
    [STFS_Reset] makes the library unloaded again. *)
Theorem failed_load_leaves_dirty (st : State) (abuf : list byte) :
  unloaded st ->
  0x971A < Z.of_nat (length abuf) ->
  ~ recognized abuf ->
  result (STFS_LoadPackage abuf) st = Throw NotSTFS /\
  STFS_Dirty (after (STFS_LoadPackage abuf) st) = true /\
  STFS_PackageLoaded (after (STFS_LoadPackage abuf) st) = false /\
  after (STFS_LoadPackage abuf) st <> st /\
  (forall cs abuf',
     Forall (fun c => ~ is_Reset c) cs ->
     STFS_LoadPackage abuf' (run_calls cs (after (STFS_LoadPackage abuf) st))
     = (Throw DirtyState, run_calls cs (after (STFS_LoadPackage abuf) st))) /\
  (forall cs,
     unloaded (after STFS_Reset (run_calls cs (after (STFS_LoadPackage abuf) st)))).
Proof.
  intros Hu Hlen Hn.
  assert (E : STFS_LoadPackage abuf st = (Throw NotSTFS, stored abuf st)).
  { rewrite LoadPackage_past_length by assumption.
    rewrite magic_test_false by assumption. reflexivity. }
  unfold result, after. rewrite E. cbn [fst snd].
  destruct Hu as [Hd Hl].
  split; [reflexivity |]. split; [reflexivity |]. split; [exact Hl |].
  split.
  { intros Heq. apply (f_equal STFS_Dirty) in Heq. cbn in Heq. congruence. }
  split.
  - intros cs abuf' Hcs. apply LoadPackage_dirty.
    apply dirty_run_calls; [exact Hcs | reflexivity].
  - intros cs. split; reflexivity.
Qed.

Lemma failed_load_leaves_dirty_witness :
  result (STFS_LoadPackage (replicate (Z.to_nat 0x971B) x00)) initial_state
    = Throw NotSTFS /\
  STFS_Dirty (after (STFS_LoadPackage (replicate (Z.to_nat 0x971B) x00)) initial_state)
    = true.
Proof.
  pose proof (failed_load_leaves_dirty initial_state (replicate (Z.to_nat 0x971B) x00))
    as H.
  destruct H as (H1 & H2 & _).
  - split; reflexivity.
  - vm_compute. reflexivity.
  - intros [H | [H | H]]; vm_compute in H; discriminate H.
  - split; assumption.
Defined.

Section TableAfterReset.

Lemma InitFS_not_loaded fuel st :
  STFS_PackageLoaded st = false -> STFS_InitFS fuel st = (Throw NoPackage, st).
Proof.
  intros H. unfold STFS_InitFS, require_loaded, bind, gets. rewrite H. reflexivity.
Qed.

Lemma InitFS_loaded_table fuel st :
  STFS_PackageLoaded st = true -> table_is_array (after (STFS_InitFS fuel) st).
Proof.
  intros H. unfold after, STFS_InitFS.
  unfold bind at 1, require_loaded, bind at 1, gets at 1. rewrite H.
  unfold ret at 1. unfold bind at 1, modify at 1.
  apply (preserves_InitFS_tail table_is_array (HP := Frame_table_is_array) fuel
           (set_FileTable (TArray []) st)).
  exists []. reflexivity.
Qed.

End TableAfterReset.

(** C10: after [STFS_Reset], [STFS_GetFileTable] returns the boolean
    [false], not an empty array, and goes on returning [false] after any
    calls other than [STFS_InitFS].  An [STFS_InitFS] made while no package
    is loaded throws and changes nothing; one made on a loaded package
    leaves an array in the table, whatever its outcome. *)
Theorem GetFileTable_false_after_Reset (st0 : State) :
  result STFS_GetFileTable (after STFS_Reset st0) = Ok TFalse /\
  (forall cs,
     Forall (fun c => ~ is_InitFS c) cs ->
     result STFS_GetFileTable (run_calls cs (after STFS_Reset st0)) = Ok TFalse) /\
  (forall cs fuel,
     Forall (fun c => ~ is_InitFS c) cs ->
     (STFS_PackageLoaded (run_calls cs (after STFS_Reset st0)) = false ->
        STFS_InitFS fuel (run_calls cs (after STFS_Reset st0))
        = (Throw NoPackage, run_calls cs (after STFS_Reset st0))) /\
     (STFS_PackageLoaded (run_calls cs (after STFS_Reset st0)) = true ->
        exists rows,
          result STFS_GetFileTable
            (after (STFS_InitFS fuel) (run_calls cs (after STFS_Reset st0)))
          = Ok (TArray rows))).
Proof.
  split; [reflexivity |]. split.
  - intros cs Hcs. unfold result, STFS_GetFileTable, gets. cbn [fst].
    f_equal. apply table_is_false_run_calls; [exact Hcs | reflexivity].
  - intros cs fuel Hcs. split.
    + apply InitFS_not_loaded.
    + intros Hl. destruct (InitFS_loaded_table fuel _ Hl) as [rows Hrows].
      exists rows. unfold result, STFS_GetFileTable, gets. cbn [fst].
      f_equal. exact Hrows.
Qed.

Lemma GetFileTable_false_after_Reset_witness :
  result STFS_GetFileTable
    (run_calls [CallLoadPackage chain_image; CallGetBlocksFromBlock 0 2]
       (after STFS_Reset chain_state)) = Ok TFalse /\
  exists rows,
    result STFS_GetFileTable
      (after (STFS_InitFS 1)
         (run_calls [CallLoadPackage chain_image] (after STFS_Reset chain_state)))
    = Ok (TArray rows).
Proof.
  pose proof (GetFileTable_false_after_Reset chain_state) as (_ & H2 & H3).
  split.
  - apply H2. repeat constructor; intros [].
  - apply (H3 [CallLoadPackage chain_image] 1%nat).
    + repeat constructor; intros [].
    + vm_compute. reflexivity.
Defined.

(** ** Path reconstruction *)

Section Paths.

Variable st : State.
Local Abbreviation t := (STFS_FileTable st).

Lemma parent_of_deterministic f g g' : parent_of t f g -> parent_of t f g' -> g = g'.
Proof. intros [_ H] [_ H']. congruence. Qed.

Lemma path_loop_root fuel f p :
  parentDirectory f = 0xffff -> path_loop (S fuel) f p st = (Ok p, st).
Proof.
  intros H. cbn [path_loop]. rewrite H. reflexivity.
Qed.

Lemma path_loop_step fuel f g p :
  parent_of t f g ->
  path_loop (S fuel) f p st
  = path_loop fuel g (fileName g ++ "/" ++ p)%string st.
Proof.
  intros [Hne Hg]. cbn [path_loop].
  destruct (Z.eqb_spec (parentDirectory f) 0xffff) as [E | _]; [contradiction |].
  cbn [negb]. unfold bind, gets. fold t. rewrite Hg. reflexivity.
Qed.

(** A chain that reaches the root in [k] steps is walked with [k + 1]
    tests of the loop condition. *)
Lemma path_loop_reaches_root f k :
  reaches_root t f k ->
  forall fuel p, (k < fuel)%nat -> exists path, path_loop fuel f p st = (Ok path, st).
Proof.
  induction 1 as [f Hroot | f g k Hstep _ IH]; intros fuel p Hfuel.
  - destruct fuel as [| fuel]; [lia |]. exists p. apply path_loop_root, Hroot.
  - destruct fuel as [| fuel]; [lia |].
    rewrite (path_loop_step _ _ _ _ Hstep). apply IH. lia.
Qed.

Lemma endless_step f g : endless t f -> parent_of t f g -> endless t g.
Proof.
  intros Hf Hfg n. destruct (Hf (S n)) as [h Hh].
  inversion Hh as [| ? ? g' ? Hfg' Hrest]; subst.
  rewrite (parent_of_deterministic _ _ _ Hfg Hfg'). exists h. exact Hrest.
Qed.

Lemma path_loop_endless fuel : forall f p,
  endless t f -> path_loop fuel f p st = (OutOfFuel, st).
Proof.
  induction fuel as [| fuel IH]; intros f p Hf; [reflexivity |].
  destruct (Hf 1%nat) as [g Hg].
  inversion Hg as [| ? ? g' ? Hfg Hrest]; subst.
  inversion Hrest; subst.
  rewrite (path_loop_step _ _ _ _ Hfg). apply IH.
  apply (endless_step f); assumption.
Qed.

(** On a cycle the chain is endless, and so it is from any row that leads
    to the cycle. *)
Lemma cycle_endless g n : nsteps (parent_of t) (S n) g g -> endless t g.
Proof.
  intros Hcyc.
  assert (Hback : forall m h, nsteps (parent_of t) m g h ->
                    exists k, nsteps (parent_of t) k h g).
  { induction m as [| m IH]; intros h Hh.
    - inversion Hh; subst. exists 0%nat. constructor.
    - apply nsteps_inv_r in Hh. destruct Hh as (h0 & Hh0 & Hlast).
      destruct (IH _ Hh0) as [k Hk].
      destruct k as [| k].
      + inversion Hk; subst.
        inversion Hcyc as [| ? ? g1 ? Hg1 Hrest]; subst.
        rewrite (parent_of_deterministic _ _ _ Hlast Hg1). exists n. exact Hrest.
      + inversion Hk as [| ? ? h1 ? Hh1 Hrest]; subst.
        rewrite (parent_of_deterministic _ _ _ Hlast Hh1). exists k. exact Hrest. }
  intros m. induction m as [| m [h Hh]].
  - exists g. constructor.
  - destruct (Hback _ _ Hh) as [k Hk].
    assert (Hnext : exists h', parent_of t h h').
    { destruct k as [| k].
      - inversion Hk; subst. inversion Hcyc; subst. eauto.
      - inversion Hk; subst. eauto. }
    destruct Hnext as [h' Hh']. exists h'.
    apply nsteps_r with h; assumption.
Qed.

Lemma leads_to_cycle_endless f g n :
  rtc (parent_of t) f g -> nsteps (parent_of t) (S n) g g -> endless t f.
Proof.
  intros Hfg Hcyc. apply cycle_endless in Hcyc.
  induction Hfg as [| f f' g Hstep _ IH]; [exact Hcyc |].
  specialize (IH Hcyc). intros m. destruct m as [| m].
  - exists f. constructor.
  - destruct (IH m) as [h Hh]. exists h. apply nsteps_l with f'; assumption.
Qed.

End Paths.

(** C6, as the code has it: the loop of [STFS_GetFilePath] has no bound
    and keeps no record of the rows it has visited.  It returns the path
    when the chain of parents reaches a row under the root sentinel
    [0xffff], after one test of the loop condition per row.  When the chain
    leads into a cycle of [parentDirectory] references, the loop does not
    return and reports nothing: every amount of fuel is used up. *)
Theorem GetFilePath_terminates_iff_chain_ends (st : State) (file : FileEntry) :
  (forall k,
     reaches_root (STFS_FileTable st) file k ->
     forall fuel, (k < fuel)%nat ->
     exists path, STFS_GetFilePath fuel file st = (Ok path, st)) /\
  (forall g n,
     rtc (parent_of (STFS_FileTable st)) file g ->
     nsteps (parent_of (STFS_FileTable st)) (S n) g g ->
     forall fuel, STFS_GetFilePath fuel file st = (OutOfFuel, st)).
Proof.
  split.
  - intros k Hk fuel Hfuel. unfold STFS_GetFilePath.
    apply (path_loop_reaches_root st file k Hk); exact Hfuel.
  - intros g n Hfg Hcyc fuel. unfold STFS_GetFilePath.
    apply path_loop_endless. apply (leads_to_cycle_endless st file g n); assumption.
Qed.

Lemma GetFilePath_terminates_iff_chain_ends_witness :
  (exists path, STFS_GetFilePath 2 nested_file nested_state = (Ok path, nested_state)) /\
  STFS_GetFilePath 1000 cyclic_row cyclic_state = (OutOfFuel, cyclic_state).
Proof.
  split.
  - apply (proj1 (GetFilePath_terminates_iff_chain_ends nested_state nested_file) 1%nat).
    + apply reaches_root_step with nested_dir.
      * split; [discriminate | reflexivity].
      * apply reaches_root_here. reflexivity.
    + lia.
  - apply (proj2 (GetFilePath_terminates_iff_chain_ends cyclic_state cyclic_row)
             cyclic_row 0%nat).
    + apply rtc_refl.
    + apply nsteps_once. split; [discriminate | vm_compute; reflexivity].
Defined.

(** C6, as the claim states it, fails: the container [cyclic_image] parses
    to a table whose row 0 names itself as parent, and on it
    [STFS_GetFilePath] neither returns nor throws, whatever the fuel. *)
Lemma GetFilePath_cycle_counterexample :
  STFS_FileTable cyclic_state = TArray [cyclic_row] /\
  ~ (exists fuel, result (STFS_GetFilePath fuel cyclic_row) cyclic_state <> OutOfFuel).
Proof.
  split; [vm_compute; reflexivity |].
  intros [fuel H]. apply H. unfold result, STFS_GetFilePath.
  rewrite path_loop_endless; [reflexivity |].
  apply (cycle_endless cyclic_state cyclic_row 0).
  apply nsteps_once. split; [discriminate | vm_compute; reflexivity].
Qed.

(** ** Scanning the file table *)

Section Scan.

Variable buf : list byte.

Lemma run_require_loaded st :
  STFS_PackageLoaded st = true -> require_loaded st = (Ok tt, st).
Proof. intros H. unfold require_loaded, bind, gets. rewrite H. reflexivity. Qed.

Lemma run_ascii_loop st n :
  STFS_FileBuffer st = Some buf ->
  forall i str, ascii_loop n i str st = (Ok (ascii_of buf n i str), st).
Proof.
  intros Hb. induction n as [| n IH]; intros i str; [reflexivity |].
  cbn [ascii_loop ascii_of].
  assert (Hr : view_read i st = (Ok (view_get buf i), st)).
  { unfold view_read, bind, gets. rewrite Hb. reflexivity. }
  rewrite (bind_Ok _ _ _ _ _ Hr).
  destruct (JS.eq0 (view_get buf i)); [reflexivity | apply IH].
Qed.

Lemma run_ReadASCIIString st offset len :
  STFS_PackageLoaded st = true -> STFS_FileBuffer st = Some buf ->
  STFS_ReadASCIIString offset len st
  = (Ok (ascii_of buf (Z.to_nat len) offset EmptyString), st).
Proof.
  intros Hl Hb. unfold STFS_ReadASCIIString.
  rewrite (bind_Ok _ _ _ _ _ (run_require_loaded st Hl)).
  apply run_ascii_loop, Hb.
Qed.

Lemma run_table_push st rows row :
  STFS_FileTable st = TArray rows ->
  table_push row st = (Ok tt, set_FileTable (TArray (rows ++ [row])) st).
Proof. intros H. unfold table_push, bind, gets. rewrite H. reflexivity. Qed.

(** A record whose first byte is 0 ends the loop: nothing is appended. *)
Lemma scan_records_null st fuel o :
  readable buf st -> JS.eq0 (view_get buf o) = true ->
  scan_records (S fuel) o st = (Ok tt, st).
Proof.
  intros Hst Hz. cbn [scan_records].
  rewrite (bind_Ok _ _ _ _ _ (run_Read8 buf st Hst o)). rewrite Hz. reflexivity.
Qed.

(** Any other record is decoded and appended, and the loop goes on 64
    bytes further. *)
Lemma scan_records_row st fuel o rows :
  readable buf st -> STFS_PackageLoaded st = true ->
  STFS_FileTable st = TArray rows ->
  JS.eq0 (view_get buf o) = false ->
  scan_records (S fuel) o st
  = scan_records fuel (o + 0x40)
      (set_FileTable (TArray (rows ++ [row_at buf o])) st).
Proof.
  intros Hst Hl Ht Hnz. cbn [scan_records].
  rewrite (bind_Ok _ _ _ _ _ (run_Read8 buf st Hst o)). rewrite Hnz.
  rewrite (bind_Ok _ _ _ _ _ (run_Read8 buf st Hst (o + 0x28))). cbv zeta.
  rewrite (bind_Ok _ _ _ _ _
             (run_ReadASCIIString st o _ Hl (proj2 Hst))).
  rewrite (bind_Ok _ _ _ _ _ (run_Read16 buf st Hst (o + 0x32))).
  rewrite (bind_Ok _ _ _ _ _ (run_Read32 buf st Hst (o + 0x34))).
  rewrite (bind_Ok _ _ _ _ _ (run_Read24 buf st Hst (o + 0x2F))).
  rewrite (bind_Ok _ _ _ _ _ (run_Read24 buf st Hst (o + 0x29))).
  rewrite (bind_Ok _ _ _ _ _ (run_table_push st rows _ Ht)).
  reflexivity.
Qed.

Lemma set_FileTable_same st rows :
  STFS_FileTable st = TArray rows -> set_FileTable (TArray (rows ++ [])) st = st.
Proof. intros H. rewrite app_nil_r. destruct st; cbn in *. subst. reflexivity. Qed.

(** The loop from [o] on, when the first record with first byte 0 is the
    one of index [k]: the [k] rows before it are appended, none after it. *)
Lemma scan_records_run k : forall st fuel o rows,
  readable buf st -> STFS_PackageLoaded st = true ->
  STFS_FileTable st = TArray rows ->
  (forall j, (j < k)%nat -> JS.eq0 (view_get buf (o + 0x40 * Z.of_nat j)) = false) ->
  JS.eq0 (view_get buf (o + 0x40 * Z.of_nat k)) = true ->
  (k < fuel)%nat ->
  scan_records fuel o st
  = (Ok tt, set_FileTable (TArray (rows ++ rows_from buf o k)) st).
Proof.
  induction k as [| k IH]; intros st fuel o rows Hst Hl Ht Hrows Hnull Hfuel;
    (destruct fuel as [| fuel]; [lia |]).
  - replace (o + 0x40 * Z.of_nat 0) with o in Hnull by lia.
    rewrite (scan_records_null st fuel o Hst Hnull).
    cbn [rows_from]. rewrite (set_FileTable_same st rows Ht). reflexivity.
  - assert (Hnz : JS.eq0 (view_get buf o) = false).
    { specialize (Hrows 0%nat ltac:(lia)).
      replace (o + 0x40 * Z.of_nat 0) with o in Hrows by lia. exact Hrows. }
    rewrite (scan_records_row st fuel o rows Hst Hl Ht Hnz).
    rewrite (IH _ fuel (o + 0x40) (rows ++ [row_at buf o])).
    + cbn [rows_from]. rewrite <- app_assoc. reflexivity.
    + exact Hst.
    + exact Hl.
    + reflexivity.
    + intros j Hj. specialize (Hrows (S j) ltac:(lia)).
      replace (o + 0x40 + 0x40 * Z.of_nat j) with (o + 0x40 * Z.of_nat (S j)) by lia.
      exact Hrows.
    + replace (o + 0x40 + 0x40 * Z.of_nat k) with (o + 0x40 * Z.of_nat (S k)) by lia.
      exact Hnull.
    + lia.
Qed.

Lemma length_rows_from k : forall o, length (rows_from buf o k) = k.
Proof. induction k as [| k IH]; intros o; cbn [rows_from length]; [| rewrite IH]; reflexivity. Qed.

End Scan.

(** C3, as the code has it: the [break] on a record whose first byte is 0
    leaves the [while] loop only, and the [for] loop then takes the next
    block of the root chain.  When the first such record of [block] is its
    record of index [k], the scan of [block] appends the rows of the [k]
    records before it, nothing from the rest of the block, and the remaining
    blocks [rest] of the chain are scanned from the table so extended. *)
Theorem null_record_ends_block_only
    (st : State) (buf : list byte) (rows0 : list FileEntry)
    (block : Z) (rest : list Z) (o : Z) (k fuel : nat) :
  readable buf st ->
  STFS_PackageLoaded st = true ->
  STFS_FileTable st = TArray rows0 ->
  STFS_BlockToOffset block st = (Ok o, st) ->
  (forall j, (j < k)%nat -> JS.eq0 (view_get buf (o + 0x40 * Z.of_nat j)) = false) ->
  JS.eq0 (view_get buf (o + 0x40 * Z.of_nat k)) = true ->
  (k < fuel)%nat ->
  scan_blocks fuel (block :: rest) st
  = scan_blocks fuel rest (set_FileTable (TArray (rows0 ++ rows_from buf o k)) st)
  /\ length (rows_from buf o k) = k.
Proof.
  intros Hst Hl Ht Ho Hrows Hnull Hfuel. split; [| apply length_rows_from].
  cbn [scan_blocks]. rewrite (bind_Ok _ _ _ _ _ Ho).
  rewrite (bind_Ok _ _ _ _ _
             (scan_records_run buf k st fuel o rows0 Hst Hl Ht Hrows Hnull Hfuel)).
  reflexivity.
Qed.

Lemma null_record_ends_block_only_witness :
  scan_blocks 2 [0; 1] (set_FileTable (TArray []) two_block_state)
  = scan_blocks 2 [1]
      (set_FileTable (TArray ([] ++ rows_from two_block_image 0xC000 0))
         (set_FileTable (TArray []) two_block_state))
  /\ length (rows_from two_block_image 0xC000 0) = 0%nat.
Proof.
  assert (E : two_block_state
              = set_PackageLoaded true (stored two_block_image initial_state)).
  { apply fresh_load; [left; vm_compute; reflexivity | vm_compute; reflexivity]. }
  apply (null_record_ends_block_only
           (set_FileTable (TArray []) two_block_state) two_block_image [] 0 [1]
           0xC000 0 2).
  - rewrite E. split; reflexivity.
  - rewrite E. reflexivity.
  - reflexivity.
  - rewrite E. reflexivity.
  - intros j Hj. lia.
  - vm_compute. reflexivity.
  - lia.
Defined.

(** C3, as the claim states it, fails: in [two_block_image] the root chain
    is blocks 0 and 1 and the first record of block 0 has first byte 0, yet
    [STFS_InitFS] returns with a table that holds the row of the record in
    block 1: the scan did not stop for the whole table. *)
Lemma InitFS_scans_next_block_counterexample :
  result (STFS_GetBlocksFromBlock 0 2) two_block_state = Ok [0; 1] /\
  result (STFS_Read8 0xC000) two_block_state = Ok (JS.num 0) /\
  result (STFS_InitFS 2) two_block_state = Ok tt /\
  STFS_FileTable (after (STFS_InitFS 2) two_block_state) = TArray [two_block_row] /\
  STFS_FileTable (after (STFS_InitFS 2) two_block_state) <> TArray [].
Proof.
  assert (H : STFS_FileTable (after (STFS_InitFS 2) two_block_state)
              = TArray [two_block_row]) by (vm_compute; reflexivity).
  split; [vm_compute; reflexivity |].
  split; [vm_compute; reflexivity |].
  split; [vm_compute; reflexivity |].
  split; [exact H | rewrite H; discriminate].
Qed.

(** ** Extraction *)

Section Extraction.

Variable buf : list byte.
Variable st : State.
Hypothesis Hbuf : STFS_FileBuffer st = Some buf.

Lemma run_new_view o len :
  0 <= o -> 0 <= len -> o + len <= Z.of_nat (length buf) ->
  new_view o len st = (Ok (take (Z.to_nat len) (drop (Z.to_nat o) buf)), st).
Proof.
  intros Ho Hlen Hend. unfold new_view, bind, gets. rewrite Hbuf.
  destruct (Z.ltb_spec o 0); [lia |].
  destruct (Z.ltb_spec len 0); [lia |].
  destruct (Z.ltb_spec (Z.of_nat (length buf)) (o + len)); [lia |].
  reflexivity.
Qed.

Lemma length_view o len :
  0 <= o -> 0 <= len -> o + len <= Z.of_nat (length buf) ->
  Z.of_nat (length (take (Z.to_nat len) (drop (Z.to_nat o) buf))) = len.
Proof.
  intros Ho Hlen Hend. rewrite length_take, length_drop. lia.
Qed.

Lemma block_bytes_length b :
  block_in_buffer st buf b -> length (block_bytes st buf b) = Z.to_nat 0x1000.
Proof.
  intros (o & Ho & Ho0 & Hoend). unfold block_bytes, result. rewrite Ho. cbn [fst].
  rewrite length_take, length_drop. lia.
Qed.

Lemma blocks_bytes_length blocks :
  Forall (block_in_buffer st buf) blocks ->
  Z.of_nat (length (concat (map (block_bytes st buf) blocks)))
  = 0x1000 * Z.of_nat (length blocks).
Proof.
  induction 1 as [| b blocks Hb _ IH]; [reflexivity |].
  cbn [map concat length]. rewrite length_app, (block_bytes_length b Hb). lia.
Qed.

(** While more than 4096 bytes per block are left to read, the loop takes
    the 4096 bytes of each block of the sequence, in order, and ends with
    it. *)
Lemma read_loop_short blocks : forall readRemaining blockArrays,
  Forall (block_in_buffer st buf) blocks ->
  0x1000 * Z.of_nat (length blocks) < readRemaining ->
  exists out,
    read_loop blocks readRemaining blockArrays st = (Ok out, st) /\
    concat out = concat blockArrays ++ concat (map (block_bytes st buf) blocks).
Proof.
  induction blocks as [| b blocks IH]; intros readRemaining blockArrays Hin Hrem.
  - exists blockArrays. split; [reflexivity |].
    cbn [map concat]. rewrite app_nil_r. reflexivity.
  - inversion Hin as [| ? ? (o & Ho & Ho0 & Hoend) Hin']; subst.
    assert (Ebytes : block_bytes st buf b
                     = take (Z.to_nat 0x1000) (drop (Z.to_nat o) buf)).
    { unfold block_bytes, result. rewrite Ho. reflexivity. }
    cbn [length] in Hrem. cbn [read_loop map concat].
    rewrite (bind_Ok _ _ _ _ _ Ho).
    destruct (Z.ltb_spec readRemaining 0x1000); [lia |].
    rewrite (bind_Ok _ _ _ _ _ (run_new_view o 0x1000 Ho0 ltac:(lia) Hoend)).
    cbv zeta. rewrite <- Ebytes.
    destruct (Z.leb_spec (readRemaining - 0x1000) 0); [lia |].
    destruct (IH (readRemaining - 0x1000) (blockArrays ++ [block_bytes st buf b])
                 Hin' ltac:(lia)) as (out & Hout & Hcat).
    exists out. split; [exact Hout |].
    rewrite Hcat. rewrite concat_app. cbn [concat]. rewrite app_nil_r.
    rewrite <- app_assoc. reflexivity.
Qed.

End Extraction.

(** C5, as the code has it: [STFS_ReadFile] has no report of a short
    chain.  For a row that is not a directory, when the walk returns a
    sequence of blocks that all lie in the buffer and [fileSize] is more than
    4096 bytes per block of it, the call returns normally the 4096 bytes of
    each block walked, in the order of the walk and nothing else, fewer than
    [fileSize] bytes in all, and changes no state. *)
Theorem ReadFile_short_chain_is_silent
    (st : State) (buf : list byte) (file : FileEntry) (blocks : list Z) :
  STFS_FileBuffer st = Some buf ->
  JS.and (flags file) 2 <> 2 ->
  STFS_GetBlocksFromBlock (startingBlock file) (numOfBlocks file) st = (Ok blocks, st) ->
  Forall (block_in_buffer st buf) blocks ->
  0x1000 * Z.of_nat (length blocks) < fileSize file ->
  exists data,
    STFS_ReadFile file st = (Ok data, st) /\
    data = concat (map (block_bytes st buf) blocks) /\
    Z.of_nat (length data) = 0x1000 * Z.of_nat (length blocks) /\
    Z.of_nat (length data) < fileSize file.
Proof.
  intros Hbuf Hfile Hwalk Hin Hsize.
  destruct (read_loop_short buf st Hbuf blocks (fileSize file) [] Hin Hsize)
    as (out & Hout & Hcat).
  cbn [concat app] in Hcat.
  exists (concat out). unfold STFS_ReadFile.
  destruct (Z.eqb_spec (JS.and (flags file) 2) 2) as [E | _]; [contradiction |].
  rewrite (bind_Ok _ _ _ _ _ Hwalk). rewrite (bind_Ok _ _ _ _ _ Hout).
  pose proof (blocks_bytes_length buf st blocks Hin) as Hlen.
  split; [reflexivity | split; [exact Hcat |]].
  rewrite Hcat. split; lia.
Qed.

Lemma ReadFile_short_chain_is_silent_witness :
  exists data,
    STFS_ReadFile truncated_file truncated_state = (Ok data, truncated_state) /\
    data = concat (map (block_bytes truncated_state truncated_image) [0]) /\
    Z.of_nat (length data) = 0x1000 * Z.of_nat (length [0]) /\
    Z.of_nat (length data) < fileSize truncated_file.
Proof.
  assert (E : truncated_state
              = set_PackageLoaded true (stored truncated_image initial_state)).
  { apply fresh_load; [left; vm_compute; reflexivity | vm_compute; reflexivity]. }
  assert (Hread : readable truncated_image truncated_state).
  { rewrite E. split; reflexivity. }
  apply (ReadFile_short_chain_is_silent truncated_state truncated_image
           truncated_file [0]).
  - apply Hread.
  - vm_compute. discriminate.
  - destruct (GetBlocksFromBlock_readable truncated_image truncated_state
                (startingBlock truncated_file) (numOfBlocks truncated_file) Hread)
      as [out Hout].
    rewrite Hout. apply (f_equal fst) in Hout. vm_compute in Hout.
    inversion Hout. reflexivity.
  - constructor; [| constructor]. exists 0xC000. rewrite E.
    split; [reflexivity | split; [lia | vm_compute; discriminate]].
  - vm_compute. reflexivity.
Defined.

(** C5, as the claim states it, fails: block 0 of [truncated_image] ends
    its chain, and for a file declared as 5000 bytes in two blocks from
    block 0 [STFS_ReadFile] returns, without an error, 4096 bytes. *)
Lemma ReadFile_truncated_counterexample :
  JS.and (flags truncated_file) 2 <> 2 /\
  result (STFS_GetBlocksFromBlock (startingBlock truncated_file)
            (numOfBlocks truncated_file)) truncated_state = Ok [0] /\
  exists data,
    result (STFS_ReadFile truncated_file) truncated_state = Ok data /\
    Z.of_nat (length data) = 4096 /\
    Z.of_nat (length data) < fileSize truncated_file.
Proof.
  split; [vm_compute; discriminate |].
  split; [vm_compute; reflexivity |].
  destruct (result (STFS_ReadFile truncated_file) truncated_state) as [data | e |] eqn:H.
  - exists data. split; [reflexivity |].
    assert (L : match result (STFS_ReadFile truncated_file) truncated_state with
                | Ok d => Z.of_nat (length d)
                | _ => 0
                end = 4096) by (vm_compute; reflexivity).
    rewrite H in L. split; [exact L | rewrite L; vm_compute; reflexivity].
  - assert (L : match result (STFS_ReadFile truncated_file) truncated_state with
                | Ok d => true
                | _ => false
                end = true) by (vm_compute; reflexivity).
    rewrite H in L. discriminate L.
  - assert (L : match result (STFS_ReadFile truncated_file) truncated_state with
                | Ok d => true
                | _ => false
                end = true) by (vm_compute; reflexivity).
    rewrite H in L. discriminate L.
Qed.

(** * Further properties of the code *)

(** ** Functions that only read *)

Section ReadOnly.

Lemma readonly_ret {A} (a : A) : readonly (ret a).
Proof. intros st. reflexivity. Qed.
Lemma readonly_throw {A} e : readonly (@throw A e).
Proof. intros st. reflexivity. Qed.
Lemma readonly_diverge {A} : readonly (@diverge A).
Proof. intros st. reflexivity. Qed.
Lemma readonly_gets {A} (f : State -> A) : readonly (gets f).
Proof. intros st. reflexivity. Qed.
Lemma readonly_bind {A B} (m : M A) (k : A -> M B) :
  readonly m -> (forall a, readonly (k a)) -> readonly (bind m k).
Proof.
  intros Hm Hk st. unfold bind. specialize (Hm st).
  destruct (m st) as [[a | e |] st1]; simpl in *; subst; [apply Hk | reflexivity..].
Qed.

End ReadOnly.

Ltac readonly_step :=
  lazymatch goal with
  | |- readonly (ret _) => apply readonly_ret
  | |- readonly (throw _) => apply readonly_throw
  | |- readonly diverge => apply readonly_diverge
  | |- readonly (gets _) => apply readonly_gets
  | |- readonly (bind _ _) => apply readonly_bind; [| intros ?]
  | |- readonly (if ?c then _ else _) => destruct c
  | |- readonly (match ?x with _ => _ end) => destruct x
  | |- readonly _ => assumption
  end.

Section ReadOnlyCalls.

Lemma readonly_require_dirty : readonly require_dirty.
Proof. unfold require_dirty. repeat readonly_step. Qed.
Lemma readonly_require_loaded : readonly require_loaded.
Proof. unfold require_loaded. repeat readonly_step. Qed.
Lemma readonly_view_read o : readonly (view_read o).
Proof. unfold view_read. repeat readonly_step. Qed.
Lemma readonly_Read8 o : readonly (STFS_Read8 o).
Proof.
  unfold STFS_Read8.
  apply readonly_bind; [apply readonly_require_dirty | intros _; apply readonly_view_read].
Qed.
Lemma readonly_Read16 o : readonly (STFS_Read16 o).
Proof.
  unfold STFS_Read16.
  apply readonly_bind; [apply readonly_require_dirty | intros _].
  apply readonly_bind; [apply readonly_Read8 | intros hi].
  apply readonly_bind; [apply readonly_Read8 | intros lo]. apply readonly_ret.
Qed.
Lemma readonly_Read32 o : readonly (STFS_Read32 o).
Proof.
  unfold STFS_Read32.
  apply readonly_bind; [apply readonly_require_dirty | intros _].
  apply readonly_bind; [apply readonly_Read16 | intros hi].
  apply readonly_bind; [apply readonly_Read16 | intros lo]. apply readonly_ret.
Qed.
Lemma readonly_Read24 o : readonly (STFS_Read24 o).
Proof.
  unfold STFS_Read24.
  apply readonly_bind; [apply readonly_require_dirty | intros _].
  apply readonly_bind; [apply readonly_Read32 | intros w]. apply readonly_ret.
Qed.
Lemma readonly_ascii_loop n : forall i str, readonly (ascii_loop n i str).
Proof.
  induction n as [| n IH]; intros i str; cbn [ascii_loop]; [apply readonly_ret |].
  apply readonly_bind; [apply readonly_view_read | intros r].
  destruct (JS.eq0 r); [apply readonly_ret | apply IH].
Qed.
Lemma readonly_ReadASCIIString o l : readonly (STFS_ReadASCIIString o l).
Proof.
  unfold STFS_ReadASCIIString.
  apply readonly_bind; [apply readonly_require_loaded | intros _; apply readonly_ascii_loop].
Qed.
Lemma readonly_BlockToOffset b : readonly (STFS_BlockToOffset b).
Proof. intros st. reflexivity. Qed.
Lemma readonly_BlockToHashOffset b : readonly (STFS_BlockToHashOffset b).
Proof. intros st. reflexivity. Qed.
Lemma readonly_blocks_loop n : forall blocks, readonly (blocks_loop n blocks).
Proof.
  induction n as [| n IH]; intros blocks; cbn [blocks_loop]; [apply readonly_ret |].
  apply readonly_bind; [apply readonly_BlockToHashOffset | intros h].
  apply readonly_bind; [apply readonly_Read24 | intros nb].
  destruct ((nb =? List.last blocks 0) || (nb =? 0xFFFFFF)); [apply readonly_ret | apply IH].
Qed.
Lemma readonly_new_view o l : readonly (new_view o l).
Proof. unfold new_view. repeat readonly_step. Qed.
Lemma readonly_read_loop bs : forall r acc, readonly (read_loop bs r acc).
Proof.
  induction bs as [| b bs IH]; intros r acc; cbn [read_loop]; [apply readonly_ret |].
  apply readonly_bind; [apply readonly_BlockToOffset | intros o].
  apply readonly_bind; [apply readonly_new_view | intros v]. cbv zeta.
  destruct (r - 0x1000 <=? 0); [apply readonly_ret | apply IH].
Qed.
Lemma readonly_path_loop fuel : forall f p, readonly (path_loop fuel f p).
Proof.
  induction fuel as [| fuel IH]; intros f p; cbn [path_loop]; [apply readonly_diverge |].
  destruct (negb (parentDirectory f =? 0xffff)); [| apply readonly_ret].
  apply readonly_bind; [apply readonly_gets | intros t].
  destruct (table_get t (parentDirectory f)); [apply IH | apply readonly_throw].
Qed.

End ReadOnlyCalls.

(** ** Values of the reads *)

Section ReadValues.

Lemma land_ones_range x n : 0 <= n -> 0 <= Z.land x (Z.ones n) < 2 ^ n.
Proof. intros Hn. rewrite Z.land_ones by lia. apply Z.mod_pos_bound. lia. Qed.

Lemma and_mask_range x n :
  0 <= n < 31 -> 0 <= JS.and x (Z.ones n) < 2 ^ n.
Proof.
  intros Hn. unfold JS.and.
  assert (Hp : 0 < 2 ^ n < 2 ^ 31).
  { split; [apply Z.pow_pos_nonneg; lia | apply Z.pow_lt_mono_r; lia]. }
  change (2 ^ 31) with 2147483648 in Hp.
  rewrite (ToInt32_small (Z.ones n)) by (rewrite Z.ones_equiv; lia).
  apply land_ones_range. lia.
Qed.

Lemma Read24_value o st v st' :
  STFS_Read24 o st = (Ok v, st') -> 0 <= v < 0x1000000.
Proof.
  unfold STFS_Read24, bind. intros H.
  destruct (require_dirty st) as [[[] | e |] st1]; try discriminate H.
  destruct (STFS_Read32 (o - 1) st1) as [[w | e |] st2]; try discriminate H.
  unfold ret in H. injection H as Hv _. rewrite <- Hv.
  apply (and_mask_range w 24). lia.
Qed.

Lemma Read16_value o st v st' :
  STFS_Read16 o st = (Ok v, st') -> 0 <= v < 0x10000.
Proof.
  unfold STFS_Read16, bind. intros H.
  destruct (require_dirty st) as [[[] | e |] st1]; try discriminate H.
  destruct (STFS_Read8 o st1) as [[hi | e |] st2]; try discriminate H.
  destruct (STFS_Read8 (o + 1) st2) as [[lo | e |] st3]; try discriminate H.
  unfold ret in H. injection H as Hv _. rewrite <- Hv.
  apply (and_mask_range _ 16). lia.
Qed.

Lemma Read32_value o st v st' :
  STFS_Read32 o st = (Ok v, st') -> -2147483648 <= v < 2147483648.
Proof.
  unfold STFS_Read32, bind. intros H.
  destruct (require_dirty st) as [[[] | e |] st1]; try discriminate H.
  destruct (STFS_Read16 o st1) as [[hi | e |] st2]; try discriminate H.
  destruct (STFS_Read16 (o + 2) st2) as [[lo | e |] st3]; try discriminate H.
  unfold ret in H. injection H as Hv _. rewrite <- Hv. unfold JS.and.
  change (JS.ToInt32 4294967295) with (-1). rewrite Z.land_m1_r.
  apply ToInt32_range.
Qed.

End ReadValues.

Lemma readonly_run {A} (m : M A) st r :
  readonly m -> result m st = r -> m st = (r, st).
Proof.
  intros Hm Hr. unfold result in Hr. specialize (Hm st).
  destruct (m st) as [r' st']. simpl in *. subst. reflexivity.
Qed.

(** ** The shape of a walked chain *)

Section WalkShape.

Lemma blocks_loop_shape n : forall blocks st out st',
  blocks_loop n blocks st = (Ok out, st') ->
  exists tail,
    out = blocks ++ tail /\ (length tail <= n)%nat /\
    links (List.last blocks 0) tail.
Proof.
  induction n as [| n IH]; intros blocks st out st' H.
  - cbn [blocks_loop] in H. unfold ret in H. injection H as <- _.
    exists []. rewrite app_nil_r. repeat split. cbn [length]. lia.
  - cbn [blocks_loop] in H. unfold bind at 1 in H.
    destruct (STFS_BlockToHashOffset (List.last blocks 0) st) as [[h | e |] st1];
      try discriminate H.
    unfold bind at 1 in H.
    destruct (STFS_Read24 (h + 0x15) st1) as [[nb | e |] st2] eqn:Hread;
      try discriminate H.
    apply Read24_value in Hread.
    destruct (Z.eqb_spec nb (List.last blocks 0)) as [Heq | Hne].
    + cbn [orb] in H. unfold ret in H. injection H as <- _.
      exists []. rewrite app_nil_r. repeat split. cbn [length]. lia.
    + destruct (Z.eqb_spec nb 0xFFFFFF) as [Heq | Hnt].
      * cbn [orb] in H. unfold ret in H. injection H as <- _.
        exists []. rewrite app_nil_r. repeat split. cbn [length]. lia.
      * cbn [orb] in H. apply IH in H. destruct H as (tail & -> & Hlen & Hlinks).
        rewrite List.last_last in Hlinks.
        exists (nb :: tail). rewrite <- app_assoc. cbn [app length links].
        repeat split; try assumption; lia.
Qed.

Lemma Read24_not_dirty o st :
  STFS_Dirty st = false -> STFS_Read24 o st = (Throw NoPackage, st).
Proof.
  intros Hd. unfold STFS_Read24, require_dirty, gets, bind. rewrite Hd. reflexivity.
Qed.

(** The walk over a stored buffer: every block appended is the number in
    the chain record of the block before it, and the walk stops before its
    count is used up only at a record that holds its own block or the
    terminator. *)
Lemma blocks_loop_chain buf n : forall blocks st out st',
  STFS_FileBuffer st = Some buf ->
  blocks_loop n blocks st = (Ok out, st') ->
  exists tail,
    out = blocks ++ tail /\ (length tail <= n)%nat /\
    chain_links st buf (List.last blocks 0) tail /\
    ((length tail < n)%nat ->
     next_block st buf (List.last out 0) = List.last out 0 \/
     next_block st buf (List.last out 0) = 0xFFFFFF).
Proof.
  induction n as [| n IH]; intros blocks st out st' Hb H.
  - cbn [blocks_loop] in H. unfold ret in H. injection H as <- _.
    exists []. rewrite app_nil_r. cbn [length chain_links].
    split; [reflexivity | split; [lia | split; [exact I | lia]]].
  - cbn [blocks_loop] in H.
    destruct (BlockToHashOffset_runs st (List.last blocks 0)) as [h Hh].
    rewrite (bind_Ok _ _ _ _ _ Hh) in H.
    assert (Hnext : next_block st buf (List.last blocks 0) = u24 buf (h + 0x15)).
    { unfold next_block, result. rewrite Hh. reflexivity. }
    destruct (STFS_Dirty st) eqn:Hd.
    2: { rewrite (bind_Throw _ _ _ _ _ (Read24_not_dirty (h + 0x15) st Hd)) in H.
         discriminate H. }
    rewrite (bind_Ok _ _ _ _ _ (run_Read24 buf st (conj Hd Hb) (h + 0x15))) in H.
    rewrite <- Hnext in H.
    assert (Hrange : 0 <= next_block st buf (List.last blocks 0) < 0x1000000).
    { rewrite Hnext.
      apply (Read24_value (h + 0x15) st _ st), (run_Read24 buf st (conj Hd Hb)). }
    destruct (Z.eqb_spec (next_block st buf (List.last blocks 0)) (List.last blocks 0))
      as [Heq | Hne].
    + cbn [orb] in H. unfold ret in H. injection H as <- _.
      exists []. rewrite app_nil_r. cbn [length chain_links].
      split; [reflexivity | split; [lia | split; [exact I |]]].
      intros _. left. exact Heq.
    + destruct (Z.eqb_spec (next_block st buf (List.last blocks 0)) 0xFFFFFF)
        as [Heq | Hnt].
      * cbn [orb] in H. unfold ret in H. injection H as <- _.
        exists []. rewrite app_nil_r. cbn [length chain_links].
        split; [reflexivity | split; [lia | split; [exact I |]]].
        intros _. right. exact Heq.
      * cbn [orb] in H. apply (IH _ _ _ _ Hb) in H.
        destruct H as (tail & -> & Hlen & Hlinks & Hstop).
        rewrite List.last_last in Hlinks.
        exists (next_block st buf (List.last blocks 0) :: tail).
        rewrite <- app_assoc. cbn [app length chain_links].
        split; [reflexivity |]. split; [lia |].
        split; [repeat split; try assumption; lia |].
        intros Hlt. rewrite <- app_assoc in Hstop. cbn [app] in Hstop.
        apply Hstop. lia.
Qed.

End WalkShape.

(** X1 ([STFS_GetBlocksFromBlock]): whenever the walk over a stored buffer
    returns, the state is as before, the first block is the start block, at
    most [blockCount] blocks follow it, and every block that follows is the
    24-bit number read at [0x15] in the chain record of the block before it,
    which is neither the terminator [0xFFFFFF] nor that block.  When fewer
    than [blockCount] blocks follow, the chain record of the last block
    holds that block itself or the terminator. *)
Theorem GetBlocksFromBlock_shape (blockNum blockCount : Z) (st st' : State)
    (buf : list byte) (out : list Z) :
  STFS_FileBuffer st = Some buf ->
  STFS_GetBlocksFromBlock blockNum blockCount st = (Ok out, st') ->
  st' = st /\
  exists tail,
    out = blockNum :: tail /\
    Z.of_nat (length tail) <= Z.max 0 blockCount /\
    chain_links st buf blockNum tail /\
    (Z.of_nat (length tail) < blockCount ->
     next_block st buf (List.last out 0) = List.last out 0 \/
     next_block st buf (List.last out 0) = 0xFFFFFF).
Proof.
  intros Hb H. split.
  - pose proof (readonly_blocks_loop (Z.to_nat blockCount) [blockNum] st) as Hro.
    unfold STFS_GetBlocksFromBlock in H. rewrite H in Hro. exact Hro.
  - apply (blocks_loop_chain buf _ _ _ _ _ Hb) in H.
    destruct H as (tail & -> & Hlen & Hlinks & Hstop).
    exists tail. cbn [List.last] in Hlinks.
    split; [reflexivity |]. split; [lia |]. split; [exact Hlinks |].
    intros Hlt. apply Hstop. lia.
Qed.

Lemma GetBlocksFromBlock_shape_witness :
  exists tail,
    [0; 1; 2] = 0 :: tail /\
    Z.of_nat (length tail) <= Z.max 0 2 /\
    chain_links chain_state chain_image 0 tail /\
    (Z.of_nat (length tail) < 2 ->
     next_block chain_state chain_image (List.last [0; 1; 2] 0) = List.last [0; 1; 2] 0 \/
     next_block chain_state chain_image (List.last [0; 1; 2] 0) = 0xFFFFFF).
Proof.
  assert (E : chain_state = set_PackageLoaded true (stored chain_image initial_state)).
  { apply fresh_load; [left; vm_compute; reflexivity | vm_compute; reflexivity]. }
  apply (GetBlocksFromBlock_shape 0 2 chain_state chain_state chain_image [0; 1; 2]).
  - rewrite E. reflexivity.
  - apply readonly_run; [apply readonly_blocks_loop | vm_compute; reflexivity].
Defined.

(** ** The reads are big-endian *)

Section BigEndianReads.

Variable buf : list byte.

Lemma byte_or_0_range o : 0 <= byte_or_0 buf o <= 255.
Proof.
  unfold byte_or_0, view_get.
  destruct (o <? 0); [cbn; lia |].
  destruct (buf !! Z.to_nat o) as [b |]; [| cbn; lia].
  cbn [JS.int32_of_elem]. fold (byte_val b).
  pose proof (byte_val_range b). rewrite ToInt32_small by lia. lia.
Qed.

Lemma int32_of_elem_view o :
  JS.int32_of_elem (view_get buf o) = JS.ToInt32 (byte_or_0 buf o).
Proof.
  pose proof (byte_or_0_range o). rewrite (ToInt32_small (byte_or_0 buf o)) by lia.
  reflexivity.
Qed.

Lemma u16_value o : u16 buf o = byte_or_0 buf o * 256 + byte_or_0 buf (o + 1).
Proof.
  unfold u16. rewrite !int32_of_elem_view.
  apply word16_value; apply byte_or_0_range.
Qed.

Lemma u32_value o :
  u32 buf o
  = JS.ToInt32 (byte_or_0 buf o * 16777216 + byte_or_0 buf (o + 1) * 65536
                + byte_or_0 buf (o + 2) * 256 + byte_or_0 buf (o + 2 + 1)).
Proof.
  pose proof (byte_or_0_range o). pose proof (byte_or_0_range (o + 1)).
  pose proof (byte_or_0_range (o + 2)). pose proof (byte_or_0_range (o + 2 + 1)).
  unfold u32. rewrite !u16_value. rewrite word32_value by lia. f_equal. lia.
Qed.

Lemma ToInt32_mod z : JS.ToInt32 z mod 4294967296 = z mod 4294967296.
Proof.
  unfold JS.ToInt32. change (2 ^ 31) with 2147483648. change (2 ^ 32) with 4294967296.
  rewrite <- Zminus_mod_idemp_l. rewrite Z.mod_mod by lia.
  rewrite Zminus_mod_idemp_l. f_equal. lia.
Qed.

Lemma mod_mod_divide z : (z mod 4294967296) mod 16777216 = z mod 16777216.
Proof.
  Z.div_mod_to_equations. lia.
Qed.

Lemma u24_value o :
  u24 buf o
  = byte_or_0 buf o * 65536 + byte_or_0 buf (o + 1) * 256 + byte_or_0 buf (o + 2).
Proof.
  pose proof (byte_or_0_range (o - 1)). pose proof (byte_or_0_range o).
  pose proof (byte_or_0_range (o + 1)). pose proof (byte_or_0_range (o + 2)).
  unfold u24. rewrite u32_value. unfold JS.and.
  change (JS.ToInt32 16777215) with (Z.ones 24).
  rewrite Z.land_ones by lia. change (2 ^ 24) with 16777216.
  assert (Hid : forall z, JS.ToInt32 (JS.ToInt32 z) = JS.ToInt32 z).
  { intros z. apply ToInt32_small. apply ToInt32_range. }
  rewrite Hid. rewrite <- mod_mod_divide. rewrite ToInt32_mod. rewrite mod_mod_divide.
  replace (o - 1 + 1) with o by lia. replace (o - 1 + 2) with (o + 1) by lia.
  replace (o + 1 + 1) with (o + 2) by lia.
  replace (byte_or_0 buf (o - 1) * 16777216 + byte_or_0 buf o * 65536
           + byte_or_0 buf (o + 1) * 256 + byte_or_0 buf (o + 2))
    with (byte_or_0 buf o * 65536 + byte_or_0 buf (o + 1) * 256 + byte_or_0 buf (o + 2)
          + byte_or_0 buf (o - 1) * 16777216) by lia.
  rewrite Z.mod_add by lia. apply Z.mod_small. lia.
Qed.

End BigEndianReads.

(** X2 ([STFS_Read8], [STFS_Read16], [STFS_Read24], [STFS_Read32]): once a
    buffer is stored and the dirty flag set, the reads return the
    big-endian number made of the bytes at [offset], a byte beyond the end
    of the buffer counting as 0, and change nothing: 16 and 24 bits
    unsigned, 32 bits as a signed number (the top bit of the first byte is
    the sign). *)
Theorem reads_are_big_endian (buf : list byte) (st : State) (offset : Z) :
  readable buf st ->
  STFS_Read16 offset st
  = (Ok (byte_or_0 buf offset * 256 + byte_or_0 buf (offset + 1)), st) /\
  STFS_Read24 offset st
  = (Ok (byte_or_0 buf offset * 65536 + byte_or_0 buf (offset + 1) * 256
         + byte_or_0 buf (offset + 2)), st) /\
  STFS_Read32 offset st
  = (Ok (JS.ToInt32 (byte_or_0 buf offset * 16777216
                     + byte_or_0 buf (offset + 1) * 65536
                     + byte_or_0 buf (offset + 2) * 256
                     + byte_or_0 buf (offset + 3))), st).
Proof.
  intros Hst. split; [| split].
  - rewrite (run_Read16 buf st Hst). rewrite u16_value. reflexivity.
  - rewrite (run_Read24 buf st Hst). rewrite u24_value. reflexivity.
  - rewrite (run_Read32 buf st Hst). rewrite u32_value.
    replace (offset + 2 + 1) with (offset + 3) by lia. reflexivity.
Qed.

Lemma reads_are_big_endian_witness :
  STFS_Read16 0 (stored [xff; xfe; x01; x02] initial_state)
  = (Ok (byte_or_0 [xff; xfe; x01; x02] 0 * 256 + byte_or_0 [xff; xfe; x01; x02] (0 + 1)),
     stored [xff; xfe; x01; x02] initial_state) /\
  result (STFS_Read32 0) (stored [xff; xfe; x01; x02] initial_state) = Ok (-130814).
Proof.
  pose proof (reads_are_big_endian [xff; xfe; x01; x02]
                (stored [xff; xfe; x01; x02] initial_state) 0) as H.
  destruct H as (H16 & _ & H32).
  - split; reflexivity.
  - split; [exact H16 |]. unfold result. rewrite H32. vm_compute. reflexivity.
Defined.

(** ** Masks and shifts as division and remainder *)

Section Masks.

Lemma land_shifted_ones i j k :
  0 <= j -> 0 <= k ->
  Z.land i (Z.ones k * 2 ^ j) = (i / 2 ^ j) mod 2 ^ k * 2 ^ j.
Proof.
  intros Hj Hk.
  rewrite <- !Z.shiftl_mul_pow2 by lia.
  rewrite <- Z.land_ones by lia. rewrite <- Z.shiftr_div_pow2 by lia.
  rewrite Z.shiftl_land.
  apply Z.bits_inj'. intros n Hn. rewrite !Z.land_spec.
  destruct (Z.lt_ge_cases n j) as [Hlt | Hge].
  - rewrite !Z.shiftl_spec_low by lia. rewrite !andb_false_r. reflexivity.
  - rewrite !Z.shiftl_spec by lia. rewrite Z.shiftr_spec by lia.
    replace (n - j + j) with n by lia. reflexivity.
Qed.

(** The operators on numbers that fit 31 bits. *)
Lemma and_small x m :
  0 <= x < 2147483648 -> 0 <= m < 2147483648 -> JS.and x m = Z.land x m.
Proof. intros Hx Hm. unfold JS.and. rewrite !ToInt32_small by lia. reflexivity. Qed.

Lemma or_small x y :
  0 <= x < 2147483648 -> 0 <= y < 2147483648 -> JS.or x y = Z.lor x y.
Proof. intros Hx Hy. unfold JS.or. rewrite !ToInt32_small by lia. reflexivity. Qed.

Lemma sar_small x n :
  0 <= x < 2147483648 -> 0 <= n < 32 -> JS.sar x n = x / 2 ^ n.
Proof.
  intros Hx Hn. unfold JS.sar. rewrite ToInt32_small by lia.
  replace (Z.land n 31) with n.
  - apply Z.shiftr_div_pow2. lia.
  - change 31 with (Z.ones 5). rewrite Z.land_ones by lia.
    symmetry. apply Z.mod_small. change (2 ^ 5) with 32. lia.
Qed.

Lemma shl_16_small x : 0 <= x < 32768 -> JS.shl x 16 = x * 65536.
Proof.
  intros Hx. unfold JS.shl. change (Z.land 16 31) with 16.
  rewrite (ToInt32_small x) by lia. rewrite Z.shiftl_mul_pow2 by lia.
  change (2 ^ 16) with 65536. apply ToInt32_small. lia.
Qed.

(** [STFS_Swap24] on a 24-bit number, byte by byte. *)
Lemma Swap24_value i :
  0 <= i < 16777216 ->
  STFS_Swap24 i = i mod 256 * 65536 + i / 256 mod 256 * 256 + i / 65536.
Proof.
  intros Hi. unfold STFS_Swap24.
  assert (H1 : JS.and i 255 = i mod 256).
  { rewrite and_small by lia. change 255 with (Z.ones 8).
    rewrite Z.land_ones by lia. reflexivity. }
  assert (H2 : JS.and i 65280 = i / 256 mod 256 * 256).
  { rewrite and_small by lia. change 65280 with (Z.ones 8 * 2 ^ 8).
    rewrite land_shifted_ones by lia. reflexivity. }
  assert (H3 : JS.sar i 16 = i / 65536).
  { rewrite sar_small by lia. reflexivity. }
  rewrite H1, H2, H3.
  assert (Hc : 0 <= i mod 256 < 256) by (apply Z.mod_pos_bound; lia).
  assert (Hb : 0 <= i / 256 mod 256 < 256) by (apply Z.mod_pos_bound; lia).
  assert (Ha : 0 <= i / 65536 < 256).
  { split; [apply Z.div_pos; lia | apply Z.div_lt_upper_bound; lia]. }
  rewrite shl_16_small by lia.
  assert (L1 : Z.lor (i mod 256 * 65536) (i / 256 mod 256 * 256)
               = i mod 256 * 65536 + i / 256 mod 256 * 256).
  { change 65536 with (2 ^ 16). apply lor_mul_pow2_low; [lia |].
    change (2 ^ 16) with 65536. lia. }
  assert (L2 : Z.lor (i mod 256 * 65536 + i / 256 mod 256 * 256) (i / 65536)
               = i mod 256 * 65536 + i / 256 mod 256 * 256 + i / 65536).
  { replace (i mod 256 * 65536 + i / 256 mod 256 * 256)
      with ((i mod 256 * 256 + i / 256 mod 256) * 2 ^ 8)
      by (change (2 ^ 8) with 256; lia).
    apply lor_mul_pow2_low; [lia |]. change (2 ^ 8) with 256. lia. }
  rewrite (or_small (i mod 256 * 65536)) by lia. rewrite L1.
  rewrite or_small by lia. rewrite L2.
  rewrite and_small by lia. change 16777215 with (Z.ones 24).
  rewrite Z.land_ones by lia. change (2 ^ 24) with 16777216.
  apply Z.mod_small. lia.
Qed.

End Masks.

(** X3 ([STFS_Swap24]): on 24-bit numbers the swap exchanges the first and
    the third byte, stays within 24 bits, and undoes itself. *)
Theorem Swap24_involution (i : Z) :
  0 <= i < 0x1000000 ->
  STFS_Swap24 i = i mod 256 * 65536 + i / 256 mod 256 * 256 + i / 65536 /\
  0 <= STFS_Swap24 i < 0x1000000 /\
  STFS_Swap24 (STFS_Swap24 i) = i.
Proof.
  intros Hi.
  assert (Hv := Swap24_value i Hi).
  assert (Hr : 0 <= STFS_Swap24 i < 16777216).
  { rewrite Hv. Z.div_mod_to_equations. lia. }
  split; [exact Hv | split; [exact Hr |]].
  rewrite (Swap24_value (STFS_Swap24 i) Hr). rewrite Hv.
  Z.div_mod_to_equations. lia.
Qed.

Lemma Swap24_involution_witness :
  STFS_Swap24 0x010203 = 0x010203 mod 256 * 65536 + 0x010203 / 256 mod 256 * 256
                         + 0x010203 / 65536 /\
  0 <= STFS_Swap24 0x010203 < 0x1000000 /\
  STFS_Swap24 (STFS_Swap24 0x010203) = 0x010203.
Proof. apply (Swap24_involution 0x010203). lia. Defined.

(** ** The fields of a row *)

Section RowFields.

Variable buf : list byte.

Lemma string_length_append (s1 s2 : string) :
  String.length (s1 ++ s2) = (String.length s1 + String.length s2)%nat.
Proof. induction s1 as [| c s1 IH]; cbn; [| rewrite IH]; reflexivity. Qed.

Lemma ascii_of_length n : forall i str,
  (String.length (ascii_of buf n i str) <= String.length str + n)%nat.
Proof.
  induction n as [| n IH]; intros i str; cbn [ascii_of]; [lia |].
  destruct (JS.eq0 (view_get buf i)); [lia |].
  specialize (IH (i + 1) (str ++ String (JS.fromCharCode (view_get buf i)) EmptyString)%string).
  rewrite string_length_append in IH. cbn [String.length] in IH. lia.
Qed.

Lemma row_nameLength o :
  nameLength (row_at buf o) = byte_or_0 buf (o + 0x28) mod 64.
Proof.
  pose proof (byte_or_0_range buf (o + 0x28)) as HB.
  unfold row_at. cbn [nameLength]. fold (byte_or_0 buf (o + 0x28)).
  rewrite and_small by lia. change 63 with (Z.ones 6).
  rewrite Z.land_ones by lia. reflexivity.
Qed.

Lemma row_flags o :
  flags (row_at buf o) = byte_or_0 buf (o + 0x28) / 64.
Proof.
  pose proof (byte_or_0_range buf (o + 0x28)) as HB.
  unfold row_at. cbn [flags]. fold (byte_or_0 buf (o + 0x28)).
  rewrite and_small by lia. change 192 with (Z.ones 2 * 2 ^ 6).
  rewrite land_shifted_ones by lia. change (2 ^ 6) with 64. change (2 ^ 2) with 4.
  assert (0 <= byte_or_0 buf (o + 40) / 64 < 4).
  { split; [apply Z.div_pos; lia | apply Z.div_lt_upper_bound; lia]. }
  rewrite (Z.mod_small _ 4) by lia.
  rewrite sar_small by lia. change (2 ^ 6) with 64.
  apply Z.div_mul. lia.
Qed.

Lemma little_endian_24 a b c :
  0 <= a <= 255 -> 0 <= b <= 255 -> 0 <= c <= 255 ->
  STFS_Swap24 (a * 65536 + b * 256 + c) = a + b * 256 + c * 65536.
Proof.
  intros Ha Hb Hc. rewrite Swap24_value by lia.
  Z.div_mod_to_equations. lia.
Qed.

Lemma row_startingBlock o :
  startingBlock (row_at buf o)
  = byte_or_0 buf (o + 0x2F) + byte_or_0 buf (o + 0x30) * 256
    + byte_or_0 buf (o + 0x31) * 65536.
Proof.
  unfold row_at. cbn [startingBlock]. rewrite u24_value.
  replace (o + 0x2F + 1) with (o + 0x30) by lia.
  replace (o + 0x2F + 2) with (o + 0x31) by lia.
  apply little_endian_24; apply byte_or_0_range.
Qed.

Lemma row_numOfBlocks o :
  numOfBlocks (row_at buf o)
  = byte_or_0 buf (o + 0x29) + byte_or_0 buf (o + 0x2A) * 256
    + byte_or_0 buf (o + 0x2B) * 65536.
Proof.
  unfold row_at. cbn [numOfBlocks]. rewrite u24_value.
  replace (o + 0x29 + 1) with (o + 0x2A) by lia.
  replace (o + 0x29 + 2) with (o + 0x2B) by lia.
  apply little_endian_24; apply byte_or_0_range.
Qed.

End RowFields.

(** X4 ([STFS_InitFS], the body of its [while] loop): a record whose first
    byte is not 0 adds one row to the table and the loop goes on 64 bytes
    further.  The row holds: as name length the low 6 bits of the byte at
    [0x28] and as flags its top 2 bits; as parent the big-endian 16 bits at
    [0x32]; as size the big-endian 32 bits at [0x34], read as a signed
    number; as starting block and number of blocks the little-endian 24 bits
    at [0x2F] and at [0x29]; and a name of at most name-length characters. *)
Theorem InitFS_row_fields (buf : list byte) (st : State) (fuel : nat) (o : Z)
    (rows : list FileEntry) :
  readable buf st ->
  STFS_PackageLoaded st = true ->
  STFS_FileTable st = TArray rows ->
  JS.eq0 (view_get buf o) = false ->
  exists row,
    scan_records (S fuel) o st
    = scan_records fuel (o + 0x40) (set_FileTable (TArray (rows ++ [row])) st) /\
    nameLength row = byte_or_0 buf (o + 0x28) mod 64 /\
    flags row = byte_or_0 buf (o + 0x28) / 64 /\
    parentDirectory row = byte_or_0 buf (o + 0x32) * 256 + byte_or_0 buf (o + 0x33) /\
    fileSize row
    = JS.ToInt32 (byte_or_0 buf (o + 0x34) * 16777216 + byte_or_0 buf (o + 0x35) * 65536
                  + byte_or_0 buf (o + 0x36) * 256 + byte_or_0 buf (o + 0x37)) /\
    startingBlock row
    = byte_or_0 buf (o + 0x2F) + byte_or_0 buf (o + 0x30) * 256
      + byte_or_0 buf (o + 0x31) * 65536 /\
    numOfBlocks row
    = byte_or_0 buf (o + 0x29) + byte_or_0 buf (o + 0x2A) * 256
      + byte_or_0 buf (o + 0x2B) * 65536 /\
    Z.of_nat (String.length (fileName row)) <= nameLength row.
Proof.
  intros Hst Hl Ht Hnz. exists (row_at buf o).
  split; [apply scan_records_row; assumption |].
  split; [apply row_nameLength |].
  split; [apply row_flags |].
  split.
  { unfold row_at. cbn [parentDirectory]. rewrite u16_value.
    replace (o + 0x32 + 1) with (o + 0x33) by lia. reflexivity. }
  split.
  { unfold row_at. cbn [fileSize]. rewrite u32_value.
    replace (o + 0x34 + 1) with (o + 0x35) by lia.
    replace (o + 0x34 + 2) with (o + 0x36) by lia.
    replace (o + 0x36 + 1) with (o + 0x37) by lia. reflexivity. }
  split; [apply row_startingBlock |].
  split; [apply row_numOfBlocks |].
  pose proof (row_nameLength buf o) as Hn.
  assert (0 <= nameLength (row_at buf o)).
  { rewrite Hn. apply Z.mod_pos_bound. lia. }
  change (fileName (row_at buf o))
    with (ascii_of buf (Z.to_nat (nameLength (row_at buf o))) o EmptyString).
  pose proof (ascii_of_length buf (Z.to_nat (nameLength (row_at buf o))) o EmptyString)
    as Hlen.
  cbn [String.length] in Hlen. lia.
Qed.

Lemma InitFS_row_fields_witness :
  exists row,
    scan_records 1 0xD000 (set_FileTable (TArray []) two_block_state)
    = scan_records 0 (0xD000 + 0x40)
        (set_FileTable (TArray ([] ++ [row])) (set_FileTable (TArray []) two_block_state)) /\
    startingBlock row = 2 /\ numOfBlocks row = 1 /\ fileSize row = 5.
Proof.
  assert (E : two_block_state
              = set_PackageLoaded true (stored two_block_image initial_state)).
  { apply fresh_load; [left; vm_compute; reflexivity | vm_compute; reflexivity]. }
  destruct (InitFS_row_fields two_block_image
              (set_FileTable (TArray []) two_block_state) 0 0xD000 [])
    as (row & Hrun & _ & _ & _ & Hsize & Hstart & Hnum & _).
  - rewrite E. split; reflexivity.
  - rewrite E. reflexivity.
  - reflexivity.
  - vm_compute. reflexivity.
  - exists row. split; [exact Hrun |].
    split; [rewrite Hstart; vm_compute; reflexivity |].
    split; [rewrite Hnum; vm_compute; reflexivity |].
    rewrite Hsize. vm_compute. reflexivity.
Defined.

(** X5 ([STFS_BlockToOffset]): data blocks do not overlap.  For either
    table-size shift and 24-bit block numbers [a < b], the offsets are
    multiples of the block size at or after [0xC000], and the 4096 bytes of
    block [a] end at or before the offset of block [b]. *)
Theorem data_blocks_disjoint (st : State) (a b : Z) :
  STFS_TableSizeShift st = 0 \/ STFS_TableSizeShift st = 1 ->
  0 <= a -> a < b -> b <= 0xFFFFFF ->
  exists oa ob,
    STFS_BlockToOffset a st = (Ok oa, st) /\
    STFS_BlockToOffset b st = (Ok ob, st) /\
    0xC000 <= oa /\ oa mod 0x1000 = 0 /\ oa + 0x1000 <= ob.
Proof.
  intros Hs Ha Hab Hb.
  assert (Hs' : 0 <= STFS_TableSizeShift st <= 1) by lia.
  eexists _, _. split; [| split].
  - apply BlockToOffset_value; lia.
  - apply BlockToOffset_value; lia.
  - pose proof (skipped_mono (STFS_TableSizeShift st) a b ltac:(lia) ltac:(lia)).
    pose proof (skipped_mono (STFS_TableSizeShift st) 0 a ltac:(lia) ltac:(lia)) as H0.
    change (skipped (STFS_TableSizeShift st) 0) with 0 in H0.
    split; [lia | split; [| lia]].
    replace (49152 + (a + skipped (STFS_TableSizeShift st) a) * 4096)
      with ((12 + a + skipped (STFS_TableSizeShift st) a) * 4096) by lia.
    apply Z.mod_mul. lia.
Qed.

Lemma data_blocks_disjoint_witness :
  exists oa ob,
    STFS_BlockToOffset 0xA9 initial_state = (Ok oa, initial_state) /\
    STFS_BlockToOffset 0xAA initial_state = (Ok ob, initial_state) /\
    0xC000 <= oa /\ oa mod 0x1000 = 0 /\ oa + 0x1000 <= ob.
Proof.
  apply (data_blocks_disjoint initial_state 0xA9 0xAA).
  - left. reflexivity.
  - lia.
  - lia.
  - lia.
Defined.

(** X6 ([STFS_BlockToHashOffset] against [STFS_BlockToOffset]): with
    table-size shift 0, the chain record of a 24-bit block [b] is record
    [b mod 170], 24 bytes long, of the 4096-byte block that ends where the
    data of the first block of the group of 170 that holds [b] begins. *)
Theorem chain_record_precedes_group (st : State) (b : Z) :
  STFS_TableSizeShift st = 0 -> 0 <= b <= 0xFFFFFF ->
  exists h o,
    STFS_BlockToHashOffset b st = (Ok h, st) /\
    STFS_BlockToOffset (b - b mod 0xAA) st = (Ok o, st) /\
    h = o - 0x1000 + b mod 0xAA * 0x18 /\
    o - 0x1000 <= h /\ h + 0x18 <= o.
Proof.
  intros Hs Hb.
  assert (Hr : 0 <= b mod 0xAA < 0xAA) by (apply Z.mod_pos_bound; lia).
  assert (Hq : 0 <= b / 0xAA) by (apply Z.div_pos; lia).
  assert (Eb : b = 0xAA * (b / 0xAA) + b mod 0xAA) by (apply Z.div_mod; lia).
  assert (E0 : b - b mod 0xAA = b / 0xAA * 0xAA) by lia.
  eexists _, _. split; [| split; [| split]].
  - apply BlockToHashOffset_value0; assumption.
  - apply BlockToOffset_value; [lia | lia].
  - rewrite Hs. unfold hash_table_index0, skipped. rewrite E0.
    rewrite Z.div_mul by lia.
    assert (E1 : b / 0x70E4 = b / 0xAA / 0xAA).
    { rewrite Z.div_div by lia. reflexivity. }
    assert (E2 : b / 0xAA * 0xAA / 0x70E4 = b / 0xAA / 0xAA).
    { change 0x70E4 with (0xAA * 0xAA). rewrite <- Z.div_div by lia.
      rewrite Z.div_mul by lia. reflexivity. }
    rewrite E1, E2.
    assert (Hqq : 0 <= b / 0xAA / 0xAA) by (apply Z.div_pos; lia).
    assert (Eq : b / 0xAA = 0xAA * (b / 0xAA / 0xAA) + (b / 0xAA) mod 0xAA)
      by (apply Z.div_mod; lia).
    assert (Hrq : 0 <= (b / 0xAA) mod 0xAA < 0xAA) by (apply Z.mod_pos_bound; lia).
    change (2 ^ 0) with 1.
    destruct (Z.leb_spec 0xAA b), (Z.leb_spec 0xAA (b / 0xAA * 0xAA)); try lia;
      destruct (Z.leb_spec 0x70E4 b), (Z.leb_spec 0x70E4 (b / 0xAA * 0xAA)); lia.
  - rewrite Hs. unfold hash_table_index0, skipped. rewrite E0.
    rewrite Z.div_mul by lia.
    assert (E1 : b / 0x70E4 = b / 0xAA / 0xAA).
    { rewrite Z.div_div by lia. reflexivity. }
    assert (E2 : b / 0xAA * 0xAA / 0x70E4 = b / 0xAA / 0xAA).
    { change 0x70E4 with (0xAA * 0xAA). rewrite <- Z.div_div by lia.
      rewrite Z.div_mul by lia. reflexivity. }
    rewrite E1, E2.
    assert (Hqq : 0 <= b / 0xAA / 0xAA) by (apply Z.div_pos; lia).
    assert (Eq : b / 0xAA = 0xAA * (b / 0xAA / 0xAA) + (b / 0xAA) mod 0xAA)
      by (apply Z.div_mod; lia).
    assert (Hrq : 0 <= (b / 0xAA) mod 0xAA < 0xAA) by (apply Z.mod_pos_bound; lia).
    change (2 ^ 0) with 1.
    destruct (Z.leb_spec 0xAA b), (Z.leb_spec 0xAA (b / 0xAA * 0xAA)); try lia;
      destruct (Z.leb_spec 0x70E4 b), (Z.leb_spec 0x70E4 (b / 0xAA * 0xAA)); lia.
Qed.

Lemma chain_record_precedes_group_witness :
  exists h o,
    STFS_BlockToHashOffset 0x70E5 initial_state = (Ok h, initial_state) /\
    STFS_BlockToOffset (0x70E5 - 0x70E5 mod 0xAA) initial_state = (Ok o, initial_state) /\
    h = o - 0x1000 + 0x70E5 mod 0xAA * 0x18 /\
    o - 0x1000 <= h /\ h + 0x18 <= o.
Proof.
  apply (chain_record_precedes_group initial_state 0x70E5).
  - reflexivity.
  - lia.
Defined.

(** ** Writing, then reading *)

Section Writes.

Lemma set_FileBuffer_same st buf :
  STFS_FileBuffer st = Some buf -> set_FileBuffer (Some buf) st = st.
Proof. intros H. destruct st; cbn in *. subst. reflexivity. Qed.

Lemma run_view_write st buf o v :
  STFS_FileBuffer st = Some buf ->
  view_write o v st = (Ok tt, set_FileBuffer (Some (poke_byte o v buf)) st).
Proof.
  intros Hb. unfold view_write, bind, gets, poke_byte. rewrite Hb.
  destruct (o <? 0); [| reflexivity].
  unfold ret. rewrite set_FileBuffer_same by assumption. reflexivity.
Qed.

Lemma run_Write8 st buf o i :
  STFS_PackageLoaded st = true -> STFS_FileBuffer st = Some buf ->
  STFS_Write8 o i st
  = (Ok tt, set_FileBuffer (Some (poke_byte o (JS.and i 0xff) buf)) st).
Proof.
  intros Hl Hb. unfold STFS_Write8.
  rewrite (bind_Ok _ _ _ _ _ (run_require_loaded st Hl)).
  apply run_view_write, Hb.
Qed.

Lemma run_Write16 st buf o i :
  STFS_PackageLoaded st = true -> STFS_FileBuffer st = Some buf ->
  STFS_Write16 o i st = (Ok tt, set_FileBuffer (Some (poke16 o i buf)) st).
Proof.
  intros Hl Hb. unfold STFS_Write16.
  rewrite (bind_Ok _ _ _ _ _ (run_require_loaded st Hl)).
  rewrite (bind_Ok _ _ _ _ _ (run_Write8 st buf o _ Hl Hb)).
  rewrite (run_Write8 _ (poke_byte o (JS.and (JS.and (JS.sar i 8) 0xff) 0xff) buf)
             (o + 1) _); [reflexivity | exact Hl | reflexivity].
Qed.

Lemma run_Write32 st buf o i :
  STFS_PackageLoaded st = true -> STFS_FileBuffer st = Some buf ->
  STFS_Write32 o i st = (Ok tt, set_FileBuffer (Some (poke32 o i buf)) st).
Proof.
  intros Hl Hb. unfold STFS_Write32.
  rewrite (bind_Ok _ _ _ _ _ (run_require_loaded st Hl)).
  rewrite (bind_Ok _ _ _ _ _ (run_Write16 st buf o _ Hl Hb)).
  rewrite (run_Write16 _ (poke16 o (JS.and (JS.sar i 16) 0xffff) buf) (o + 2) _);
    [reflexivity | exact Hl | reflexivity].
Qed.

(** The bytes of a buffer after a store. *)
Lemma length_poke_byte o v (buf : list byte) :
  length (poke_byte o v buf) = length buf.
Proof. unfold poke_byte. destruct (o <? 0); [reflexivity | apply length_insert]. Qed.

Lemma view_get_poke_byte_eq o v (buf : list byte) :
  0 <= o < Z.of_nat (length buf) ->
  view_get (poke_byte o v buf) o = JS.num (byte_val (byte_of_Z v)).
Proof.
  intros Ho. unfold view_get, poke_byte.
  destruct (Z.ltb_spec o 0); [lia |].
  rewrite list_lookup_insert_eq by lia. reflexivity.
Qed.

Lemma view_get_poke_byte_ne o v (buf : list byte) j :
  j <> o -> view_get (poke_byte o v buf) j = view_get buf j.
Proof.
  intros Hj. unfold view_get, poke_byte.
  destruct (Z.ltb_spec j 0); [reflexivity |].
  destruct (Z.ltb_spec o 0); [reflexivity |].
  rewrite list_lookup_insert_ne by lia. reflexivity.
Qed.

Lemma and_ones x k :
  0 <= k <= 30 -> JS.and x (Z.ones k) = JS.ToInt32 x mod 2 ^ k.
Proof.
  intros Hk. unfold JS.and.
  assert (Hp : 0 < 2 ^ k <= 2 ^ 30).
  { split; [apply Z.pow_pos_nonneg; lia | apply Z.pow_le_mono_r; lia]. }
  change (2 ^ 30) with 1073741824 in Hp.
  rewrite (ToInt32_small (Z.ones k)) by (rewrite Z.ones_equiv; lia).
  apply Z.land_ones. lia.
Qed.

Lemma byte_val_byte_of_Z v : byte_val (byte_of_Z v) = JS.ToInt32 v mod 256.
Proof.
  unfold byte_val, byte_of_Z.
  assert (E : JS.and v 255 = JS.ToInt32 v mod 256) by (apply (and_ones v 8); lia).
  rewrite E.
  assert (Hr : 0 <= JS.ToInt32 v mod 256 < 256) by (apply Z.mod_pos_bound; lia).
  destruct (Byte.of_N (Z.to_N (JS.ToInt32 v mod 256))) as [b |] eqn:Hb.
  - apply Byte.to_of_N in Hb. rewrite Hb. lia.
  - apply Byte.of_N_None_iff in Hb. lia.
Qed.

End Writes.

Section WriteRead.

Lemma sar_value x n : 0 <= n < 32 -> JS.sar x n = JS.ToInt32 x / 2 ^ n.
Proof.
  intros Hn. unfold JS.sar. replace (Z.land n 31) with n.
  - apply Z.shiftr_div_pow2. lia.
  - change 31 with (Z.ones 5). rewrite Z.land_ones by lia.
    symmetry. apply Z.mod_small. change (2 ^ 5) with 32. lia.
Qed.

Lemma and_255 x : JS.and x 255 = JS.ToInt32 x mod 256.
Proof. apply (and_ones x 8). lia. Qed.

Lemma and_255_small x : 0 <= x < 2147483648 -> JS.and x 255 = x mod 256.
Proof. intros Hx. rewrite and_255. rewrite ToInt32_small by lia. reflexivity. Qed.

(** The two bytes [STFS_Write16] stores for a 16-bit number. *)
Lemma byte_hi16 x :
  0 <= x < 65536 ->
  byte_val (byte_of_Z (JS.and (JS.and (JS.sar x 8) 0xff) 0xff)) = x / 256.
Proof.
  intros Hx. rewrite byte_val_byte_of_Z.
  rewrite sar_small by lia. change (2 ^ 8) with 256.
  assert (Hq : 0 <= x / 256 < 256).
  { split; [apply Z.div_pos; lia | apply Z.div_lt_upper_bound; lia]. }
  rewrite (and_255_small (x / 256)) by lia.
  rewrite (Z.mod_small (x / 256)) by lia.
  rewrite (and_255_small (x / 256)) by lia.
  rewrite (Z.mod_small (x / 256)) by lia.
  rewrite ToInt32_small by lia. apply Z.mod_small. lia.
Qed.

Lemma byte_lo16 x :
  0 <= x < 65536 ->
  byte_val (byte_of_Z (JS.and (JS.and x 0xff) 0xff)) = x mod 256.
Proof.
  intros Hx. rewrite byte_val_byte_of_Z.
  assert (Hr : 0 <= x mod 256 < 256) by (apply Z.mod_pos_bound; lia).
  rewrite (and_255_small x) by lia.
  rewrite (and_255_small (x mod 256)) by lia.
  rewrite Z.mod_mod by lia.
  rewrite ToInt32_small by lia. apply Z.mod_mod. lia.
Qed.

Lemma length_poke16 p x (b : list byte) : length (poke16 p x b) = length b.
Proof. unfold poke16. rewrite !length_poke_byte. reflexivity. Qed.

Lemma poke16_hi p x (b : list byte) :
  0 <= p -> p + 2 <= Z.of_nat (length b) -> 0 <= x < 65536 ->
  byte_or_0 (poke16 p x b) p = x / 256.
Proof.
  intros Hp Hlen Hx. unfold byte_or_0, poke16.
  rewrite view_get_poke_byte_ne by lia.
  rewrite view_get_poke_byte_eq by lia. cbn [JS.int32_of_elem].
  rewrite byte_hi16 by assumption.
  apply ToInt32_small.
  assert (0 <= x / 256 < 256)
    by (split; [apply Z.div_pos; lia | apply Z.div_lt_upper_bound; lia]).
  lia.
Qed.

Lemma poke16_lo p x (b : list byte) :
  0 <= p -> p + 2 <= Z.of_nat (length b) -> 0 <= x < 65536 ->
  byte_or_0 (poke16 p x b) (p + 1) = x mod 256.
Proof.
  intros Hp Hlen Hx. unfold byte_or_0, poke16.
  rewrite view_get_poke_byte_eq by (rewrite length_poke_byte; lia).
  cbn [JS.int32_of_elem]. rewrite byte_lo16 by assumption.
  apply ToInt32_small.
  assert (0 <= x mod 256 < 256) by (apply Z.mod_pos_bound; lia). lia.
Qed.

Lemma poke16_other p x (b : list byte) j :
  j <> p -> j <> p + 1 -> view_get (poke16 p x b) j = view_get b j.
Proof.
  intros H1 H2. unfold poke16. rewrite !view_get_poke_byte_ne by lia. reflexivity.
Qed.

Lemma length_poke32 o i (b : list byte) : length (poke32 o i b) = length b.
Proof. unfold poke32. rewrite !length_poke16. reflexivity. Qed.

Lemma poke32_other o i (b : list byte) j :
  j < o \/ o + 4 <= j -> view_get (poke32 o i b) j = view_get b j.
Proof.
  intros Hj. unfold poke32. rewrite !poke16_other by lia. reflexivity.
Qed.

Lemma hi16_range i : 0 <= JS.and (JS.sar i 16) 0xffff < 65536.
Proof. apply (and_mask_range _ 16). lia. Qed.
Lemma lo16_range i : 0 <= JS.and i 0xffff < 65536.
Proof. apply (and_mask_range _ 16). lia. Qed.

(** The word read back at the place of a 32-bit store. *)
Lemma u32_poke32 o i (b : list byte) :
  0 <= o -> o + 4 <= Z.of_nat (length b) ->
  u32 (poke32 o i b) o = JS.ToInt32 i.
Proof.
  intros Ho Hlen. rewrite u32_value.
  pose proof (hi16_range i) as Hhi. pose proof (lo16_range i) as Hlo.
  assert (B0 : byte_or_0 (poke32 o i b) o = JS.and (JS.sar i 16) 0xffff / 256).
  { unfold poke32, byte_or_0. rewrite poke16_other by lia.
    apply poke16_hi; lia. }
  assert (B1 : byte_or_0 (poke32 o i b) (o + 1) = JS.and (JS.sar i 16) 0xffff mod 256).
  { unfold poke32, byte_or_0. rewrite poke16_other by lia.
    apply poke16_lo; lia. }
  assert (B2 : byte_or_0 (poke32 o i b) (o + 2) = JS.and i 0xffff / 256).
  { unfold poke32. apply poke16_hi; [lia | rewrite length_poke16; lia | lia]. }
  assert (B3 : byte_or_0 (poke32 o i b) (o + 2 + 1) = JS.and i 0xffff mod 256).
  { unfold poke32. apply poke16_lo; [lia | rewrite length_poke16; lia | lia]. }
  rewrite B0, B1, B2, B3.
  assert (Ehi : JS.and (JS.sar i 16) 0xffff = JS.ToInt32 i / 65536 mod 65536).
  { change 65535 with (Z.ones 16). rewrite and_ones by lia.
    rewrite sar_value by lia. change (2 ^ 16) with 65536.
    pose proof (ToInt32_range i).
    rewrite (ToInt32_small (JS.ToInt32 i / 65536)); [reflexivity |].
    Z.div_mod_to_equations. lia. }
  assert (Elo : JS.and i 0xffff = JS.ToInt32 i mod 65536).
  { change 65535 with (Z.ones 16). rewrite and_ones by lia. reflexivity. }
  rewrite Ehi, Elo.
  pose proof (ToInt32_range i) as Hw.
  generalize dependent (JS.ToInt32 i). intros w _ _ Hw.
  assert (Es : w / 65536 mod 65536 / 256 * 16777216
               + w / 65536 mod 65536 mod 256 * 65536
               + w mod 65536 / 256 * 256 + w mod 65536 mod 256
               = w mod 4294967296).
  { Z.div_mod_to_equations. lia. }
  rewrite Es. unfold JS.ToInt32.
  change (2 ^ 31) with 2147483648. change (2 ^ 32) with 4294967296.
  Z.div_mod_to_equations. lia.
Qed.

End WriteRead.

(** X7 ([STFS_Write32] then [STFS_Read32]): on a loaded package, a 32-bit
    store at an offset whose four bytes lie in the buffer succeeds; a read
    at the same offset then returns the number stored, as a signed 32-bit
    number; the buffer keeps its length and its bytes elsewhere. *)
Theorem Write32_then_Read32 (st : State) (buf : list byte) (o v : Z) :
  STFS_PackageLoaded st = true ->
  readable buf st ->
  0 <= o -> o + 4 <= Z.of_nat (length buf) ->
  exists buf',
    STFS_Write32 o v st = (Ok tt, set_FileBuffer (Some buf') st) /\
    STFS_Read32 o (set_FileBuffer (Some buf') st)
    = (Ok (JS.ToInt32 v), set_FileBuffer (Some buf') st) /\
    length buf' = length buf /\
    forall j, j < o \/ o + 4 <= j -> view_get buf' j = view_get buf j.
Proof.
  intros Hl [Hd Hb] Ho Hlen. exists (poke32 o v buf).
  split; [apply run_Write32; assumption |].
  split.
  - rewrite (run_Read32 (poke32 o v buf)); [| split; [exact Hd | reflexivity]].
    rewrite u32_poke32 by assumption. reflexivity.
  - split; [apply length_poke32 | apply poke32_other].
Qed.

Lemma Write32_then_Read32_witness :
  exists buf',
    STFS_Write32 0x360 0xFFFE07D1 chain_state
    = (Ok tt, set_FileBuffer (Some buf') chain_state) /\
    STFS_Read32 0x360 (set_FileBuffer (Some buf') chain_state)
    = (Ok (JS.ToInt32 0xFFFE07D1), set_FileBuffer (Some buf') chain_state) /\
    length buf' = length chain_image /\
    forall j, j < 0x360 \/ 0x360 + 4 <= j -> view_get buf' j = view_get chain_image j.
Proof.
  assert (E : chain_state = set_PackageLoaded true (stored chain_image initial_state)).
  { apply fresh_load; [left; vm_compute; reflexivity | vm_compute; reflexivity]. }
  apply (Write32_then_Read32 chain_state chain_image 0x360 0xFFFE07D1).
  - rewrite E. reflexivity.
  - rewrite E. split; reflexivity.
  - lia.
  - vm_compute. discriminate.
Defined.

Section HeaderFields.

Lemma u32_same_bytes (buf buf' : list byte) o :
  (forall j, o <= j < o + 4 -> view_get buf' j = view_get buf j) ->
  u32 buf' o = u32 buf o.
Proof.
  intros H. unfold u32, u16.
  rewrite (H o), (H (o + 1)), (H (o + 2)), (H (o + 2 + 1)) by lia. reflexivity.
Qed.

Lemma run_GetField st buf o :
  STFS_PackageLoaded st = true -> readable buf st ->
  bind require_loaded (fun _ => STFS_Read32 o) st = (Ok (u32 buf o), st).
Proof.
  intros Hl Hst. rewrite (bind_Ok _ _ _ _ _ (run_require_loaded st Hl)).
  apply run_Read32, Hst.
Qed.

End HeaderFields.

(** X8 ([STFS_SetTitleID], [STFS_GetTitleID], [STFS_GetContentType],
    [STFS_GetFileType]): on a loaded package, the title ID read back after
    [STFS_SetTitleID(t)] is [t] as a signed 32-bit number, so a title ID
    from [0x80000000] on comes back negative; the content type and the file
    type read as before. *)
Theorem SetTitleID_then_GetTitleID (st : State) (buf : list byte) (t : Z) :
  STFS_PackageLoaded st = true ->
  readable buf st ->
  0x971A < Z.of_nat (length buf) ->
  exists st',
    STFS_SetTitleID t st = (Ok tt, st') /\
    STFS_GetTitleID st' = (Ok (JS.ToInt32 t), st') /\
    result STFS_GetContentType st' = result STFS_GetContentType st /\
    result STFS_GetFileType st' = result STFS_GetFileType st.
Proof.
  intros Hl Hst Hlen. destruct Hst as [Hd Hb].
  pose (buf' := poke32 0x360 t buf).
  pose (st' := set_FileBuffer (Some buf') st).
  assert (Hl' : STFS_PackageLoaded st' = true) by exact Hl.
  assert (Hst' : readable buf' st') by (split; [exact Hd | reflexivity]).
  exists st'.
  split.
  { unfold STFS_SetTitleID.
    rewrite (bind_Ok _ _ _ _ _ (run_require_loaded st Hl)).
    apply run_Write32; assumption. }
  split.
  { unfold STFS_GetTitleID. rewrite (run_GetField st' buf' 0x360 Hl' Hst').
    unfold buf'. rewrite u32_poke32 by lia. reflexivity. }
  split.
  - unfold result, STFS_GetContentType.
    rewrite (run_GetField st' buf' 0x344 Hl' Hst').
    rewrite (run_GetField st buf 0x344 Hl (conj Hd Hb)). cbn [fst]. f_equal.
    apply u32_same_bytes. intros j Hj. apply poke32_other. lia.
  - unfold result, STFS_GetFileType.
    rewrite (run_GetField st' buf' 0 Hl' Hst').
    rewrite (run_GetField st buf 0 Hl (conj Hd Hb)). cbn [fst]. f_equal.
    apply u32_same_bytes. intros j Hj. apply poke32_other. lia.
Qed.

Lemma SetTitleID_then_GetTitleID_witness :
  exists st',
    STFS_SetTitleID 0xFFFE07D1 chain_state = (Ok tt, st') /\
    STFS_GetTitleID st' = (Ok (JS.ToInt32 0xFFFE07D1), st') /\
    result STFS_GetContentType st' = result STFS_GetContentType chain_state /\
    result STFS_GetFileType st' = result STFS_GetFileType chain_state.
Proof.
  assert (E : chain_state = set_PackageLoaded true (stored chain_image initial_state)).
  { apply fresh_load; [left; vm_compute; reflexivity | vm_compute; reflexivity]. }
  apply (SetTitleID_then_GetTitleID chain_state chain_image 0xFFFE07D1).
  - rewrite E. reflexivity.
  - rewrite E. split; reflexivity.
  - vm_compute. reflexivity.
Defined.

(** ** Extraction of a whole file *)

Section WholeFile.

Variable buf : list byte.
Variable st : State.
Hypothesis Hbuf : STFS_FileBuffer st = Some buf.

(** The loop copies the first [readRemaining] bytes of the blocks. *)
Lemma read_loop_exact blocks : forall readRemaining blockArrays,
  Forall (block_in_buffer st buf) blocks ->
  0 <= readRemaining <= 0x1000 * Z.of_nat (length blocks) ->
  exists out,
    read_loop blocks readRemaining blockArrays st = (Ok out, st) /\
    concat out
    = concat blockArrays
      ++ take (Z.to_nat readRemaining) (concat (map (block_bytes st buf) blocks)).
Proof.
  induction blocks as [| b blocks IH]; intros readRemaining blockArrays Hin Hrem.
  - exists blockArrays. split; [reflexivity |].
    cbn [map concat]. rewrite take_nil, app_nil_r. reflexivity.
  - inversion Hin as [| ? ? Hb Hin']; subst.
    pose proof (block_bytes_length buf st b Hb) as Hlenb.
    destruct Hb as (o & Ho & Ho0 & Hoend).
    assert (Ebytes : block_bytes st buf b = take (Z.to_nat 0x1000) (drop (Z.to_nat o) buf)).
    { unfold block_bytes, result. rewrite Ho. reflexivity. }
    cbn [length] in Hrem. cbn [read_loop map concat].
    rewrite (bind_Ok _ _ _ _ _ Ho).
    destruct (Z.ltb_spec readRemaining 0x1000) as [Hlt | Hge].
    + rewrite (bind_Ok _ _ _ _ _
                 (run_new_view buf st Hbuf o readRemaining Ho0 ltac:(lia) ltac:(lia))).
      cbv zeta. destruct (Z.leb_spec (readRemaining - 0x1000) 0); [| lia].
      eexists. split; [reflexivity |].
      rewrite concat_app. cbn [concat]. rewrite app_nil_r. f_equal.
      rewrite take_app_le by lia. rewrite Ebytes.
      rewrite take_take. f_equal. lia.
    + rewrite (bind_Ok _ _ _ _ _
                 (run_new_view buf st Hbuf o 0x1000 Ho0 ltac:(lia) Hoend)).
      cbv zeta. rewrite <- Ebytes.
      destruct (Z.leb_spec (readRemaining - 0x1000) 0) as [Hle | Hgt].
      * eexists. split; [reflexivity |].
        rewrite concat_app. cbn [concat]. rewrite app_nil_r. f_equal.
        rewrite take_app_le by lia. rewrite take_ge by lia. reflexivity.
      * destruct (IH (readRemaining - 0x1000) (blockArrays ++ [block_bytes st buf b])
                    Hin' ltac:(lia)) as (out & Hout & Hcat).
        exists out. split; [exact Hout |].
        rewrite Hcat. rewrite concat_app. cbn [concat]. rewrite app_nil_r.
        rewrite <- app_assoc. f_equal.
        rewrite take_app_ge by lia. f_equal. f_equal. lia.
Qed.

End WholeFile.

(** X9 ([STFS_ReadFile]): for a row that is not a directory, when the walk
    returns blocks that all lie in the buffer and [fileSize] is between 0
    and 4096 bytes per block, the call returns exactly [fileSize] bytes:
    the first [fileSize] bytes of the data of the blocks, in the order of
    the chain; the state is unchanged. *)
Theorem ReadFile_returns_file_bytes
    (st : State) (buf : list byte) (file : FileEntry) (blocks : list Z) :
  STFS_FileBuffer st = Some buf ->
  JS.and (flags file) 2 <> 2 ->
  STFS_GetBlocksFromBlock (startingBlock file) (numOfBlocks file) st = (Ok blocks, st) ->
  Forall (block_in_buffer st buf) blocks ->
  0 <= fileSize file <= 0x1000 * Z.of_nat (length blocks) ->
  exists data,
    STFS_ReadFile file st = (Ok data, st) /\
    data = take (Z.to_nat (fileSize file)) (concat (map (block_bytes st buf) blocks)) /\
    Z.of_nat (length data) = fileSize file.
Proof.
  intros Hbuf Hfile Hwalk Hin Hsize.
  destruct (read_loop_exact buf st Hbuf blocks (fileSize file) [] Hin Hsize)
    as (out & Hout & Hcat).
  cbn [concat app] in Hcat.
  exists (concat out). unfold STFS_ReadFile.
  destruct (Z.eqb_spec (JS.and (flags file) 2) 2) as [E | _]; [contradiction |].
  rewrite (bind_Ok _ _ _ _ _ Hwalk). rewrite (bind_Ok _ _ _ _ _ Hout).
  split; [reflexivity | split; [exact Hcat |]].
  rewrite Hcat. rewrite length_take.
  pose proof (blocks_bytes_length buf st blocks Hin). lia.
Qed.

Lemma ReadFile_returns_file_bytes_witness :
  exists data,
    STFS_ReadFile small_file truncated_state = (Ok data, truncated_state) /\
    data = take (Z.to_nat (fileSize small_file))
             (concat (map (block_bytes truncated_state truncated_image) [0])) /\
    Z.of_nat (length data) = fileSize small_file.
Proof.
  assert (E : truncated_state
              = set_PackageLoaded true (stored truncated_image initial_state)).
  { apply fresh_load; [left; vm_compute; reflexivity | vm_compute; reflexivity]. }
  apply (ReadFile_returns_file_bytes truncated_state truncated_image small_file [0]).
  - rewrite E. reflexivity.
  - vm_compute. discriminate.
  - apply readonly_run; [apply readonly_blocks_loop | vm_compute; reflexivity].
  - constructor; [| constructor]. exists 0xC000. rewrite E.
    split; [reflexivity | split; [lia | vm_compute; discriminate]].
  - vm_compute. split; discriminate.
Defined.

Section NoBuffer.

Variable st : State.
Hypothesis Hnull : STFS_FileBuffer st = None.

(** With [null] for the buffer every view is an empty array. *)
Lemma read_loop_null blocks : forall readRemaining blockArrays,
  exists out,
    read_loop blocks readRemaining blockArrays st = (Ok out, st) /\
    concat out = concat blockArrays.
Proof.
  induction blocks as [| b blocks IH]; intros readRemaining blockArrays.
  - exists blockArrays. split; reflexivity.
  - cbn [read_loop].
    destruct (BlockToOffset_runs st b) as [o Ho].
    rewrite (bind_Ok _ _ _ _ _ Ho).
    assert (Hv : forall len, new_view o len st = (Ok [], st)).
    { intros len. unfold new_view, bind, gets. rewrite Hnull. reflexivity. }
    rewrite (bind_Ok _ _ _ _ _ (Hv _)). cbv zeta.
    destruct (readRemaining - 0x1000 <=? 0).
    + eexists. split; [reflexivity |].
      rewrite concat_app. cbn [concat]. rewrite !app_nil_r. reflexivity.
    + destruct (IH (readRemaining - 0x1000) (blockArrays ++ [[]]))
        as (out & Hout & Hcat).
      exists out. split; [exact Hout |].
      rewrite Hcat, concat_app. cbn [concat]. rewrite !app_nil_r. reflexivity.
Qed.

End NoBuffer.

(** X10 ([STFS_ReadFile]): what the call refuses, and what it does not.  A
    row whose flags have bit 2 set throws the directory error in any state,
    loaded or not, before anything is read.  For any other row whose walk
    returns, when a buffer is stored a negative [fileSize] (a size field
    with the top bit set) makes the first view a [RangeError]; when none is
    stored (a fresh page, or after [STFS_Reset]) every view is empty and the
    call returns no bytes and no error, whatever [fileSize] is.  In all
    three cases the state is unchanged. *)
Theorem ReadFile_rejects (st : State) (file : FileEntry) :
  (JS.and (flags file) 2 = 2 ->
     STFS_ReadFile file st = (Throw (Str "This is a directory!"), st)) /\
  (forall buf blocks,
     JS.and (flags file) 2 <> 2 ->
     STFS_FileBuffer st = Some buf ->
     STFS_GetBlocksFromBlock (startingBlock file) (numOfBlocks file) st
     = (Ok blocks, st) ->
     fileSize file < 0 ->
     STFS_ReadFile file st = (Throw RangeError, st)) /\
  (forall blocks,
     JS.and (flags file) 2 <> 2 ->
     STFS_FileBuffer st = None ->
     STFS_GetBlocksFromBlock (startingBlock file) (numOfBlocks file) st
     = (Ok blocks, st) ->
     STFS_ReadFile file st = (Ok [], st)).
Proof.
  split; [| split].
  - intros H. unfold STFS_ReadFile. rewrite H. reflexivity.
  - intros buf blocks Hfile Hbuf Hwalk Hneg. unfold STFS_ReadFile.
    destruct (Z.eqb_spec (JS.and (flags file) 2) 2) as [E | _]; [contradiction |].
    rewrite (bind_Ok _ _ _ _ _ Hwalk).
    apply blocks_loop_shape in Hwalk. destruct Hwalk as (tail & -> & _ & _).
    cbn [app read_loop].
    destruct (BlockToOffset_runs st (startingBlock file)) as [o Ho].
    assert (Hthrow : bind (bind (STFS_BlockToOffset (startingBlock file))
                       (fun offset =>
                          bind (new_view offset
                                  (if fileSize file <? 0x1000 then fileSize file else 0x1000))
                            (fun v =>
                               if fileSize file - 0x1000 <=? 0 then ret ([] ++ [v])
                               else read_loop tail (fileSize file - 0x1000) ([] ++ [v]))))
                       (fun blockArrays => ret (concat blockArrays)) st
                     = (Throw RangeError, st)).
    { apply bind_Throw. rewrite (bind_Ok _ _ _ _ _ Ho). apply bind_Throw.
      unfold new_view, bind, gets. rewrite Hbuf.
      destruct (Z.ltb_spec (fileSize file) 0x1000); [| lia].
      destruct (Z.ltb_spec (fileSize file) 0); [| lia].
      rewrite orb_true_r. reflexivity. }
    exact Hthrow.
  - intros blocks Hfile Hnull Hwalk. unfold STFS_ReadFile.
    destruct (Z.eqb_spec (JS.and (flags file) 2) 2) as [E | _]; [contradiction |].
    rewrite (bind_Ok _ _ _ _ _ Hwalk).
    destruct (read_loop_null st Hnull blocks (fileSize file) []) as (out & Hout & Hcat).
    rewrite (bind_Ok _ _ _ _ _ Hout). unfold ret. rewrite Hcat. reflexivity.
Qed.

Lemma ReadFile_rejects_witness :
  STFS_ReadFile nested_dir initial_state
  = (Throw (Str "This is a directory!"), initial_state) /\
  STFS_ReadFile
    {| fileName := "A"; nameLength := 1; flags := 0; parentDirectory := 0xffff;
       fileSize := -1; startingBlock := 0; numOfBlocks := 1 |} truncated_state
  = (Throw RangeError, truncated_state) /\
  STFS_ReadFile
    {| fileName := "A"; nameLength := 1; flags := 0; parentDirectory := 0xffff;
       fileSize := -1; startingBlock := 0; numOfBlocks := 0 |} initial_state
  = (Ok [], initial_state).
Proof.
  assert (E : truncated_state
              = set_PackageLoaded true (stored truncated_image initial_state)).
  { apply fresh_load; [left; vm_compute; reflexivity | vm_compute; reflexivity]. }
  split; [| split].
  - apply (proj1 (ReadFile_rejects initial_state nested_dir)). reflexivity.
  - apply (proj1 (proj2 (ReadFile_rejects truncated_state _)) truncated_image [0]).
    + vm_compute. discriminate.
    + rewrite E. reflexivity.
    + apply readonly_run; [apply readonly_blocks_loop | vm_compute; reflexivity].
    + reflexivity.
  - apply (proj2 (proj2 (ReadFile_rejects initial_state _)) [0]).
    + vm_compute. discriminate.
    + reflexivity.
    + reflexivity.
Defined.

(** ** The path of a row *)

Section PathValue.

Variable st : State.
Local Abbreviation tbl := (STFS_FileTable st).

Lemma concat_cons_nonempty (sep a : string) (names : list string) :
  names <> [] ->
  String.concat sep (a :: names) = (a ++ sep ++ String.concat sep names)%string.
Proof. intros H. destruct names as [| b r]; [contradiction | reflexivity]. Qed.

Lemma path_loop_value l : forall file fuel names,
  chain_to_root tbl file l -> (length l < fuel)%nat -> names <> [] ->
  path_loop fuel file (String.concat "/" names) st
  = (Ok (String.concat "/" (map fileName (rev l) ++ names)), st).
Proof.
  induction l as [| g l IH]; intros file fuel names Hchain Hfuel Hne;
    inversion Hchain as [? Hroot | ? ? ? Hstep Hrest]; subst;
    (destruct fuel as [| fuel]; [cbn [length] in Hfuel; lia |]).
  - rewrite (path_loop_root st fuel file _ Hroot). reflexivity.
  - rewrite (path_loop_step st fuel file g _ Hstep).
    rewrite <- (concat_cons_nonempty "/" (fileName g) names Hne).
    rewrite (IH g fuel (fileName g :: names) Hrest);
      [| cbn [length] in Hfuel; lia | discriminate].
    cbn [rev]. rewrite map_app. cbn [map]. rewrite <- app_assoc. reflexivity.
Qed.

End PathValue.

(** X11 ([STFS_GetFilePath]): when the chain of parents of a row reaches
    the root through the rows [l] (nearest first), the path returned is the
    names of those rows from the outermost to the nearest, then the name of
    the row itself, joined by slashes; the state is unchanged.  When the
    parent index of the row is not the root sentinel and names no row of the
    table (or the table is [false], as after [STFS_Reset]), the call is a
    [TypeError]. *)
Theorem GetFilePath_value (st : State) (file : FileEntry) :
  (forall l fuel,
     chain_to_root (STFS_FileTable st) file l ->
     (length l < fuel)%nat ->
     STFS_GetFilePath fuel file st
     = (Ok (String.concat "/" (map fileName (rev l ++ [file]))), st)) /\
  (forall fuel,
     parentDirectory file <> 0xffff ->
     table_get (STFS_FileTable st) (parentDirectory file) = None ->
     STFS_GetFilePath (S fuel) file st = (Throw TypeError, st)).
Proof.
  split.
  - intros l fuel Hchain Hfuel. unfold STFS_GetFilePath.
    change (fileName file) with (String.concat "/" [fileName file]).
    rewrite (path_loop_value st l file fuel [fileName file] Hchain Hfuel);
      [| discriminate].
    rewrite map_app. reflexivity.
  - intros fuel Hne Hnone. unfold STFS_GetFilePath. cbn [path_loop].
    destruct (Z.eqb_spec (parentDirectory file) 0xffff) as [E | _]; [contradiction |].
    cbn [negb]. unfold bind, gets. rewrite Hnone. reflexivity.
Qed.

Lemma GetFilePath_value_witness :
  STFS_GetFilePath 2 nested_file nested_state = (Ok "D/A"%string, nested_state) /\
  STFS_GetFilePath 1 nested_file (after STFS_Reset nested_state)
  = (Throw TypeError, after STFS_Reset nested_state).
Proof.
  split.
  - apply (proj1 (GetFilePath_value nested_state nested_file) [nested_dir] 2%nat).
    + apply chain_to_root_step.
      * split; [discriminate | reflexivity].
      * apply chain_to_root_here. reflexivity.
    + cbn [length]. lia.
  - apply (proj2 (GetFilePath_value (after STFS_Reset nested_state) nested_file) 0%nat).
    + discriminate.
    + reflexivity.
Defined.

(** ** The whole table *)

Section WholeTable.

Variable buf : list byte.

Lemma BlockToOffset_table b st t o :
  STFS_BlockToOffset b st = (Ok o, st) ->
  STFS_BlockToOffset b (set_FileTable t st) = (Ok o, set_FileTable t st).
Proof.
  unfold STFS_BlockToOffset, bind, gets, ret. cbn [STFS_TableSizeShift set_FileTable].
  intros H. injection H as H. rewrite H. reflexivity.
Qed.

Lemma set_FileTable_twice t1 t2 st :
  set_FileTable t2 (set_FileTable t1 st) = set_FileTable t2 st.
Proof. reflexivity. Qed.

Lemma ends_at_table fuel b k st t :
  ends_at st buf fuel b k -> ends_at (set_FileTable t st) buf fuel b k.
Proof.
  intros (o & Ho & Hnull & Hk). exists o.
  split; [apply BlockToOffset_table, Ho | split; assumption].
Qed.

Lemma block_rows_table st t b k :
  block_rows (set_FileTable t st) buf b k = block_rows st buf b k.
Proof. reflexivity. Qed.

(** The [for] loop, when every block has a null record within the fuel. *)
Lemma scan_blocks_run fuel blocks : forall ks st rows,
  readable buf st -> STFS_PackageLoaded st = true ->
  STFS_FileTable st = TArray rows ->
  Forall2 (ends_at st buf fuel) blocks ks ->
  scan_blocks fuel blocks st
  = (Ok tt,
     set_FileTable
       (TArray (rows ++ concat (zip_with (block_rows st buf) blocks ks))) st).
Proof.
  induction blocks as [| b blocks IH]; intros ks st rows Hst Hl Ht Hends;
    inversion Hends as [| ? k ? ks' (o & Ho & [Hrows Hnull] & Hk) Hends']; subst.
  - cbn [scan_blocks zip_with concat].
    rewrite (set_FileTable_same st rows Ht). reflexivity.
  - cbn [scan_blocks zip_with concat].
    rewrite (bind_Ok _ _ _ _ _ Ho).
    rewrite (bind_Ok _ _ _ _ _
               (scan_records_run buf k st fuel o rows Hst Hl Ht Hrows Hnull Hk)).
    rewrite (IH ks' (set_FileTable (TArray (rows ++ rows_from buf o k)) st)
               (rows ++ rows_from buf o k)).
    + unfold block_rows at 2, result. rewrite Ho. cbn [fst].
      rewrite <- app_assoc. reflexivity.
    + exact Hst.
    + exact Hl.
    + reflexivity.
    + clear -Hends'. induction Hends' as [| ? ? ? ? H ? IH']; constructor.
      * apply ends_at_table, H.
      * exact IH'.
Qed.

End WholeTable.

(** X12 ([STFS_InitFS]): the table of a loaded package.  Let the scanning
    state be the state with an empty table and the table-size shift the
    header decides.  When the walk from the block at [0x37D] with the count
    at [0x37B] returns the blocks of the root chain and each of them has a
    first null record within the fuel, [STFS_InitFS] returns, and the table
    is, for each block of the chain in order, the rows of the records before
    the block's first null record. *)
Theorem InitFS_table (st : State) (buf : list byte) (fuel : nat)
    (blocks : list Z) (ks : list nat) :
  STFS_PackageLoaded st = true ->
  readable buf st ->
  STFS_GetBlocksFromBlock (u24 buf (0x379 + 0x4)) (u16 buf (0x379 + 0x2))
    (scanning_state buf st)
  = (Ok blocks, scanning_state buf st) ->
  Forall2 (ends_at (scanning_state buf st) buf fuel) blocks ks ->
  STFS_InitFS fuel st
  = (Ok tt,
     set_FileTable
       (TArray (concat (zip_with (block_rows (scanning_state buf st) buf) blocks ks)))
       (scanning_state buf st)).
Proof.
  intros Hl Hst Hwalk Hends. unfold STFS_InitFS.
  rewrite (bind_Ok _ _ _ _ _ (run_require_loaded st Hl)).
  unfold bind at 1, modify at 1.
  assert (Hst0 : readable buf (set_FileTable (TArray []) st)) by exact Hst.
  rewrite (bind_Ok _ _ _ _ _ (run_Read32 buf _ Hst0 0x340)).
  assert (Hshift :
    (if negb (JS.sar (JS.and (u32 buf 0x340 + 0xFFF) 0xF000) 0xC =? 0xB)
     then modify (set_TableSizeShift 1) else ret tt) (set_FileTable (TArray []) st)
    = (Ok tt, scanning_state buf st)).
  { unfold scanning_state, header_shift.
    destruct (negb (JS.sar (JS.and (u32 buf 0x340 + 0xFFF) 0xF000) 0xC =? 0xB)).
    - reflexivity.
    - reflexivity. }
  rewrite (bind_Ok _ _ _ _ _ Hshift). clear Hshift.
  assert (Hst1 : readable buf (scanning_state buf st)) by exact Hst.
  assert (Hl1 : STFS_PackageLoaded (scanning_state buf st) = true) by exact Hl.
  assert (Ht1 : STFS_FileTable (scanning_state buf st) = TArray []) by reflexivity.
  remember (scanning_state buf st) as st1 eqn:E1. clear E1 Hst0.
  rewrite (bind_Ok _ _ _ _ _ (run_Read24 buf st1 Hst1 (0x379 + 0x4))).
  rewrite (bind_Ok _ _ _ _ _ (run_Read16 buf st1 Hst1 (0x379 + 0x2))).
  rewrite (bind_Ok _ _ _ _ _ Hwalk).
  apply (scan_blocks_run buf fuel blocks ks st1 [] Hst1 Hl1 Ht1 Hends).
Qed.

Lemma InitFS_table_witness :
  STFS_InitFS 2 two_block_state
  = (Ok tt,
     set_FileTable
       (TArray (concat (zip_with
                  (block_rows (scanning_state two_block_image two_block_state)
                     two_block_image) [0; 1] [0%nat; 1%nat])))
       (scanning_state two_block_image two_block_state)).
Proof.
  assert (E : two_block_state
              = set_PackageLoaded true (stored two_block_image initial_state)).
  { apply fresh_load; [left; vm_compute; reflexivity | vm_compute; reflexivity]. }
  apply (InitFS_table two_block_state two_block_image 2 [0; 1] [0%nat; 1%nat]).
  - rewrite E. reflexivity.
  - rewrite E. split; reflexivity.
  - apply readonly_run; [apply readonly_blocks_loop | vm_compute; reflexivity].
  - constructor; [| constructor; [| constructor]].
    + exists 0xC000. split; [apply readonly_run; [apply readonly_BlockToOffset
                               | vm_compute; reflexivity] |].
      split; [| lia]. split; [intros j Hj; lia | vm_compute; reflexivity].
    + exists 0xD000. split; [apply readonly_run; [apply readonly_BlockToOffset
                               | vm_compute; reflexivity] |].
      split; [| lia]. split; [| vm_compute; reflexivity].
      intros j Hj. assert (j = 0%nat) as -> by lia. vm_compute. reflexivity.
Defined.

(** X13 ([STFS_Reset] then [STFS_LoadPackage], [STFS_SavePackage],
    [STFS_GetFileType]): from any state whatever, a reset followed by the
    load of a buffer longer than [0x971A] bytes that starts with a
    recognized tag succeeds and leaves the buffer stored, both flags set, the
    shift 0 and the table [false].  Then [STFS_SavePackage] gives the bytes
    back, [STFS_GetFileType] returns one of the three tag constants, and a
    second load is refused with the dirty-state error. *)
Theorem Reset_then_LoadPackage (st : State) (abuf abuf' : list byte) :
  recognized abuf ->
  0x971A < Z.of_nat (length abuf) ->
  STFS_LoadPackage abuf (after STFS_Reset st) = (Ok true, loaded_state abuf) /\
  STFS_SavePackage (loaded_state abuf) = (Ok abuf, loaded_state abuf) /\
  (result STFS_GetFileType (loaded_state abuf) = Ok STFS_CON \/
   result STFS_GetFileType (loaded_state abuf) = Ok STFS_LIVE \/
   result STFS_GetFileType (loaded_state abuf) = Ok STFS_PIRS) /\
  STFS_LoadPackage abuf' (loaded_state abuf) = (Throw DirtyState, loaded_state abuf).
Proof.
  intros Hr Hlen.
  split.
  { rewrite (LoadPackage_loaded (after STFS_Reset st) abuf);
      [reflexivity | split; reflexivity | assumption | assumption]. }
  split; [reflexivity |].
  split; [| apply LoadPackage_dirty; reflexivity].
  unfold result, STFS_GetFileType.
  rewrite (run_GetField (loaded_state abuf) abuf 0 eq_refl (conj eq_refl eq_refl)).
  cbn [fst].
  pose proof (magic_test_true abuf Hr) as Hm.
  apply orb_prop in Hm. destruct Hm as [Hm | Hm];
    [apply orb_prop in Hm; destruct Hm as [Hm | Hm] |];
    apply Z.eqb_eq in Hm; rewrite Hm; auto.
Qed.

Lemma Reset_then_LoadPackage_witness :
  STFS_LoadPackage chain_image (after STFS_Reset cyclic_state)
  = (Ok true, loaded_state chain_image) /\
  STFS_SavePackage (loaded_state chain_image)
  = (Ok chain_image, loaded_state chain_image).
Proof.
  destruct (Reset_then_LoadPackage cyclic_state chain_image [])
    as (H1 & H2 & _).
  - left. vm_compute. reflexivity.
  - vm_compute. reflexivity.
  - split; assumption.
Defined.

(** X14 ([STFS_LoadPackage], [STFS_Read8], [STFS_SavePackage] and the
    guarded accessors): the raw reads test the dirty flag, the accessors the
    loaded flag.  After a load refused for its tag, the refused buffer stays
    stored: [STFS_Read8] returns its bytes and [STFS_SavePackage] returns it
    whole, while [STFS_GetFileType] and [STFS_InitFS] throw the
    no-package error. *)
Theorem refused_buffer_stays_readable (st : State) (abuf : list byte) (o : Z)
    (fuel : nat) :
  unloaded st ->
  0x971A < Z.of_nat (length abuf) ->
  ~ recognized abuf ->
  STFS_Read8 o (after (STFS_LoadPackage abuf) st)
  = (Ok (view_get abuf o), after (STFS_LoadPackage abuf) st) /\
  result STFS_SavePackage (after (STFS_LoadPackage abuf) st) = Ok abuf /\
  result STFS_GetFileType (after (STFS_LoadPackage abuf) st) = Throw NoPackage /\
  result (STFS_InitFS fuel) (after (STFS_LoadPackage abuf) st) = Throw NoPackage.
Proof.
  intros Hu Hlen Hn.
  assert (E : after (STFS_LoadPackage abuf) st = stored abuf st).
  { unfold after. rewrite LoadPackage_past_length by assumption.
    rewrite magic_test_false by assumption. reflexivity. }
  rewrite E. destruct Hu as [Hd Hl].
  split; [apply run_Read8; split; reflexivity |].
  split; [reflexivity |].
  split.
  - unfold result, STFS_GetFileType, require_loaded, bind, gets.
    cbn [STFS_PackageLoaded stored set_FileBuffer set_Dirty]. rewrite Hl. reflexivity.
  - unfold result. rewrite InitFS_not_loaded; [reflexivity | exact Hl].
Qed.

Lemma refused_buffer_stays_readable_witness :
  STFS_Read8 0
    (after (STFS_LoadPackage (replicate (Z.to_nat 0x971B) x07)) initial_state)
  = (Ok (view_get (replicate (Z.to_nat 0x971B) x07) 0),
     after (STFS_LoadPackage (replicate (Z.to_nat 0x971B) x07)) initial_state) /\
  result STFS_GetFileType
    (after (STFS_LoadPackage (replicate (Z.to_nat 0x971B) x07)) initial_state)
  = Throw NoPackage.
Proof.
  destruct (refused_buffer_stays_readable initial_state
              (replicate (Z.to_nat 0x971B) x07) 0 0)
    as (H1 & _ & H3 & _).
  - split; reflexivity.
  - vm_compute. reflexivity.
  - intros [H | [H | H]]; vm_compute in H; discriminate H.
  - split; assumption.
Defined.

(** ** A block without a null record *)

Section NoNull.

Variable buf : list byte.

Lemma eq0_false e : e <> JS.num 0 -> JS.eq0 e = false.
Proof.
  intros H. destruct e as [| z]; [reflexivity |]. cbn [JS.eq0].
  destruct (Z.eqb_spec z 0); [subst; contradiction | reflexivity].
Qed.

Lemma view_get_beyond o :
  Z.of_nat (length buf) <= o -> view_get buf o = JS.undefined.
Proof.
  intros H. unfold view_get. destruct (Z.ltb_spec o 0); [reflexivity |].
  rewrite lookup_ge_None_2 by lia. reflexivity.
Qed.

(** The loop never ends when no record from [o] on starts with 0. *)
Lemma scan_records_endless fuel : forall st o rows,
  readable buf st -> STFS_PackageLoaded st = true ->
  STFS_FileTable st = TArray rows ->
  (forall j : nat, JS.eq0 (view_get buf (o + 0x40 * Z.of_nat j)) = false) ->
  exists rows', scan_records fuel o st = (OutOfFuel, set_FileTable (TArray rows') st).
Proof.
  induction fuel as [| fuel IH]; intros st o rows Hst Hl Ht Hnz.
  - exists rows. cbn [scan_records]. unfold diverge.
    rewrite <- (app_nil_r rows). rewrite (set_FileTable_same st rows Ht). reflexivity.
  - assert (H0 : JS.eq0 (view_get buf o) = false).
    { specialize (Hnz 0%nat). replace (o + 0x40 * Z.of_nat 0) with o in Hnz by lia.
      exact Hnz. }
    rewrite (scan_records_row buf st fuel o rows Hst Hl Ht H0).
    destruct (IH (set_FileTable (TArray (rows ++ [row_at buf o])) st) (o + 0x40)
                (rows ++ [row_at buf o]) Hst Hl eq_refl) as [rows' Hrun].
    + intros j. specialize (Hnz (S j)).
      replace (o + 0x40 + 0x40 * Z.of_nat j) with (o + 0x40 * Z.of_nat (S j)) by lia.
      exact Hnz.
    + exists rows'. rewrite Hrun. reflexivity.
Qed.

End NoNull.

Lemma walk_head x y st out st' :
  STFS_GetBlocksFromBlock x y st = (Ok out, st') -> exists tail, out = x :: tail.
Proof.
  intros H. apply blocks_loop_shape in H. destruct H as (tail & -> & _ & _).
  exists tail. reflexivity.
Qed.

Lemma scan_blocks_cons fuel b rest :
  scan_blocks fuel (b :: rest)
  = bind (STFS_BlockToOffset b) (fun offset =>
      bind (scan_records fuel offset) (fun _ => scan_blocks fuel rest)).
Proof. reflexivity. Qed.

Lemma scan_root_endless (st1 : State) (buf : list byte) (o : Z) (fuel : nat) :
  STFS_PackageLoaded st1 = true ->
  readable buf st1 ->
  STFS_FileTable st1 = TArray [] ->
  STFS_BlockToOffset (u24 buf (0x379 + 0x4)) st1 = (Ok o, st1) ->
  (forall j : nat,
     o + 0x40 * Z.of_nat j < Z.of_nat (length buf) ->
     view_get buf (o + 0x40 * Z.of_nat j) <> JS.num 0) ->
  exists st',
    bind (STFS_Read24 (0x379 + 0x4)) (fun start =>
      bind (STFS_Read16 (0x379 + 0x2)) (fun count =>
        bind (STFS_GetBlocksFromBlock start count) (fun tableBlocks =>
          scan_blocks fuel tableBlocks))) st1
    = (OutOfFuel, st').
Proof.
  intros Hl1 Hst1 Ht1 Ho Hnz.
  rewrite (bind_Ok _ _ _ _ _ (run_Read24 buf st1 Hst1 (0x379 + 0x4))).
  rewrite (bind_Ok _ _ _ _ _ (run_Read16 buf st1 Hst1 (0x379 + 0x2))).
  destruct (GetBlocksFromBlock_readable buf st1 (u24 buf (0x379 + 0x4))
              (u16 buf (0x379 + 0x2)) Hst1) as [blocks Hwalk].
  rewrite (bind_Ok _ _ _ _ _ Hwalk).
  destruct (walk_head _ _ _ _ _ Hwalk) as [tail ->].
  rewrite scan_blocks_cons.
  rewrite (bind_Ok _ _ _ _ _ Ho).
  destruct (scan_records_endless buf fuel st1 o [] Hst1 Hl1 Ht1) as [rows' Hrun].
  - intros j. apply eq0_false.
    destruct (Z.lt_ge_cases (o + 0x40 * Z.of_nat j) (Z.of_nat (length buf))) as [Hin | Hout].
    + apply Hnz, Hin.
    + rewrite view_get_beyond by lia. discriminate.
  - rewrite (bind_OutOfFuel _ _ _ _ Hrun). eexists. reflexivity.
Qed.

Lemma InitFS_endless (st : State) (buf : list byte) (o : Z) (fuel : nat) :
  STFS_PackageLoaded st = true ->
  readable buf st ->
  STFS_BlockToOffset (u24 buf (0x379 + 0x4)) (scanning_state buf st)
  = (Ok o, scanning_state buf st) ->
  (forall j : nat,
     o + 0x40 * Z.of_nat j < Z.of_nat (length buf) ->
     view_get buf (o + 0x40 * Z.of_nat j) <> JS.num 0) ->
  exists st', STFS_InitFS fuel st = (OutOfFuel, st').
Proof.
  intros Hl Hst Ho Hnz. unfold STFS_InitFS.
  rewrite (bind_Ok _ _ _ _ _ (run_require_loaded st Hl)).
  unfold bind at 1, modify at 1.
  assert (Hst0 : readable buf (set_FileTable (TArray []) st)) by exact Hst.
  rewrite (bind_Ok _ _ _ _ _ (run_Read32 buf _ Hst0 0x340)).
  assert (Hshift :
    (if negb (JS.sar (JS.and (u32 buf 0x340 + 0xFFF) 0xF000) 0xC =? 0xB)
     then modify (set_TableSizeShift 1) else ret tt) (set_FileTable (TArray []) st)
    = (Ok tt, scanning_state buf st)).
  { unfold scanning_state, header_shift.
    destruct (negb (JS.sar (JS.and (u32 buf 0x340 + 0xFFF) 0xF000) 0xC =? 0xB));
      reflexivity. }
  rewrite (bind_Ok _ _ _ _ _ Hshift).
  apply (scan_root_endless (scanning_state buf st) buf o fuel Hl Hst eq_refl Ho Hnz).
Qed.

(** X15 ([STFS_InitFS]): the scan has no bound.  On a loaded package, when
    no record of the first block of the root chain, at any 64-byte step from
    the offset of the block up to the end of the buffer, starts with a byte
    0, [STFS_InitFS] never returns: beyond the end of the buffer the reads
    give [undefined], which is not equal to 0, and the loop goes on appending
    rows.  In particular a root block that lies beyond the end of the file
    makes the call hang. *)
Theorem InitFS_hangs_without_null (st : State) (buf : list byte) (o : Z) :
  STFS_PackageLoaded st = true ->
  readable buf st ->
  STFS_BlockToOffset (u24 buf (0x379 + 0x4)) (scanning_state buf st)
  = (Ok o, scanning_state buf st) ->
  (forall j : nat,
     o + 0x40 * Z.of_nat j < Z.of_nat (length buf) ->
     view_get buf (o + 0x40 * Z.of_nat j) <> JS.num 0) ->
  forall fuel, result (STFS_InitFS fuel) st = OutOfFuel.
Proof.
  intros Hl Hst Ho Hnz fuel.
  destruct (InitFS_endless st buf o fuel Hl Hst Ho Hnz) as [st' H].
  unfold result. rewrite H. reflexivity.
Qed.

Lemma view_get_app_r (pre suf : list byte) o :
  Z.of_nat (length pre) <= o ->
  view_get (pre ++ suf) o = view_get suf (o - Z.of_nat (length pre)).
Proof.
  intros Ho. unfold view_get.
  destruct (Z.ltb_spec o 0); [lia |].
  destruct (Z.ltb_spec (o - Z.of_nat (length pre)) 0); [lia |].
  rewrite lookup_app_r by lia.
  replace (Z.to_nat o - length pre)%nat with (Z.to_nat (o - Z.of_nat (length pre)))
    by lia.
  reflexivity.
Qed.

Lemma view_get_replicate n (b : byte) o :
  0 <= o < Z.of_nat n -> view_get (replicate n b) o = JS.num (byte_val b).
Proof.
  intros Ho. unfold view_get. destruct (Z.ltb_spec o 0); [lia |].
  rewrite (lookup_replicate_2 n b (Z.to_nat o)) by lia. reflexivity.
Qed.

Lemma InitFS_hangs_without_null_witness :
  result (STFS_InitFS 1000) dense_state = OutOfFuel.
Proof.
  assert (E : dense_state = set_PackageLoaded true (stored dense_image initial_state)).
  { apply fresh_load; [left; vm_compute; reflexivity | vm_compute; reflexivity]. }
  refine (InitFS_hangs_without_null dense_state dense_image 0xC000 _ _ _ _ 1000%nat).
  - rewrite E. reflexivity.
  - rewrite E. split; reflexivity.
  - apply readonly_run; [apply readonly_BlockToOffset | vm_compute; reflexivity].
  - intros j Hj.
    assert (Hlen : Z.of_nat (length dense_image) = 0xD000) by (vm_compute; reflexivity).
    assert (Hpre : Z.of_nat
                     (length (take (Z.to_nat 0xC000)
                                (poke 0x340 [x00; x00; xad; x0e] blank_image)))
                   = 0xC000) by (vm_compute; reflexivity).
    rewrite Hlen in Hj. unfold dense_image.
    rewrite view_get_app_r by (rewrite Hpre; lia). rewrite Hpre.
    rewrite view_get_replicate by lia.
    intros H. vm_compute in H. discriminate H.
Defined.

(** ** The states the library reaches *)

Section Effects.

Lemma same_size_refl b : same_size b b.
Proof. destruct b; cbn; reflexivity. Qed.

Lemma same_size_trans b1 b2 b3 : same_size b1 b2 -> same_size b2 b3 -> same_size b1 b3.
Proof. destruct b1, b2, b3; cbn; try tauto; congruence. Qed.

Lemma evolves_refl st : evolves st st.
Proof. repeat split; [left; reflexivity | apply same_size_refl]. Qed.

Lemma evolves_trans st1 st2 st3 : evolves st1 st2 -> evolves st2 st3 -> evolves st1 st3.
Proof.
  intros (Hd & Hl & Hs & Hb) (Hd' & Hl' & Hs' & Hb').
  split; [congruence |]. split; [congruence |].
  split; [destruct Hs, Hs'; [left; congruence | right; assumption
                            | right; congruence | right; assumption] |].
  eapply same_size_trans; eassumption.
Qed.

Lemma effect_readonly {A} (m : M A) : readonly m -> effect m.
Proof. intros H st. rewrite H. apply evolves_refl. Qed.

Lemma effect_bind {A B} (m : M A) (k : A -> M B) :
  effect m -> (forall a, effect (k a)) -> effect (bind m k).
Proof.
  intros Hm Hk st. unfold bind. specialize (Hm st).
  destruct (m st) as [[a | e |] st1]; cbn [snd] in *; [| exact Hm | exact Hm].
  eapply evolves_trans; [exact Hm | apply Hk].
Qed.

Lemma effect_view_write o v : effect (view_write o v).
Proof.
  intros st. unfold view_write, bind, gets.
  destruct (STFS_FileBuffer st) as [buf |] eqn:Hb; [| apply evolves_refl].
  destruct (o <? 0); [apply evolves_refl |].
  repeat split; [left; reflexivity |].
  cbn. rewrite Hb. cbn. apply length_insert.
Qed.

Lemma effect_table_push row : effect (table_push row).
Proof.
  intros st. unfold table_push, bind, gets.
  destruct (STFS_FileTable st); [apply evolves_refl |].
  repeat split; [left; reflexivity | apply same_size_refl].
Qed.

Lemma effect_Write8 o i : effect (STFS_Write8 o i).
Proof.
  apply effect_bind; [apply effect_readonly, readonly_require_loaded | intros _].
  apply effect_view_write.
Qed.

Lemma effect_Write16 o i : effect (STFS_Write16 o i).
Proof.
  apply effect_bind; [apply effect_readonly, readonly_require_loaded | intros _].
  apply effect_bind; [apply effect_Write8 | intros _; apply effect_Write8].
Qed.

Lemma effect_Write24 o i : effect (STFS_Write24 o i).
Proof.
  apply effect_bind; [apply effect_readonly, readonly_require_loaded | intros _].
  apply effect_bind; [apply effect_Write8 | intros _; apply effect_Write16].
Qed.

Lemma effect_Write32 o i : effect (STFS_Write32 o i).
Proof.
  apply effect_bind; [apply effect_readonly, readonly_require_loaded | intros _].
  apply effect_bind; [apply effect_Write16 | intros _; apply effect_Write16].
Qed.

Lemma effect_blank_loop n : forall i, effect (blank_loop n i).
Proof.
  induction n as [| n IH]; intros i; cbn [blank_loop].
  - apply effect_readonly, readonly_ret.
  - apply effect_bind; [apply effect_view_write | intros _; apply IH].
Qed.

Lemma effect_FakeSign tag :
  effect (bind require_loaded (fun _ =>
            bind (STFS_Write32 0 tag) (fun _ => blank_loop (Z.to_nat (0x22C - 0x4)) 0x4))).
Proof.
  apply effect_bind; [apply effect_readonly, readonly_require_loaded | intros _].
  apply effect_bind; [apply effect_Write32 | intros _; apply effect_blank_loop].
Qed.

Lemma effect_scan_records fuel : forall o, effect (scan_records fuel o).
Proof.
  induction fuel as [| fuel IH]; intros o; cbn [scan_records].
  - apply effect_readonly, readonly_diverge.
  - apply effect_bind; [apply effect_readonly, readonly_Read8 | intros first].
    destruct (JS.eq0 first); [apply effect_readonly, readonly_ret |].
    apply effect_bind; [apply effect_readonly, readonly_Read8 | intros raw]. cbv zeta.
    apply effect_bind; [apply effect_readonly, readonly_ReadASCIIString | intros name].
    apply effect_bind; [apply effect_readonly, readonly_Read16 | intros parent].
    apply effect_bind; [apply effect_readonly, readonly_Read32 | intros size].
    apply effect_bind; [apply effect_readonly, readonly_Read24 | intros sb].
    apply effect_bind; [apply effect_readonly, readonly_Read24 | intros nb].
    apply effect_bind; [apply effect_table_push | intros _; apply IH].
Qed.

Lemma effect_scan_blocks fuel bs : effect (scan_blocks fuel bs).
Proof.
  induction bs as [| b bs IH]; cbn [scan_blocks].
  - apply effect_readonly, readonly_ret.
  - apply effect_bind; [apply effect_readonly, readonly_BlockToOffset | intros o].
    apply effect_bind; [apply effect_scan_records | intros _; exact IH].
Qed.

Lemma effect_InitFS fuel : effect (STFS_InitFS fuel).
Proof.
  unfold STFS_InitFS.
  apply effect_bind; [apply effect_readonly, readonly_require_loaded | intros _].
  apply effect_bind.
  { intros st. repeat split; [left; reflexivity | apply same_size_refl]. }
  intros _.
  apply effect_bind; [apply effect_readonly, readonly_Read32 | intros entryID].
  apply effect_bind.
  { destruct (negb (JS.sar (JS.and (entryID + 0xFFF) 0xF000) 0xC =? 0xB)).
    - intros st. repeat split; [right; reflexivity | apply same_size_refl].
    - apply effect_readonly, readonly_ret. }
  intros _.
  apply effect_bind; [apply effect_readonly, readonly_Read24 | intros start].
  apply effect_bind; [apply effect_readonly, readonly_Read16 | intros count].
  apply effect_bind; [apply effect_readonly, readonly_blocks_loop | intros blocks].
  apply effect_scan_blocks.
Qed.

Lemma readonly_ignore {A} (m : M A) : readonly m -> readonly (ignore m).
Proof.
  intros H. apply readonly_bind; [exact H | intros a; apply readonly_ret].
Qed.

Lemma readonly_GetFile name : readonly (STFS_GetFile name).
Proof.
  apply readonly_bind; [apply readonly_gets | intros t].
  destruct t; [apply readonly_throw | apply readonly_ret].
Qed.

Lemma readonly_ReadFile f : readonly (STFS_ReadFile f).
Proof.
  unfold STFS_ReadFile. destruct (JS.and (flags f) 2 =? 2); [apply readonly_throw |].
  apply readonly_bind; [apply readonly_blocks_loop | intros blocks].
  apply readonly_bind; [apply readonly_read_loop | intros arrays; apply readonly_ret].
Qed.

Lemma readonly_GetField o : readonly (bind require_loaded (fun _ => STFS_Read32 o)).
Proof.
  apply readonly_bind; [apply readonly_require_loaded | intros _; apply readonly_Read32].
Qed.

(** Every call but a load or a reset keeps the flags and the size of the
    buffer. *)
Lemma effect_run_call c : ~ is_Reset c -> ~ is_LoadPackage c -> effect (run_call c).
Proof.
  intros HR HL. destruct c; cbn [run_call];
    try solve [exfalso; apply HR; exact I]; try solve [exfalso; apply HL; exact I].
  - apply effect_InitFS.
  - apply effect_readonly, readonly_ignore, readonly_gets.
  - apply effect_readonly, readonly_ignore, readonly_GetFile.
  - apply effect_readonly, readonly_ignore, readonly_path_loop.
  - apply effect_readonly, readonly_ignore, readonly_ReadFile.
  - apply effect_readonly, readonly_ignore, readonly_BlockToOffset.
  - apply effect_readonly, readonly_ignore, readonly_BlockToHashOffset.
  - apply effect_readonly, readonly_ignore, readonly_blocks_loop.
  - destruct (width =? 8); [apply effect_readonly, readonly_ignore, readonly_Read8 |].
    destruct (width =? 16); [apply effect_readonly, readonly_ignore, readonly_Read16 |].
    destruct (width =? 24); [apply effect_readonly, readonly_ignore, readonly_Read24 |].
    apply effect_readonly, readonly_ignore, readonly_Read32.
  - apply effect_readonly, readonly_ignore, readonly_ReadASCIIString.
  - destruct (width =? 8); [apply effect_Write8 |].
    destruct (width =? 16); [apply effect_Write16 |].
    destruct (width =? 24); [apply effect_Write24 | apply effect_Write32].
  - apply effect_readonly, readonly_ignore, readonly_GetField.
  - apply effect_readonly, readonly_ignore, readonly_GetField.
  - apply effect_readonly, readonly_ignore, readonly_GetField.
  - apply effect_bind; [apply effect_readonly, readonly_require_loaded | intros _].
    apply effect_Write32.
  - apply effect_bind; [apply effect_readonly, readonly_require_loaded | intros _].
    apply effect_Write32.
  - apply effect_FakeSign.
  - apply effect_FakeSign.
Qed.

End Effects.

Section Reachable.

Lemma well_formed_initial : well_formed initial_state.
Proof.
  split; [discriminate |]. split; [discriminate |].
  split; [reflexivity | left; reflexivity].
Qed.

Lemma well_formed_evolves st st' : well_formed st -> evolves st st' -> well_formed st'.
Proof.
  intros (H1 & H2 & H3 & H4) (Hd & Hl & Hs & Hb).
  split; [rewrite Hd, Hl; exact H1 |].
  split.
  { rewrite Hd. intros Hdirty. destruct (H2 Hdirty) as (buf & Hbuf & Hlen).
    rewrite Hbuf in Hb. unfold same_size in Hb.
    destruct (STFS_FileBuffer st') as [buf' |]; [| contradiction].
    exists buf'. split; [reflexivity | lia]. }
  split.
  { rewrite Hd. intros Hclean. rewrite (H3 Hclean) in Hb. unfold same_size in Hb.
    destruct (STFS_FileBuffer st'); [contradiction | reflexivity]. }
  destruct Hs as [Hs | Hs]; [rewrite Hs; exact H4 | right; exact Hs].
Qed.

Lemma well_formed_Reset st : well_formed (after STFS_Reset st).
Proof.
  split; [discriminate |]. split; [discriminate |].
  split; [reflexivity | left; reflexivity].
Qed.

Lemma well_formed_unloaded st :
  well_formed st -> STFS_Dirty st = false -> unloaded st.
Proof.
  intros (H1 & _) Hd. split; [exact Hd |].
  destruct (STFS_PackageLoaded st); [| reflexivity].
  specialize (H1 eq_refl). congruence.
Qed.

Lemma well_formed_LoadPackage st abuf :
  well_formed st -> well_formed (after (STFS_LoadPackage abuf) st).
Proof.
  intros Hwf. unfold after.
  destruct (STFS_Dirty st) eqn:Hd.
  - rewrite LoadPackage_dirty by exact Hd. exact Hwf.
  - pose proof (well_formed_unloaded st Hwf Hd) as Hu.
    destruct (Z.le_gt_cases (Z.of_nat (length abuf)) 0x971A) as [Hshort | Hlong].
    + rewrite LoadPackage_too_short by assumption. exact Hwf.
    + rewrite LoadPackage_past_length by (assumption || lia).
      destruct Hwf as (_ & _ & _ & H4).
      destruct ((u32 abuf 0 =? STFS_CON) || (u32 abuf 0 =? STFS_LIVE)
                || (u32 abuf 0 =? STFS_PIRS)); cbn [snd].
      * split; [reflexivity |]. split; [| split; [discriminate | exact H4]].
        intros _. exists abuf. split; [reflexivity | lia].
      * split; [reflexivity |]. split; [| split; [discriminate | exact H4]].
        intros _. exists abuf. split; [reflexivity | lia].
Qed.

Lemma well_formed_run_call c st :
  well_formed st -> well_formed (after (run_call c) st).
Proof.
  intros Hwf. destruct c;
    try solve [apply (well_formed_evolves st); [exact Hwf |];
               apply effect_run_call; intros []].
  - unfold after. cbn [run_call]. unfold ignore, bind.
    pose proof (well_formed_LoadPackage st abuf Hwf) as H. unfold after in H.
    destruct (STFS_LoadPackage abuf st) as [[a | e |] st']; exact H.
  - apply well_formed_Reset.
Qed.

Lemma well_formed_run_calls cs : forall st,
  well_formed st -> well_formed (run_calls cs st).
Proof.
  induction cs as [| c cs IH]; intros st Hwf; [exact Hwf |].
  cbn [run_calls]. apply IH, well_formed_run_call, Hwf.
Qed.

End Reachable.

(** X16 (all the calls): the states the library reaches.  After any
    sequence of calls from the state of a fresh page, a loaded package is
    dirty, a dirty library holds a buffer longer than [0x971A] bytes and one
    that is not dirty holds none, and the table-size shift is 0 or 1.  So
    [STFS_LoadPackage] never throws the already-loaded error (the dirty
    test before it always fires first), [STFS_Read8] never indexes [null],
    and on a loaded package [STFS_GetTitleID] returns a number. *)
Theorem reachable_states_well_formed (cs : list call) :
  well_formed (run_calls cs initial_state) /\
  (forall abuf,
     result (STFS_LoadPackage abuf) (run_calls cs initial_state) <> Throw AlreadyLoaded) /\
  (forall o,
     result (STFS_Read8 o) (run_calls cs initial_state) <> Throw TypeError) /\
  (STFS_PackageLoaded (run_calls cs initial_state) = true ->
     exists v, STFS_GetTitleID (run_calls cs initial_state)
               = (Ok v, run_calls cs initial_state)).
Proof.
  pose proof (well_formed_run_calls cs initial_state well_formed_initial) as Hwf.
  remember (run_calls cs initial_state) as st eqn:E. clear E.
  split; [exact Hwf |]. split; [| split].
  - intros abuf. unfold result.
    destruct (STFS_Dirty st) eqn:Hd.
    + rewrite LoadPackage_dirty by exact Hd. discriminate.
    + pose proof (well_formed_unloaded st Hwf Hd) as Hu.
      destruct (Z.le_gt_cases (Z.of_nat (length abuf)) 0x971A) as [Hshort | Hlong].
      * rewrite LoadPackage_too_short by assumption. discriminate.
      * rewrite LoadPackage_past_length by (assumption || lia).
        destruct ((u32 abuf 0 =? STFS_CON) || (u32 abuf 0 =? STFS_LIVE)
                  || (u32 abuf 0 =? STFS_PIRS)); discriminate.
  - intros o. unfold result. destruct Hwf as (_ & H2 & _).
    destruct (STFS_Dirty st) eqn:Hd.
    + destruct (H2 eq_refl) as (buf & Hbuf & _).
      rewrite (run_Read8 buf st (conj Hd Hbuf)). discriminate.
    + unfold STFS_Read8, require_dirty, bind, gets. rewrite Hd. discriminate.
  - intros Hl. destruct Hwf as (H1 & H2 & _).
    destruct (H2 (H1 Hl)) as (buf & Hbuf & _).
    exists (u32 buf 0x360). unfold STFS_GetTitleID.
    apply run_GetField; [exact Hl | split; [exact (H1 Hl) | exact Hbuf]].
Qed.

Lemma reachable_states_well_formed_witness :
  STFS_PackageLoaded
    (run_calls [CallLoadPackage chain_image; CallInitFS 1; CallSetTitleID 7] initial_state)
  = true /\
  exists v,
    STFS_GetTitleID
      (run_calls [CallLoadPackage chain_image; CallInitFS 1; CallSetTitleID 7] initial_state)
    = (Ok v,
       run_calls [CallLoadPackage chain_image; CallInitFS 1; CallSetTitleID 7] initial_state).
Proof.
  assert (H : STFS_PackageLoaded
                (run_calls [CallLoadPackage chain_image; CallInitFS 1; CallSetTitleID 7]
                   initial_state) = true) by (vm_compute; reflexivity).
  split; [exact H |].
  apply (reachable_states_well_formed
           [CallLoadPackage chain_image; CallInitFS 1; CallSetTitleID 7]).
  exact H.
Defined.

(** ** Re-signing *)

Section FakeSign.

Lemma run_blank_loop n : forall i st buf,
  STFS_FileBuffer st = Some buf ->
  blank_loop n i st = (Ok tt, set_FileBuffer (Some (blank n i buf)) st).
Proof.
  induction n as [| n IH]; intros i st buf Hb; cbn [blank_loop blank].
  - unfold ret. rewrite set_FileBuffer_same by exact Hb. reflexivity.
  - rewrite (bind_Ok _ _ _ _ _ (run_view_write st buf i 0 Hb)).
    rewrite (IH (i + 1) _ (poke_byte i 0 buf)); reflexivity.
Qed.

Lemma length_blank n : forall i (buf : list byte), length (blank n i buf) = length buf.
Proof.
  induction n as [| n IH]; intros i buf; cbn [blank]; [reflexivity |].
  rewrite IH. apply length_poke_byte.
Qed.

Lemma view_get_blank_out n : forall i (buf : list byte) j,
  j < i \/ i + Z.of_nat n <= j -> view_get (blank n i buf) j = view_get buf j.
Proof.
  induction n as [| n IH]; intros i buf j Hj; cbn [blank]; [reflexivity |].
  rewrite IH by lia. apply view_get_poke_byte_ne. lia.
Qed.

Lemma view_get_blank_in n : forall i (buf : list byte) j,
  0 <= i -> i <= j < i + Z.of_nat n -> j < Z.of_nat (length buf) ->
  view_get (blank n i buf) j = JS.num 0.
Proof.
  induction n as [| n IH]; intros i buf j Hi Hj Hlen; cbn [blank]; [lia |].
  destruct (Z.eq_dec j i) as [-> | Hne].
  - rewrite view_get_blank_out by lia.
    rewrite view_get_poke_byte_eq by lia. reflexivity.
  - apply IH; [lia | lia | rewrite length_poke_byte; lia].
Qed.

Lemma view_get_in_range (buf : list byte) j :
  0 <= j < Z.of_nat (length buf) ->
  exists b, buf !! Z.to_nat j = Some b /\ view_get buf j = JS.num (byte_val b).
Proof.
  intros Hj. unfold view_get. destruct (Z.ltb_spec j 0); [lia |].
  destruct (buf !! Z.to_nat j) as [b |] eqn:E.
  - exists b. split; reflexivity.
  - apply lookup_ge_None in E. lia.
Qed.

(** The effect of the body shared by [STFS_FakeSignLIVE] and
    [STFS_FakeSignPIRS], for a tag below [2^31]. *)
Lemma FakeSign_effect st buf tag :
  STFS_PackageLoaded st = true -> readable buf st ->
  0x971A < Z.of_nat (length buf) -> 0 <= tag < 2147483648 ->
  exists buf',
    bind require_loaded (fun _ =>
      bind (STFS_Write32 0 tag) (fun _ => blank_loop (Z.to_nat (0x22C - 0x4)) 0x4)) st
    = (Ok tt, set_FileBuffer (Some buf') st) /\
    u32 buf' 0 = tag /\
    signature_blanked buf buf'.
Proof.
  intros Hl [Hd Hb] Hlen Htag.
  exists (blank (Z.to_nat (0x22C - 0x4)) 0x4 (poke32 0 tag buf)).
  split; [| split].
  - rewrite (bind_Ok _ _ _ _ _ (run_require_loaded st Hl)).
    rewrite (bind_Ok _ _ _ _ _ (run_Write32 st buf 0 tag Hl Hb)).
    rewrite (run_blank_loop _ 0x4 _ (poke32 0 tag buf)); reflexivity.
  - rewrite (u32_same_bytes (poke32 0 tag buf)).
    + rewrite u32_poke32 by lia. apply ToInt32_small. lia.
    + intros j Hj. apply view_get_blank_out. lia.
  - split; [rewrite length_blank; apply length_poke32 |]. split.
    + intros j Hj. apply view_get_blank_in; [lia | lia |].
      rewrite length_poke32. lia.
    + intros j Hj. rewrite view_get_blank_out by lia. apply poke32_other. lia.
Qed.

(** The first four bytes of a buffer, from the word they spell. *)
Lemma tag_of_u32 (buf : list byte) c0 c1 c2 c3 :
  4 <= Z.of_nat (length buf) -> byte_val c0 < 128 ->
  u32 buf 0
  = byte_val c0 * 16777216 + byte_val c1 * 65536 + byte_val c2 * 256 + byte_val c3 ->
  take 4 buf = [c0; c1; c2; c3].
Proof.
  intros Hlen Hc H.
  destruct buf as [| b0 [| b1 [| b2 [| b3 rest]]]]; cbn [length] in Hlen; try lia.
  cbn [take]. apply (u32_head_eq b0 b1 b2 b3 rest); assumption.
Qed.

End FakeSign.

(** X17 ([STFS_FakeSignLIVE], [STFS_FakeSignPIRS], [STFS_GetFileType]): on
    a loaded package each call succeeds and changes the buffer only: its
    first four bytes become the LIVE (or PIRS) tag, bytes 4 to [0x22B] become
    0, the bytes from [0x22C] on and the length stay.  Afterwards
    [STFS_GetFileType] returns the new tag constant, and the buffer is one
    that [STFS_LoadPackage] recognizes. *)
Theorem FakeSign_rewrites_header (st : State) (buf : list byte) :
  STFS_PackageLoaded st = true ->
  readable buf st ->
  0x971A < Z.of_nat (length buf) ->
  (exists buf',
     STFS_FakeSignLIVE st = (Ok tt, set_FileBuffer (Some buf') st) /\
     take 4 buf' = LIVE_tag /\
     result STFS_GetFileType (set_FileBuffer (Some buf') st) = Ok STFS_LIVE /\
     signature_blanked buf buf') /\
  (exists buf',
     STFS_FakeSignPIRS st = (Ok tt, set_FileBuffer (Some buf') st) /\
     take 4 buf' = PIRS_tag /\
     result STFS_GetFileType (set_FileBuffer (Some buf') st) = Ok STFS_PIRS /\
     signature_blanked buf buf').
Proof.
  intros Hl Hst Hlen. split.
  - destruct (FakeSign_effect st buf STFS_LIVE Hl Hst Hlen) as (buf' & Hrun & Hu & Hs);
      [unfold STFS_LIVE; lia |].
    exists buf'. split; [exact Hrun |]. split; [| split; [| exact Hs]].
    + apply tag_of_u32; [destruct Hs as (Hlen' & _); lia | reflexivity | exact Hu].
    + unfold result, STFS_GetFileType.
      rewrite (run_GetField (set_FileBuffer (Some buf') st) buf' 0 Hl
                 (conj (proj1 Hst) eq_refl)).
      cbn [fst]. rewrite Hu. reflexivity.
  - destruct (FakeSign_effect st buf STFS_PIRS Hl Hst Hlen) as (buf' & Hrun & Hu & Hs);
      [unfold STFS_PIRS; lia |].
    exists buf'. split; [exact Hrun |]. split; [| split; [| exact Hs]].
    + apply tag_of_u32; [destruct Hs as (Hlen' & _); lia | reflexivity | exact Hu].
    + unfold result, STFS_GetFileType.
      rewrite (run_GetField (set_FileBuffer (Some buf') st) buf' 0 Hl
                 (conj (proj1 Hst) eq_refl)).
      cbn [fst]. rewrite Hu. reflexivity.
Qed.

Lemma FakeSign_rewrites_header_witness :
  exists buf',
    STFS_FakeSignLIVE chain_state = (Ok tt, set_FileBuffer (Some buf') chain_state) /\
    take 4 buf' = LIVE_tag /\
    result STFS_GetFileType (set_FileBuffer (Some buf') chain_state) = Ok STFS_LIVE /\
    signature_blanked chain_image buf'.
Proof.
  assert (E : chain_state = set_PackageLoaded true (stored chain_image initial_state)).
  { apply fresh_load; [left; vm_compute; reflexivity | vm_compute; reflexivity]. }
  apply (proj1 (FakeSign_rewrites_header chain_state chain_image
                  ltac:(rewrite E; reflexivity)
                  ltac:(rewrite E; split; reflexivity)
                  ltac:(vm_compute; reflexivity))).
Defined.

(** ** The 16- and 32-bit swaps *)

Section Swaps.

Lemma shl_value x n : 0 <= n < 32 -> JS.shl x n = JS.ToInt32 (JS.ToInt32 x * 2 ^ n).
Proof.
  intros Hn. unfold JS.shl. replace (Z.land n 31) with n.
  - rewrite Z.shiftl_mul_pow2 by lia. reflexivity.
  - change 31 with (Z.ones 5). rewrite Z.land_ones by lia.
    symmetry. apply Z.mod_small. change (2 ^ 5) with 32. lia.
Qed.

Lemma ToInt32_idem z : JS.ToInt32 (JS.ToInt32 z) = JS.ToInt32 z.
Proof. apply ToInt32_small. apply ToInt32_range. Qed.

(** [y & -2^n] clears the low [n] bits. *)
Lemma land_clear_low y n : 0 <= n -> Z.land y (- 2 ^ n) = y / 2 ^ n * 2 ^ n.
Proof.
  intros Hn.
  replace (- 2 ^ n) with (Z.lnot (Z.ones n)).
  - rewrite <- Z.ldiff_land. rewrite Z.ldiff_ones_r by lia.
    rewrite Z.shiftl_mul_pow2, Z.shiftr_div_pow2 by lia. reflexivity.
  - rewrite Z.ones_equiv. unfold Z.lnot. lia.
Qed.

(** [STFS_Swap16] on a 16-bit number. *)
Lemma Swap16_value i :
  0 <= i < 65536 -> STFS_Swap16 i = i mod 256 * 256 + i / 256.
Proof.
  intros Hi. unfold STFS_Swap16.
  rewrite sar_small by lia. change (2 ^ 8) with 256.
  rewrite shl_value by lia. rewrite (ToInt32_small i) by lia.
  change (2 ^ 8) with 256. rewrite (ToInt32_small (i * 256)) by lia.
  assert (Ha : 0 <= i / 256 < 256).
  { split; [apply Z.div_pos; lia | apply Z.div_lt_upper_bound; lia]. }
  rewrite or_small by lia.
  rewrite Z.lor_comm. change 256 with (2 ^ 8) at 1.
  rewrite lor_mul_pow2_low by (change (2 ^ 8) with 256; lia).
  change (2 ^ 8) with 256.
  rewrite and_small by lia. change 65535 with (Z.ones 16).
  rewrite Z.land_ones by lia. change (2 ^ 16) with 65536.
  Z.div_mod_to_equations. lia.
Qed.

(** The value of [ToInt32] on a 32-bit number given by its four bytes. *)
Lemma ToInt32_bytes a b c d :
  0 <= a < 256 -> 0 <= b < 256 -> 0 <= c < 256 -> 0 <= d < 256 ->
  JS.ToInt32 (a * 16777216 + b * 65536 + c * 256 + d)
  = (if a <? 128 then a else a - 256) * 16777216 + b * 65536 + c * 256 + d.
Proof.
  intros Ha Hb Hc Hd. unfold JS.ToInt32.
  change (2 ^ 31) with 2147483648. change (2 ^ 32) with 4294967296.
  destruct (Z.ltb_spec a 128); Z.div_mod_to_equations; lia.
Qed.

(** [STFS_Swap32] on a 32-bit number given by its four bytes: the bytes in
    reverse order, read as a signed 32-bit number. *)
Lemma Swap32_value a b c d :
  0 <= a < 256 -> 0 <= b < 256 -> 0 <= c < 256 -> 0 <= d < 256 ->
  STFS_Swap32 (a * 16777216 + b * 65536 + c * 256 + d)
  = JS.ToInt32 (d * 16777216 + c * 65536 + b * 256 + a).
Proof.
  intros Ha Hb Hc Hd.
  rewrite (ToInt32_bytes d c b a) by assumption.
  unfold STFS_Swap32.
  set (i := a * 16777216 + b * 65536 + c * 256 + d).
  set (A := if a <? 128 then a else a - 256).
  set (D := if d <? 128 then d else d - 256).
  assert (HA : -128 <= A < 128 /\ (A = a \/ A = a - 256)).
  { unfold A. destruct (Z.ltb_spec a 128); lia. }
  assert (HD : -128 <= D < 128 /\ (D = d \/ D = d - 256)).
  { unfold D. destruct (Z.ltb_spec d 128); lia. }
  assert (Hx : JS.ToInt32 i = A * 16777216 + b * 65536 + c * 256 + d).
  { apply ToInt32_bytes; assumption. }
  assert (T1 : JS.and (JS.sar i 24) 255 = a).
  { rewrite and_255, sar_value by lia. rewrite Hx.
    change (2 ^ 24) with 16777216.
    assert (E : (A * 16777216 + b * 65536 + c * 256 + d) / 16777216 = A).
    { Z.div_mod_to_equations. lia. }
    rewrite E. rewrite ToInt32_small by lia.
    Z.div_mod_to_equations. lia. }
  assert (T2 : JS.and (JS.shl i 8) 16711680 = c * 65536).
  { unfold JS.and. rewrite shl_value by lia. rewrite ToInt32_idem. rewrite Hx.
    change (2 ^ 8) with 256.
    replace ((A * 16777216 + b * 65536 + c * 256 + d) * 256)
      with (b * 16777216 + c * 65536 + d * 256 + 0 + A * 4294967296) by lia.
    assert (E : JS.ToInt32 (b * 16777216 + c * 65536 + d * 256 + 0 + A * 4294967296)
                = JS.ToInt32 (b * 16777216 + c * 65536 + d * 256 + 0)).
    { unfold JS.ToInt32. change (2 ^ 32) with 4294967296.
      replace (b * 16777216 + c * 65536 + d * 256 + 0 + A * 4294967296 + 2 ^ 31)
        with (b * 16777216 + c * 65536 + d * 256 + 0 + 2 ^ 31 + A * 4294967296) by lia.
      rewrite Z.mod_add by lia. reflexivity. }
    rewrite E. rewrite (ToInt32_bytes b c d 0) by lia.
    rewrite (ToInt32_small 16711680) by lia.
    change 16711680 with (Z.ones 8 * 2 ^ 16).
    rewrite land_shifted_ones by lia.
    change (2 ^ 16) with 65536. change (2 ^ 8) with 256.
    destruct (Z.ltb_spec b 128); Z.div_mod_to_equations; lia. }
  assert (T3 : JS.and (JS.sar i 8) 65280 = b * 256).
  { unfold JS.and. rewrite sar_value by lia. rewrite Hx.
    change (2 ^ 8) with 256.
    assert (E : (A * 16777216 + b * 65536 + c * 256 + d) / 256
                = A * 65536 + b * 256 + c).
    { Z.div_mod_to_equations. lia. }
    rewrite E. rewrite (ToInt32_small (A * 65536 + b * 256 + c)) by lia.
    rewrite (ToInt32_small 65280) by lia.
    change 65280 with (Z.ones 8 * 2 ^ 8).
    rewrite land_shifted_ones by lia. change (2 ^ 8) with 256.
    Z.div_mod_to_equations. lia. }
  assert (T4 : JS.and (JS.shl i 24) 4278190080 = D * 16777216).
  { unfold JS.and. rewrite shl_value by lia. rewrite ToInt32_idem. rewrite Hx.
    change (2 ^ 24) with 16777216.
    replace ((A * 16777216 + b * 65536 + c * 256 + d) * 16777216)
      with (d * 16777216 + 0 * 65536 + 0 * 256 + 0
            + (A * 65536 + b * 256 + c) * 4294967296) by lia.
    assert (E : JS.ToInt32 (d * 16777216 + 0 * 65536 + 0 * 256 + 0
                            + (A * 65536 + b * 256 + c) * 4294967296)
                = JS.ToInt32 (d * 16777216 + 0 * 65536 + 0 * 256 + 0)).
    { unfold JS.ToInt32. change (2 ^ 32) with 4294967296.
      replace (d * 16777216 + 0 * 65536 + 0 * 256 + 0
               + (A * 65536 + b * 256 + c) * 4294967296 + 2 ^ 31)
        with (d * 16777216 + 0 * 65536 + 0 * 256 + 0 + 2 ^ 31
              + (A * 65536 + b * 256 + c) * 4294967296) by lia.
      rewrite Z.mod_add by lia. reflexivity. }
    rewrite E. rewrite (ToInt32_bytes d 0 0 0) by lia. fold D.
    assert (E2 : JS.ToInt32 4278190080 = - 2 ^ 24) by reflexivity.
    rewrite E2. rewrite land_clear_low by lia.
    change (2 ^ 24) with 16777216.
    Z.div_mod_to_equations. lia. }
  rewrite T1, T2, T3, T4.
  assert (O1 : JS.or a (c * 65536) = c * 65536 + a).
  { unfold JS.or. rewrite !ToInt32_small by lia. rewrite Z.lor_comm.
    change 65536 with (2 ^ 16). apply lor_mul_pow2_low; [lia |].
    change (2 ^ 16) with 65536. lia. }
  rewrite O1.
  assert (O2 : JS.or (c * 65536 + a) (b * 256) = c * 65536 + b * 256 + a).
  { unfold JS.or. rewrite !ToInt32_small by lia.
    assert (L0 : Z.lor (c * 65536) a = c * 65536 + a).
    { change 65536 with (2 ^ 16). apply lor_mul_pow2_low; [lia |].
      change (2 ^ 16) with 65536. lia. }
    assert (L1 : Z.lor (b * 256) a = b * 256 + a).
    { change 256 with (2 ^ 8). apply lor_mul_pow2_low; [lia |].
      change (2 ^ 8) with 256. lia. }
    assert (L2 : Z.lor (c * 65536) (b * 256 + a) = c * 65536 + (b * 256 + a)).
    { change 65536 with (2 ^ 16). apply lor_mul_pow2_low; [lia |].
      change (2 ^ 16) with 65536. lia. }
    rewrite <- L0. rewrite <- Z.lor_assoc. rewrite (Z.lor_comm a (b * 256)).
    rewrite L1, L2. lia. }
  rewrite O2.
  assert (O3 : JS.or (c * 65536 + b * 256 + a) (D * 16777216)
               = D * 16777216 + c * 65536 + b * 256 + a).
  { unfold JS.or. rewrite !ToInt32_small by lia. rewrite Z.lor_comm.
    change 16777216 with (2 ^ 24).
    rewrite lor_mul_pow2_low; [lia | lia |].
    change (2 ^ 24) with 16777216. lia. }
  rewrite O3.
  unfold JS.and.
  assert (E3 : JS.ToInt32 4294967295 = -1) by reflexivity.
  rewrite E3. rewrite Z.land_m1_r. apply ToInt32_small. lia.
Qed.

End Swaps.

(** X18 ([STFS_Swap16], [STFS_Swap32]): on a 16-bit number [STFS_Swap16]
    exchanges the two bytes and undoes itself.  On a 32-bit number given by
    its bytes [a b c d], [STFS_Swap32] returns the bytes [d c b a] read as a
    signed 32-bit number, negative exactly when [d] is [0x80] or more, and
    applying it twice gives the signed reading of [a b c d]. *)
Theorem byte_swaps (i a b c d : Z) :
  0 <= i < 0x10000 ->
  0 <= a < 256 -> 0 <= b < 256 -> 0 <= c < 256 -> 0 <= d < 256 ->
  (STFS_Swap16 i = i mod 256 * 256 + i / 256 /\
   STFS_Swap16 (STFS_Swap16 i) = i) /\
  (STFS_Swap32 (a * 0x1000000 + b * 0x10000 + c * 0x100 + d)
   = JS.ToInt32 (d * 0x1000000 + c * 0x10000 + b * 0x100 + a) /\
   (STFS_Swap32 (a * 0x1000000 + b * 0x10000 + c * 0x100 + d) < 0 <-> 0x80 <= d) /\
   STFS_Swap32 (STFS_Swap32 (a * 0x1000000 + b * 0x10000 + c * 0x100 + d))
   = JS.ToInt32 (a * 0x1000000 + b * 0x10000 + c * 0x100 + d)).
Proof.
  intros Hi Ha Hb Hc Hd. split.
  - assert (Hv := Swap16_value i Hi). split; [exact Hv |].
    assert (Hr : 0 <= STFS_Swap16 i < 65536).
    { rewrite Hv. Z.div_mod_to_equations. lia. }
    rewrite (Swap16_value _ Hr). rewrite Hv. Z.div_mod_to_equations. lia.
  - assert (Hv := Swap32_value a b c d Ha Hb Hc Hd).
    change 0x1000000 with 16777216. change 0x10000 with 65536.
    change 0x100 with 256. change 0x80 with 128.
    split; [exact Hv |]. split.
    + rewrite Hv. rewrite ToInt32_bytes by assumption.
      destruct (Z.ltb_spec d 128); lia.
    + rewrite Hv. rewrite ToInt32_bytes by assumption.
      destruct (Z.ltb_spec d 128) as [Hlt | Hge].
      * apply Swap32_value; assumption.
      * replace ((d - 256) * 16777216 + c * 65536 + b * 256 + a)
          with (d * 16777216 + c * 65536 + b * 256 + a + (-1) * 4294967296) by lia.
        rewrite <- (Swap32_value d c b a) by assumption.
        unfold STFS_Swap32.
        assert (E : forall n, JS.sar (d * 16777216 + c * 65536 + b * 256 + a
                                       + (-1) * 4294967296) n
                              = JS.sar (d * 16777216 + c * 65536 + b * 256 + a) n).
        { intros n. unfold JS.sar. f_equal. unfold JS.ToInt32.
          change (2 ^ 32) with 4294967296.
          replace (d * 16777216 + c * 65536 + b * 256 + a + -1 * 4294967296 + 2 ^ 31)
            with (d * 16777216 + c * 65536 + b * 256 + a + 2 ^ 31 + -1 * 4294967296)
            by lia.
          rewrite Z.mod_add by lia. reflexivity. }
        assert (F : forall n, JS.shl (d * 16777216 + c * 65536 + b * 256 + a
                                       + (-1) * 4294967296) n
                              = JS.shl (d * 16777216 + c * 65536 + b * 256 + a) n).
        { intros n. unfold JS.shl. do 2 f_equal. unfold JS.ToInt32.
          change (2 ^ 32) with 4294967296.
          replace (d * 16777216 + c * 65536 + b * 256 + a + -1 * 4294967296 + 2 ^ 31)
            with (d * 16777216 + c * 65536 + b * 256 + a + 2 ^ 31 + -1 * 4294967296)
            by lia.
          rewrite Z.mod_add by lia. reflexivity. }
        rewrite !E, !F. reflexivity.
Qed.

Lemma byte_swaps_witness :
  (STFS_Swap16 0x1234 = 0x1234 mod 256 * 256 + 0x1234 / 256 /\
   STFS_Swap16 (STFS_Swap16 0x1234) = 0x1234) /\
  (STFS_Swap32 (0x12 * 0x1000000 + 0x34 * 0x10000 + 0x56 * 0x100 + 0x80)
   = JS.ToInt32 (0x80 * 0x1000000 + 0x56 * 0x10000 + 0x34 * 0x100 + 0x12) /\
   (STFS_Swap32 (0x12 * 0x1000000 + 0x34 * 0x10000 + 0x56 * 0x100 + 0x80) < 0
    <-> 0x80 <= 0x80) /\
   STFS_Swap32 (STFS_Swap32 (0x12 * 0x1000000 + 0x34 * 0x10000 + 0x56 * 0x100 + 0x80))
   = JS.ToInt32 (0x12 * 0x1000000 + 0x34 * 0x10000 + 0x56 * 0x100 + 0x80)).
Proof. apply (byte_swaps 0x1234 0x12 0x34 0x56 0x80); lia. Defined.

(** ** Lookup by name *)

Section Lookup.

Lemma find_first (rows : list FileEntry) name :
  match List.find (fun f => String.eqb (fileName f) name) rows with
  | Some f =>
      exists k : nat, rows !! k = Some f /\ fileName f = name /\
        forall (j : nat) g, (j < k)%nat -> rows !! j = Some g -> fileName g <> name
  | None => forall g, In g rows -> fileName g <> name
  end.
Proof.
  induction rows as [| r rows IH]; cbn [List.find].
  - intros g [].
  - destruct (String.eqb_spec (fileName r) name) as [He | Hne].
    + exists 0%nat. split; [reflexivity |]. split; [exact He |]. intros j g Hj. lia.
    + destruct (List.find _ rows) as [f |].
      * destruct IH as (k & Hk & Hn & Hfirst).
        exists (S k). split; [exact Hk |]. split; [exact Hn |].
        intros [| j] g Hj Hg.
        -- cbn in Hg. injection Hg as <-. exact Hne.
        -- apply (Hfirst j g); [lia | exact Hg].
      * intros g [<- | Hin]; [exact Hne | apply IH; exact Hin].
Qed.

End Lookup.

(** X19 ([STFS_GetFile]): the lookup has no guard and changes nothing.  On
    an array it returns the first row, in table order, whose name is the
    one asked for, whatever directory that row is in, so a later row of
    the same name is never returned; it returns [undefined] exactly when no
    row has the name.  On the [false] that [STFS_Reset] leaves it raises a
    [TypeError]. *)
Theorem GetFile_first_match (st : State) (name : string) :
  after (STFS_GetFile name) st = st /\
  match STFS_FileTable st with
  | TFalse => result (STFS_GetFile name) st = Throw TypeError
  | TArray rows =>
      match result (STFS_GetFile name) st with
      | Ok (Some f) =>
          exists k : nat, rows !! k = Some f /\ fileName f = name /\
            forall (j : nat) g, (j < k)%nat -> rows !! j = Some g -> fileName g <> name
      | Ok None => forall g, In g rows -> fileName g <> name
      | _ => False
      end
  end.
Proof.
  unfold after, result, STFS_GetFile, bind, gets. cbn [fst snd].
  destruct (STFS_FileTable st) as [| rows]; cbn [fst snd].
  - split; reflexivity.
  - split; [reflexivity |]. unfold ret. cbn [fst]. apply find_first.
Qed.

(** ** Header text *)

Section Text.

Variable buf : list byte.

Lemma u16_range o : 0 <= u16 buf o <= 65535.
Proof.
  rewrite u16_value.
  pose proof (byte_or_0_range buf o). pose proof (byte_or_0_range buf (o + 1)). lia.
Qed.

Lemma string_loop_spec st (Hst : readable buf st) n : forall i str,
  exists units,
    string_loop n i str st = (Ok (str ++ units), st) /\ text_at buf i n units.
Proof.
  induction n as [| n IH]; intros i str; cbn [string_loop].
  - exists []. split; [unfold ret; rewrite app_nil_r; reflexivity |].
    split; [cbn; lia |]. split; [cbn; intros k Hk; lia | cbn; lia].
  - rewrite (bind_Ok _ _ _ _ _ (run_Read16 buf st Hst i)).
    destruct (Z.eqb_spec (u16 buf i) 0) as [Hz | Hnz].
    + exists []. split; [unfold ret; rewrite app_nil_r; reflexivity |].
      split; [cbn; lia |]. split; [cbn; intros k Hk; lia |].
      intros _. cbn [length]. replace (i + 2 * Z.of_nat 0) with i by lia. exact Hz.
    + destruct (IH (i + 2) (str ++ [u16 buf i])) as (units & Hrun & Hlen & Hk & Hend).
      exists (u16 buf i :: units). split.
      * rewrite Hrun. rewrite <- app_assoc. reflexivity.
      * split; [cbn [length]; lia |]. split.
        -- intros [| k] Hlt.
           ++ replace (i + 2 * Z.of_nat 0) with i by lia.
              split; [reflexivity |]. pose proof (u16_range i). lia.
           ++ cbn [length] in Hlt.
              replace (i + 2 * Z.of_nat (S k)) with (i + 2 + 2 * Z.of_nat k) by lia.
              apply Hk. lia.
        -- cbn [length]. intros Hlt.
           replace (i + 2 * Z.of_nat (S (length units)))
             with (i + 2 + 2 * Z.of_nat (length units)) by lia.
           apply Hend. lia.
Qed.

Lemma u16_past_end o : Z.of_nat (length buf) <= o -> u16 buf o = 0.
Proof.
  intros Ho.
  assert (E : forall j, o <= j -> view_get buf j = JS.undefined).
  { intros j Hj. unfold view_get. destruct (Z.ltb_spec j 0); [reflexivity |].
    rewrite (proj2 (lookup_ge_None buf (Z.to_nat j))) by lia. reflexivity. }
  unfold u16. rewrite !E by lia. reflexivity.
Qed.

End Text.

Lemma run_unique {A} (m : M A) st a b s1 s2 :
  m st = (Ok a, s1) -> m st = (Ok b, s2) -> a = b.
Proof. intros H1 H2. rewrite H1 in H2. injection H2 as H _. exact H. Qed.

Lemma readonly_string_loop n : forall i str, readonly (string_loop n i str).
Proof.
  induction n as [| n IH]; intros i str; cbn [string_loop]; [apply readonly_ret |].
  apply readonly_bind; [apply readonly_Read16 | intros read].
  destruct (read =? 0); [apply readonly_ret | apply IH].
Qed.

Lemma readonly_ReadString o l : readonly (STFS_ReadString o l).
Proof.
  unfold STFS_ReadString.
  apply readonly_bind; [apply readonly_require_loaded | intros _].
  apply readonly_string_loop.
Qed.

Lemma guard_twice {A} (m : M A) st :
  bind require_loaded (fun _ => bind require_loaded (fun _ => m)) st
  = bind require_loaded (fun _ => m) st.
Proof.
  destruct (STFS_PackageLoaded st) eqn:Hl.
  - rewrite !(bind_Ok _ _ _ _ _ (run_require_loaded st Hl)). reflexivity.
  - unfold require_loaded, gets, bind. rewrite Hl. reflexivity.
Qed.

(** X20 ([STFS_ReadString] and the four text getters): on a loaded package
    [STFS_ReadString] returns, changing nothing, the big-endian 16-bit words
    stored from [offset] on, up to the first zero word or until
    [(length + 1) / 2] words are read; no unit of the result is 0.  Bytes
    past the end of the buffer read as a zero word, so a text that starts
    at or after the end is empty.  The getters of the package name, the
    description, the publisher and the title name are [STFS_ReadString] at
    [0x411], [0xD11], [0x1611] and [0x1691], in every state. *)
Theorem ReadString_value (st : State) (buf : list byte) (offset length : Z) :
  STFS_PackageLoaded st = true ->
  readable buf st ->
  (exists units,
     STFS_ReadString offset length st = (Ok units, st) /\
     text_at buf offset (Z.to_nat ((length + 1) / 2)) units /\
     (Z.of_nat (List.length buf) <= offset -> units = [])) /\
  STFS_GetPackageName st = STFS_ReadString 0x411 0x900 st /\
  STFS_GetPackageDescription st = STFS_ReadString 0xD11 0x900 st /\
  STFS_GetPublisherName st = STFS_ReadString 0x1611 0x80 st /\
  STFS_GetTitleName st = STFS_ReadString 0x1691 0x80 st.
Proof.
  intros Hl Hst. split.
  - destruct (string_loop_spec buf st Hst (Z.to_nat ((length + 1) / 2)) offset [])
      as (units & Hrun & Htext).
    exists units. split; [| split; [exact Htext |]].
    + unfold STFS_ReadString.
      rewrite (bind_Ok _ _ _ _ _ (run_require_loaded st Hl)). exact Hrun.
    + intros Hpast. destruct units as [| u units]; [reflexivity |].
      destruct Htext as (_ & Hk & _).
      destruct (Hk 0%nat ltac:(cbn; lia)) as (_ & Hpos).
      rewrite u16_past_end in Hpos by lia. lia.
  - unfold STFS_GetPackageName, STFS_GetPackageDescription, STFS_GetPublisherName,
      STFS_GetTitleName, STFS_ReadString.
    rewrite !guard_twice. repeat split; reflexivity.
Qed.

Lemma ReadString_value_witness :
  (exists units,
     STFS_ReadString 0x411 0x900 text_state = (Ok units, text_state) /\
     text_at text_image 0x411 (Z.to_nat ((0x900 + 1) / 2)) units /\
     units = [0x48; 0x69]) /\
  STFS_GetPackageName text_state = STFS_ReadString 0x411 0x900 text_state /\
  STFS_GetPackageDescription text_state = STFS_ReadString 0xD11 0x900 text_state /\
  STFS_GetPublisherName text_state = STFS_ReadString 0x1611 0x80 text_state /\
  STFS_GetTitleName text_state = STFS_ReadString 0x1691 0x80 text_state.
Proof.
  assert (E : text_state = set_PackageLoaded true (stored text_image initial_state)).
  { apply fresh_load; [left; vm_compute; reflexivity | vm_compute; reflexivity]. }
  destruct (ReadString_value text_state text_image 0x411 0x900)
    as ((units & Hrun & Htext & _) & Hrest).
  - rewrite E. reflexivity.
  - rewrite E. split; reflexivity.
  - split; [| exact Hrest].
    exists units. split; [exact Hrun |]. split; [exact Htext |].
    assert (R : STFS_ReadString 0x411 0x900 text_state = (Ok [0x48; 0x69], text_state))
      by (apply readonly_run; [apply readonly_ReadString | vm_compute; reflexivity]).
    exact (run_unique _ _ _ _ _ _ Hrun R).
Defined.

(** ** Thumbnails *)

Section Thumbs.

Variables (st : State) (buf : list byte).
Hypothesis Hl : STFS_PackageLoaded st = true.
Hypothesis Hst : readable buf st.

Lemma run_new_view_ok offset size :
  0 <= offset -> 0 <= size -> offset + size <= Z.of_nat (length buf) ->
  exists data, new_view offset size st = (Ok data, st) /\ slice_of buf offset size data.
Proof.
  intros Ho Hs Hlen. destruct Hst as [_ Hb].
  exists (take (Z.to_nat size) (drop (Z.to_nat offset) buf)). split.
  - unfold new_view, bind, gets. rewrite Hb.
    destruct (Z.ltb_spec offset 0); [lia |].
    destruct (Z.ltb_spec size 0); [lia |].
    destruct (Z.ltb_spec (Z.of_nat (length buf)) (offset + size)); [lia |].
    reflexivity.
  - split.
    + rewrite length_take, length_drop. lia.
    + intros k Hk. rewrite length_take, length_drop in Hk.
      rewrite lookup_take_lt by lia. apply lookup_drop.
Qed.

Lemma run_new_view_range offset size :
  size < 0 \/ Z.of_nat (length buf) < offset + size ->
  new_view offset size st = (Throw RangeError, st).
Proof.
  intros Hbad. destruct Hst as [_ Hb].
  unfold new_view, bind, gets. rewrite Hb.
  destruct (Z.ltb_spec offset 0); [reflexivity |].
  destruct (Z.ltb_spec size 0); [reflexivity |].
  destruct (Z.ltb_spec (Z.of_nat (length buf)) (offset + size)); [reflexivity | lia].
Qed.

Lemma run_thumb field offset :
  0 <= offset ->
  (0 <= u32 buf field <= Z.of_nat (length buf) - offset ->
   exists data,
     bind require_loaded (fun _ =>
       bind (STFS_Read32 field) (fun thumbSize => new_view offset thumbSize)) st
     = (Ok data, st) /\
     slice_of buf offset (u32 buf field) data) /\
  (u32 buf field < 0 \/ Z.of_nat (length buf) - offset < u32 buf field ->
   bind require_loaded (fun _ =>
     bind (STFS_Read32 field) (fun thumbSize => new_view offset thumbSize)) st
   = (Throw RangeError, st)).
Proof.
  intros Ho. split.
  - intros Hs.
    destruct (run_new_view_ok offset (u32 buf field)) as (data & Hrun & Hslice);
      [lia | lia | lia |].
    exists data. split; [| exact Hslice].
    rewrite (bind_Ok _ _ _ _ _ (run_require_loaded st Hl)).
    rewrite (bind_Ok _ _ _ _ _ (run_Read32 buf st Hst field)). exact Hrun.
  - intros Hbad.
    rewrite (bind_Ok _ _ _ _ _ (run_require_loaded st Hl)).
    rewrite (bind_Ok _ _ _ _ _ (run_Read32 buf st Hst field)).
    apply run_new_view_range. lia.
Qed.

End Thumbs.

Lemma readonly_GetPackageThumb : readonly STFS_GetPackageThumb.
Proof.
  unfold STFS_GetPackageThumb.
  apply readonly_bind; [apply readonly_require_loaded | intros _].
  apply readonly_bind; [apply readonly_Read32 | intros n; apply readonly_new_view].
Qed.

(** X21 ([STFS_GetPackageThumb], [STFS_GetTitleThumb]): on a loaded
    package the package thumbnail is the bytes from [0x171A] on and the
    title thumbnail the bytes from [0x571A] on, as many as the signed 32-bit
    size stored at [0x1712] and at [0x1716]; the state is unchanged.  The
    only test on the size is that of the view: a negative size, or one that
    passes the end of the buffer, is a [RangeError], and a size up to
    [0x4000], the room the header has for each picture, never is. *)
Theorem thumbnails_are_slices (st : State) (buf : list byte) :
  STFS_PackageLoaded st = true ->
  readable buf st ->
  0x971A < Z.of_nat (length buf) ->
  ((0 <= u32 buf 0x1712 <= Z.of_nat (length buf) - 0x171A ->
    exists data, STFS_GetPackageThumb st = (Ok data, st) /\
                 slice_of buf 0x171A (u32 buf 0x1712) data) /\
   (u32 buf 0x1712 < 0 \/ Z.of_nat (length buf) - 0x171A < u32 buf 0x1712 ->
    STFS_GetPackageThumb st = (Throw RangeError, st))) /\
  ((0 <= u32 buf 0x1716 <= Z.of_nat (length buf) - 0x571A ->
    exists data, STFS_GetTitleThumb st = (Ok data, st) /\
                 slice_of buf 0x571A (u32 buf 0x1716) data) /\
   (u32 buf 0x1716 < 0 \/ Z.of_nat (length buf) - 0x571A < u32 buf 0x1716 ->
    STFS_GetTitleThumb st = (Throw RangeError, st))) /\
  (0 <= u32 buf 0x1712 <= 0x4000 ->
   result STFS_GetPackageThumb st <> Throw RangeError) /\
  (0 <= u32 buf 0x1716 <= 0x4000 ->
   result STFS_GetTitleThumb st <> Throw RangeError).
Proof.
  intros Hl Hst Hlen.
  pose proof (run_thumb st buf Hl Hst 0x1712 0x171A ltac:(lia)) as [P1 P2].
  pose proof (run_thumb st buf Hl Hst 0x1716 0x571A ltac:(lia)) as [T1 T2].
  split; [split; [exact P1 | exact P2] |].
  split; [split; [exact T1 | exact T2] |].
  split.
  - intros Hs. destruct P1 as (data & Hrun & _); [lia |].
    unfold result. unfold STFS_GetPackageThumb. rewrite Hrun. discriminate.
  - intros Hs. destruct T1 as (data & Hrun & _); [lia |].
    unfold result. unfold STFS_GetTitleThumb. rewrite Hrun. discriminate.
Qed.

Lemma thumbnails_are_slices_witness :
  (exists data,
     STFS_GetPackageThumb thumb_state = (Ok data, thumb_state) /\
     slice_of thumb_image 0x171A 4 data /\
     data = [x89; x50; x4e; x47]) /\
  STFS_GetTitleThumb thumb_state = (Throw RangeError, thumb_state).
Proof.
  assert (E : thumb_state = set_PackageLoaded true (stored thumb_image initial_state)).
  { apply fresh_load; [left; vm_compute; reflexivity | vm_compute; reflexivity]. }
  assert (Hp : u32 thumb_image 0x1712 = 4) by (vm_compute; reflexivity).
  assert (Ht : u32 thumb_image 0x1716 = -1) by (vm_compute; reflexivity).
  assert (Hlen : Z.of_nat (length thumb_image) = 0xE000) by (vm_compute; reflexivity).
  destruct (thumbnails_are_slices thumb_state thumb_image)
    as ((P1 & _) & (_ & T2) & _).
  - rewrite E. reflexivity.
  - rewrite E. split; reflexivity.
  - rewrite Hlen. lia.
  - split.
    + destruct P1 as (data & Hrun & Hslice); [rewrite Hp, Hlen; lia |].
      rewrite Hp in Hslice.
      exists data. split; [exact Hrun |]. split; [exact Hslice |].
      assert (R : STFS_GetPackageThumb thumb_state
                  = (Ok [x89; x50; x4e; x47], thumb_state))
        by (apply readonly_run; [apply readonly_GetPackageThumb | vm_compute; reflexivity]).
      exact (run_unique _ _ _ _ _ _ Hrun R).
    + apply T2. left. rewrite Ht. lia.
Defined.

(** ** The content ID *)

Section ContentID.

Lemma toUpperCase_app (s1 s2 : string) :
  toUpperCase (s1 ++ s2) = (toUpperCase s1 ++ toUpperCase s2)%string.
Proof. induction s1 as [| c s1 IH]; cbn; [| rewrite IH]; reflexivity. Qed.

Lemma hex_of_byte (b : byte) :
  toUpperCase (padStart 2 "0" (toString16 (byte_val b)))
  = String (nibble (byte_val b / 16)) (String (nibble (byte_val b mod 16)) "").
Proof. destruct b; vm_compute; reflexivity. Qed.

Lemma toUpperCase_raw_hex l : toUpperCase (raw_hex l) = hex_of_bytes l.
Proof.
  induction l as [| b l IH]; [reflexivity |].
  cbn [raw_hex hex_of_bytes]. rewrite toUpperCase_app, hex_of_byte, IH. reflexivity.
Qed.

Lemma string_app_assoc (a b c : string) : ((a ++ b) ++ c = a ++ (b ++ c))%string.
Proof. induction a as [| x a IH]; cbn; [| rewrite IH]; reflexivity. Qed.

Lemma string_app_nil_r (a : string) : (a ++ "")%string = a.
Proof. induction a as [| x a IH]; cbn; [| rewrite IH]; reflexivity. Qed.

Lemma run_id_loop st (buf : list byte) (Hb : STFS_FileBuffer st = Some buf) n :
  forall i out,
    0 <= i -> i + Z.of_nat n <= Z.of_nat (length buf) ->
    id_loop n i out st
    = (Ok (out ++ raw_hex (take n (drop (Z.to_nat i) buf)))%string, st).
Proof.
  induction n as [| n IH]; intros i out Hi Hlen.
  - cbn. unfold ret. rewrite string_app_nil_r. reflexivity.
  - cbn [id_loop].
    assert (Hr : view_read i st = (Ok (view_get buf i), st)).
    { unfold view_read, bind, gets. rewrite Hb. reflexivity. }
    rewrite (bind_Ok _ _ _ _ _ Hr).
    destruct (view_get_in_range buf i ltac:(lia)) as (b & Hlk & Hv).
    rewrite Hv. rewrite IH by lia.
    rewrite (drop_S buf b (Z.to_nat i) Hlk). cbn [take raw_hex].
    replace (Z.to_nat (i + 1)) with (S (Z.to_nat i)) by lia.
    rewrite string_app_assoc. reflexivity.
Qed.

Lemma hex_of_bytes_length l : String.length (hex_of_bytes l) = (2 * length l)%nat.
Proof. induction l as [| b l IH]; cbn [hex_of_bytes String.length length]; lia. Qed.

Lemma nibble_inj d d' :
  0 <= d < 16 -> 0 <= d' < 16 -> nibble d = nibble d' -> d = d'.
Proof.
  intros Hd Hd' H. unfold nibble in H.
  apply (f_equal N_of_ascii) in H.
  rewrite !N_ascii_embedding in H
    by (destruct (d <? 10), (d' <? 10); lia).
  destruct (Z.ltb_spec d 10), (Z.ltb_spec d' 10); lia.
Qed.

Lemma hex_of_bytes_inj l : forall l', hex_of_bytes l = hex_of_bytes l' -> l = l'.
Proof.
  induction l as [| b l IH]; intros [| b' l'] H; cbn [hex_of_bytes] in H;
    try discriminate H; [reflexivity |].
  injection H as H1 H2 H3.
  pose proof (byte_val_range b). pose proof (byte_val_range b').
  apply nibble_inj in H1; [| Z.div_mod_to_equations; lia | Z.div_mod_to_equations; lia].
  apply nibble_inj in H2; [| Z.div_mod_to_equations; lia | Z.div_mod_to_equations; lia].
  f_equal; [| apply IH; exact H3].
  apply byte_val_inj. Z.div_mod_to_equations. lia.
Qed.

End ContentID.

(** X22 ([STFS_GetContentID]): on a loaded package whose buffer reaches
    [0x340], the content ID is the 20 bytes from [0x32C] on written in
    hexadecimal, two upper-case digits for each byte, 40 characters in all;
    the state is unchanged.  Two buffers have the same content ID only when
    those 20 bytes are the same. *)
Theorem GetContentID_is_hex (st : State) (buf buf' : list byte) :
  STFS_PackageLoaded st = true ->
  STFS_FileBuffer st = Some buf ->
  0x340 <= Z.of_nat (length buf) ->
  STFS_GetContentID st = (Ok (hex_of_bytes (take 20 (drop 0x32C buf))), st) /\
  String.length (hex_of_bytes (take 20 (drop 0x32C buf))) = 40%nat /\
  (hex_of_bytes (take 20 (drop 0x32C buf)) = hex_of_bytes (take 20 (drop 0x32C buf')) ->
   take 20 (drop 0x32C buf) = take 20 (drop 0x32C buf')).
Proof.
  intros Hl Hb Hlen. split; [| split].
  - unfold STFS_GetContentID.
    rewrite (bind_Ok _ _ _ _ _ (run_require_loaded st Hl)).
    rewrite (bind_Ok _ _ _ _ _
               (run_id_loop st buf Hb (Z.to_nat (0x340 - 0x32C)) 0x32C ""
                  ltac:(lia) ltac:(lia))).
    unfold ret. cbn [append]. rewrite toUpperCase_raw_hex. reflexivity.
  - rewrite hex_of_bytes_length, length_take, length_drop. lia.
  - apply hex_of_bytes_inj.
Qed.

Lemma GetContentID_is_hex_witness :
  STFS_GetContentID chain_state
  = (Ok (hex_of_bytes (take 20 (drop 0x32C chain_image))), chain_state) /\
  String.length (hex_of_bytes (take 20 (drop 0x32C chain_image))) = 40%nat /\
  (hex_of_bytes (take 20 (drop 0x32C chain_image))
   = hex_of_bytes (take 20 (drop 0x32C blank_image)) ->
   take 20 (drop 0x32C chain_image) = take 20 (drop 0x32C blank_image)).
Proof.
  assert (E : chain_state = set_PackageLoaded true (stored chain_image initial_state)).
  { apply fresh_load; [left; vm_compute; reflexivity | vm_compute; reflexivity]. }
  apply (GetContentID_is_hex chain_state chain_image blank_image).
  - rewrite E. reflexivity.
  - rewrite E. reflexivity.
  - vm_compute. discriminate.
Defined.

(** X23 ([STFS_WriteString], [STFS_ReadString]): the loop of
    [STFS_WriteString] is bounded by [str.Length], which no string has, so
    its test fails at once: on a loaded package the call returns [str] and
    stores nothing, whatever the offset and the string, and
    [STFS_ReadString] reads afterwards what it read before. *)
Theorem WriteString_writes_nothing (st : State) (fuel : nat) (offset : Z)
    (str : list Z) (o len : Z) :
  STFS_PackageLoaded st = true ->
  STFS_WriteString (S fuel) offset str st = (Ok str, st) /\
  STFS_ReadString o len (after (STFS_WriteString (S fuel) offset str) st)
  = STFS_ReadString o len st.
Proof.
  intros Hl.
  assert (H : STFS_WriteString (S fuel) offset str st = (Ok str, st)).
  { unfold STFS_WriteString.
    rewrite (bind_Ok _ _ _ _ _ (run_require_loaded st Hl)). reflexivity. }
  split; [exact H |]. unfold after. rewrite H. reflexivity.
Qed.

Lemma WriteString_writes_nothing_witness :
  STFS_WriteString 1 0x411 [72; 105] chain_state = (Ok [72; 105], chain_state) /\
  STFS_ReadString 0x411 0x900 (after (STFS_WriteString 1 0x411 [72; 105]) chain_state)
  = STFS_ReadString 0x411 0x900 chain_state.
Proof.
  assert (E : chain_state = set_PackageLoaded true (stored chain_image initial_state)).
  { apply fresh_load; [left; vm_compute; reflexivity | vm_compute; reflexivity]. }
  apply (WriteString_writes_nothing chain_state 0 0x411 [72; 105] 0x411 0x900).
  rewrite E. reflexivity.
Defined.

(** ** Friendly names *)

Section Names.

Lemma tag_word (abuf : list byte) :
  (take 4 abuf = CON_tag -> u32 abuf 0 = STFS_CON) /\
  (take 4 abuf = LIVE_tag -> u32 abuf 0 = STFS_LIVE) /\
  (take 4 abuf = PIRS_tag -> u32 abuf 0 = STFS_PIRS).
Proof.
  repeat split; intros H;
    destruct abuf as [| b0 [| b1 [| b2 [| b3 rest]]]]; try discriminate H;
    cbn [take] in H; injection H as -> -> -> ->; reflexivity.
Qed.

End Names.

(** X24 ([STFS_Name_FileType], [STFS_Name_ContentType] with
    [STFS_GetFileType], [STFS_SetContentType], [STFS_GetContentType]): on a
    loaded package whose buffer starts with one of the three tags, the name
    of the file type read is the friendly name of that tag, never an
    unknown type.  After [STFS_SetContentType(c)], for [c] below [2^31], the
    content type read is [c]; its name is a friendly one for the saved game,
    the downloadable content, the profile, the arcade game and the title
    update, and for every other number, the declared constants of the
    avatar item, the gamer picture and the theme among them, it is the
    unknown type followed by the number in hexadecimal. *)
Theorem type_names (st : State) (buf : list byte) (c : Z) :
  STFS_PackageLoaded st = true ->
  readable buf st ->
  0x971A < Z.of_nat (length buf) ->
  recognized buf ->
  0 <= c < 0x80000000 ->
  (exists t,
     result STFS_GetFileType st = Ok t /\
     (take 4 buf = CON_tag -> STFS_Name_FileType t = "Console-signed"%string) /\
     (take 4 buf = LIVE_tag -> STFS_Name_FileType t = "Xbox Live-signed"%string) /\
     (take 4 buf = PIRS_tag -> STFS_Name_FileType t = "Microsoft-signed"%string) /\
     String.prefix "Unknown Type " (STFS_Name_FileType t) = false) /\
  (exists st',
     STFS_SetContentType c st = (Ok tt, st') /\
     result STFS_GetContentType st' = Ok c /\
     (In c [STFS_SAVEGAME; STFS_DLC; STFS_PROFILE; STFS_ARCADEGAME; STFS_TITLEUPDATE] ->
      String.prefix "Unknown Type " (STFS_Name_ContentType c) = false) /\
     (~ In c [STFS_SAVEGAME; STFS_DLC; STFS_PROFILE; STFS_ARCADEGAME; STFS_TITLEUPDATE] ->
      STFS_Name_ContentType c = ("Unknown Type " ++ toString16 c)%string)) /\
  STFS_Name_ContentType STFS_AVATARITEM = "Unknown Type 9000"%string /\
  STFS_Name_ContentType STFS_GAMERPIC = "Unknown Type 20000"%string /\
  STFS_Name_ContentType STFS_THEME = "Unknown Type 30000"%string.
Proof.
  intros Hl Hst Hlen Hr Hc.
  split; [| split; [| repeat split; reflexivity]].
  - exists (u32 buf 0). split.
    { unfold result, STFS_GetFileType. rewrite (run_GetField st buf 0 Hl Hst).
      reflexivity. }
    destruct (tag_word buf) as (HC & HL & HP).
    split; [intros H; rewrite (HC H); reflexivity |].
    split; [intros H; rewrite (HL H); reflexivity |].
    split; [intros H; rewrite (HP H); reflexivity |].
    destruct Hr as [H | [H | H]];
      [rewrite (HC H) | rewrite (HL H) | rewrite (HP H)]; reflexivity.
  - destruct Hst as [Hd Hb].
    pose (buf' := poke32 0x344 c buf).
    pose (st' := set_FileBuffer (Some buf') st).
    assert (Hl' : STFS_PackageLoaded st' = true) by exact Hl.
    assert (Hst' : readable buf' st') by (split; [exact Hd | reflexivity]).
    exists st'. split.
    { unfold STFS_SetContentType.
      rewrite (bind_Ok _ _ _ _ _ (run_require_loaded st Hl)).
      apply run_Write32; assumption. }
    split.
    { unfold result, STFS_GetContentType.
      rewrite (run_GetField st' buf' 0x344 Hl' Hst'). cbn [fst].
      unfold buf'. rewrite u32_poke32 by lia. rewrite ToInt32_small by lia.
      reflexivity. }
    split.
    + intros Hin. cbn [In] in Hin.
      destruct Hin as [<- | [<- | [<- | [<- | [<- | []]]]]]; reflexivity.
    + intros Hnot. cbn [In] in Hnot. unfold STFS_Name_ContentType.
      destruct (Z.eqb_spec c STFS_SAVEGAME); [exfalso; apply Hnot; auto |].
      destruct (Z.eqb_spec c STFS_DLC); [exfalso; apply Hnot; auto |].
      destruct (Z.eqb_spec c STFS_PROFILE); [exfalso; apply Hnot; auto |].
      destruct (Z.eqb_spec c STFS_ARCADEGAME); [exfalso; apply Hnot; auto 6 |].
      destruct (Z.eqb_spec c STFS_TITLEUPDATE); [exfalso; apply Hnot; auto 7 |].
      reflexivity.
Qed.

Lemma type_names_witness :
  exists t,
    result STFS_GetFileType chain_state = Ok t /\
    (take 4 chain_image = CON_tag -> STFS_Name_FileType t = "Console-signed"%string) /\
    (take 4 chain_image = LIVE_tag -> STFS_Name_FileType t = "Xbox Live-signed"%string) /\
    (take 4 chain_image = PIRS_tag -> STFS_Name_FileType t = "Microsoft-signed"%string) /\
    String.prefix "Unknown Type " (STFS_Name_FileType t) = false.
Proof.
  assert (E : chain_state = set_PackageLoaded true (stored chain_image initial_state)).
  { apply fresh_load; [left; vm_compute; reflexivity | vm_compute; reflexivity]. }
  apply (proj1 (type_names chain_state chain_image STFS_THEME
                  ltac:(rewrite E; reflexivity)
                  ltac:(rewrite E; split; reflexivity)
                  ltac:(vm_compute; reflexivity)
                  ltac:(left; vm_compute; reflexivity)
                  ltac:(vm_compute; split; [discriminate | reflexivity]))).
Defined.

(** ** 24-bit stores *)

Section Write24.

Lemma run_Write24 st buf o i :
  STFS_PackageLoaded st = true -> STFS_FileBuffer st = Some buf ->
  STFS_Write24 o i st = (Ok tt, set_FileBuffer (Some (poke24 o i buf)) st).
Proof.
  intros Hl Hb. unfold STFS_Write24.
  rewrite (bind_Ok _ _ _ _ _ (run_require_loaded st Hl)).
  rewrite (bind_Ok _ _ _ _ _ (run_Write8 st buf o _ Hl Hb)).
  rewrite (run_Write16 _ (poke_byte o (JS.and (JS.and (JS.sar i 16) 0xff) 0xff) buf));
    [reflexivity | exact Hl | reflexivity].
Qed.

Lemma length_poke24 o i (b : list byte) : length (poke24 o i b) = length b.
Proof. unfold poke24. rewrite length_poke16, length_poke_byte. reflexivity. Qed.

Lemma poke24_other o i (b : list byte) j :
  j < o \/ o + 3 <= j -> view_get (poke24 o i b) j = view_get b j.
Proof.
  intros Hj. unfold poke24. rewrite poke16_other by lia.
  apply view_get_poke_byte_ne. lia.
Qed.

Lemma byte_hi24 i :
  byte_val (byte_of_Z (JS.and (JS.and (JS.sar i 16) 0xff) 0xff))
  = JS.ToInt32 i / 65536 mod 256.
Proof.
  rewrite byte_val_byte_of_Z.
  assert (E : JS.and (JS.sar i 16) 255 = JS.ToInt32 i / 65536 mod 256).
  { rewrite and_255, sar_value by lia. change (2 ^ 16) with 65536.
    pose proof (ToInt32_range i).
    rewrite (ToInt32_small (JS.ToInt32 i / 65536))
      by (Z.div_mod_to_equations; lia).
    reflexivity. }
  rewrite E.
  assert (Hr : 0 <= JS.ToInt32 i / 65536 mod 256 < 256)
    by (apply Z.mod_pos_bound; lia).
  rewrite and_255_small by lia. rewrite Z.mod_mod by lia.
  rewrite ToInt32_small by lia. apply Z.mod_mod. lia.
Qed.

(** The number read back at the place of a 24-bit store. *)
Lemma u24_poke24 o i (b : list byte) :
  0 <= o -> o + 3 <= Z.of_nat (length b) ->
  u24 (poke24 o i b) o = JS.ToInt32 i mod 16777216.
Proof.
  intros Ho Hlen. rewrite u24_value.
  assert (Hx : JS.and i 0xffff = JS.ToInt32 i mod 65536).
  { apply (and_ones i 16). lia. }
  assert (Hr : 0 <= JS.ToInt32 i mod 65536 < 65536) by (apply Z.mod_pos_bound; lia).
  assert (B0 : byte_or_0 (poke24 o i b) o = JS.ToInt32 i / 65536 mod 256).
  { unfold byte_or_0, poke24. rewrite poke16_other by lia.
    rewrite view_get_poke_byte_eq by lia. cbn [JS.int32_of_elem].
    rewrite byte_hi24. apply ToInt32_small.
    pose proof (Z.mod_pos_bound (JS.ToInt32 i / 65536) 256). lia. }
  assert (B1 : byte_or_0 (poke24 o i b) (o + 1) = JS.ToInt32 i mod 65536 / 256).
  { unfold poke24. rewrite Hx.
    apply poke16_hi; [lia | rewrite length_poke_byte; lia | exact Hr]. }
  assert (B2 : byte_or_0 (poke24 o i b) (o + 2) = JS.ToInt32 i mod 65536 mod 256).
  { unfold poke24. rewrite Hx. replace (o + 2) with (o + 1 + 1) by lia.
    apply poke16_lo; [lia | rewrite length_poke_byte; lia | exact Hr]. }
  rewrite B0, B1, B2.
  generalize (JS.ToInt32 i). intros T.
  pose proof (Z.div_mod T 65536 ltac:(lia)) as E1.
  pose proof (Z.mod_pos_bound T 65536 ltac:(lia)) as R1.
  pose proof (Z.div_mod (T / 65536) 256 ltac:(lia)) as E2.
  pose proof (Z.mod_pos_bound (T / 65536) 256 ltac:(lia)) as R2.
  pose proof (Z.div_mod (T mod 65536) 256 ltac:(lia)) as E3.
  pose proof (Z.mod_pos_bound (T mod 65536) 256 ltac:(lia)) as R3.
  apply (Z.mod_unique_pos _ _ (T / 65536 / 256)); lia.
Qed.

End Write24.

(** X25 ([STFS_Write24], [STFS_Read24], [STFS_Swap24]): on a loaded
    package [STFS_Write24] succeeds at any offset and never changes the
    length of the buffer nor a byte outside the three it addresses.  When
    the three bytes lie in the buffer, [STFS_Read24] at the same offset
    returns the low 24 bits of the number stored, and a 24-bit number stored
    swapped reads back through [STFS_Swap24], the way [STFS_InitFS] reads
    block numbers. *)
Theorem Write24_then_Read24 (st : State) (buf : list byte) (o v : Z) :
  STFS_PackageLoaded st = true ->
  readable buf st ->
  exists buf',
    STFS_Write24 o v st = (Ok tt, set_FileBuffer (Some buf') st) /\
    length buf' = length buf /\
    (forall j, j < o \/ o + 3 <= j -> view_get buf' j = view_get buf j) /\
    (0 <= o -> o + 3 <= Z.of_nat (length buf) ->
     STFS_Read24 o (set_FileBuffer (Some buf') st)
     = (Ok (JS.ToInt32 v mod 0x1000000), set_FileBuffer (Some buf') st)) /\
    (0 <= o -> o + 3 <= Z.of_nat (length buf) ->
     forall x, 0 <= x < 0x1000000 -> v = STFS_Swap24 x ->
     exists w,
       result (STFS_Read24 o) (set_FileBuffer (Some buf') st) = Ok w /\
       STFS_Swap24 w = x).
Proof.
  intros Hl [Hd Hb].
  exists (poke24 o v buf).
  assert (Hst' : readable (poke24 o v buf) (set_FileBuffer (Some (poke24 o v buf)) st))
    by (split; [exact Hd | reflexivity]).
  split; [apply run_Write24; assumption |].
  split; [apply length_poke24 |].
  split; [intros j Hj; apply poke24_other; exact Hj |].
  split.
  - intros Ho Hlen. rewrite (run_Read24 _ _ Hst'). rewrite u24_poke24 by assumption.
    reflexivity.
  - intros Ho Hlen x Hx ->. exists (JS.ToInt32 (STFS_Swap24 x) mod 0x1000000). split.
    + unfold result. rewrite (run_Read24 _ _ Hst'). rewrite u24_poke24 by assumption.
      reflexivity.
    + assert (Hv := Swap24_value x Hx).
      assert (Hr : 0 <= STFS_Swap24 x < 16777216).
      { rewrite Hv. Z.div_mod_to_equations. lia. }
      rewrite ToInt32_small by lia.
      change 0x1000000 with 16777216. rewrite Z.mod_small by lia.
      rewrite (Swap24_value _ Hr). rewrite Hv. Z.div_mod_to_equations. lia.
Qed.

Lemma Write24_then_Read24_witness :
  exists buf',
    STFS_Write24 0x37D 0x123456 chain_state
    = (Ok tt, set_FileBuffer (Some buf') chain_state) /\
    length buf' = length chain_image /\
    (forall j, j < 0x37D \/ 0x37D + 3 <= j -> view_get buf' j = view_get chain_image j) /\
    (0 <= 0x37D -> 0x37D + 3 <= Z.of_nat (length chain_image) ->
     STFS_Read24 0x37D (set_FileBuffer (Some buf') chain_state)
     = (Ok (JS.ToInt32 0x123456 mod 0x1000000),
        set_FileBuffer (Some buf') chain_state)) /\
    (0 <= 0x37D -> 0x37D + 3 <= Z.of_nat (length chain_image) ->
     forall x, 0 <= x < 0x1000000 -> 0x123456 = STFS_Swap24 x ->
     exists w,
       result (STFS_Read24 0x37D) (set_FileBuffer (Some buf') chain_state) = Ok w /\
       STFS_Swap24 w = x).
Proof.
  assert (E : chain_state = set_PackageLoaded true (stored chain_image initial_state)).
  { apply fresh_load; [left; vm_compute; reflexivity | vm_compute; reflexivity]. }
  apply (Write24_then_Read24 chain_state chain_image 0x37D 0x123456).
  - rewrite E. reflexivity.
  - rewrite E. split; reflexivity.
Defined.

(** ** Chain records when the table-size shift is 1 *)

Section Shift1.

Lemma BlockToHashOffset_value1 st b :
  STFS_TableSizeShift st = 1 -> 0 <= b <= 0xFFFFFF ->
  STFS_BlockToHashOffset b st
  = (Ok ((b / 0xAA * 0xAC
          + (if 0xAA <=? b then (b / 0x70E4 + 1) * 2 else 0)
          + (if 0x70E4 <=? b then 2 else 0)) * 0x1000
         + b mod 0xAA * 0x18), st).
Proof.
  intros Hs Hb. unfold STFS_BlockToHashOffset, bind, gets, ret.
  rewrite Hs. f_equal. f_equal.
  assert (Hq2 : 0 <= b / 0x70E4 < 581).
  { split; [apply Z.div_pos; lia | apply Z.div_lt_upper_bound; lia]. }
  rewrite !shl_small by (change (2 ^ 30) with 1073741824; lia).
  rewrite Z.rem_mod_nonneg by lia.
  change (1 =? 1) with true. change (1 =? 0) with false. cbv iota.
  change (2 ^ 1) with 2.
  destruct (Z.geb_spec b 0xAA), (Z.leb_spec 0xAA b); try lia;
    destruct (Z.geb_spec b 0x70E4), (Z.leb_spec 0x70E4 b); lia.
Qed.

End Shift1.

(** X26 ([STFS_BlockToHashOffset] against [STFS_BlockToOffset]): with
    table-size shift 1, the chain record of a 24-bit block [b] is record
    [b mod 170] of the 4096-byte block that starts [0xC000] bytes before the
    data of the first block of the group of 170 that holds [b].  For the
    first group that block is the header of the file: the record of a block
    below 170 is at offset [b * 0x18]. *)
Theorem chain_record_shift1 (st : State) (b : Z) :
  STFS_TableSizeShift st = 1 -> 0 <= b <= 0xFFFFFF ->
  exists h o,
    STFS_BlockToHashOffset b st = (Ok h, st) /\
    STFS_BlockToOffset (b - b mod 0xAA) st = (Ok o, st) /\
    h = o - 0xC000 + b mod 0xAA * 0x18 /\
    (b < 0xAA -> h = b * 0x18 /\ h + 0x18 <= 0x1000).
Proof.
  intros Hs Hb.
  assert (Hr : 0 <= b mod 0xAA < 0xAA) by (apply Z.mod_pos_bound; lia).
  assert (Hq : 0 <= b / 0xAA) by (apply Z.div_pos; lia).
  assert (Eb : b = 0xAA * (b / 0xAA) + b mod 0xAA) by (apply Z.div_mod; lia).
  assert (E0 : b - b mod 0xAA = b / 0xAA * 0xAA) by lia.
  eexists _, _. split; [| split; [| split]].
  - apply BlockToHashOffset_value1; assumption.
  - apply BlockToOffset_value; [lia | lia].
  - rewrite Hs. unfold skipped. rewrite E0.
    rewrite Z.div_mul by lia.
    assert (E1 : b / 0x70E4 = b / 0xAA / 0xAA).
    { rewrite Z.div_div by lia. reflexivity. }
    assert (E2 : b / 0xAA * 0xAA / 0x70E4 = b / 0xAA / 0xAA).
    { change 0x70E4 with (0xAA * 0xAA). rewrite <- Z.div_div by lia.
      rewrite Z.div_mul by lia. reflexivity. }
    rewrite E1, E2.
    assert (Hqq : 0 <= b / 0xAA / 0xAA) by (apply Z.div_pos; lia).
    assert (Eq : b / 0xAA = 0xAA * (b / 0xAA / 0xAA) + (b / 0xAA) mod 0xAA)
      by (apply Z.div_mod; lia).
    assert (Hrq : 0 <= (b / 0xAA) mod 0xAA < 0xAA) by (apply Z.mod_pos_bound; lia).
    change (2 ^ 1) with 2.
    destruct (Z.leb_spec 0xAA b), (Z.leb_spec 0xAA (b / 0xAA * 0xAA)); try lia;
      destruct (Z.leb_spec 0x70E4 b), (Z.leb_spec 0x70E4 (b / 0xAA * 0xAA)); lia.
  - intros Hlt.
    assert (Ez : b / 0xAA = 0) by (apply Z.div_small; lia).
    assert (Em : b mod 0xAA = b) by (apply Z.mod_small; lia).
    rewrite Ez, Em.
    destruct (Z.leb_spec 0xAA b); [lia |].
    destruct (Z.leb_spec 0x70E4 b); [lia |]. lia.
Qed.

Lemma chain_record_shift1_witness :
  exists h o,
    STFS_BlockToHashOffset 0x70E5 (set_TableSizeShift 1 initial_state)
    = (Ok h, set_TableSizeShift 1 initial_state) /\
    STFS_BlockToOffset (0x70E5 - 0x70E5 mod 0xAA) (set_TableSizeShift 1 initial_state)
    = (Ok o, set_TableSizeShift 1 initial_state) /\
    h = o - 0xC000 + 0x70E5 mod 0xAA * 0x18 /\
    (0x70E5 < 0xAA -> h = 0x70E5 * 0x18 /\ h + 0x18 <= 0x1000).
Proof.
  apply (chain_record_shift1 (set_TableSizeShift 1 initial_state) 0x70E5).
  - reflexivity.
  - lia.
Defined.

(** ** Repeating the scan *)

Section Repeat.

Lemma table_only_readonly {A} (m : M A) : readonly m -> table_only m.
Proof.
  intros H st. exists (STFS_FileTable st). rewrite H. destruct st; reflexivity.
Qed.

Lemma table_only_bind {A B} (m : M A) (k : A -> M B) :
  table_only m -> (forall a, table_only (k a)) -> table_only (bind m k).
Proof.
  intros Hm Hk st. unfold bind. destruct (Hm st) as [t Ht].
  destruct (m st) as [[a | e |] st'] eqn:E; cbn [snd] in *.
  - destruct (Hk a st') as [t' Ht']. exists t'. rewrite Ht', Ht. reflexivity.
  - exists t. exact Ht.
  - exists t. exact Ht.
Qed.

Lemma table_only_table_push row : table_only (table_push row).
Proof.
  intros st. unfold table_push, bind, gets.
  destruct (STFS_FileTable st) as [| rows] eqn:Ht; cbn [snd].
  - exists TFalse. rewrite <- Ht. destruct st; reflexivity.
  - eexists. reflexivity.
Qed.

Lemma table_only_scan_records fuel : forall o, table_only (scan_records fuel o).
Proof.
  induction fuel as [| fuel IH]; intros o; cbn [scan_records].
  - apply table_only_readonly, readonly_diverge.
  - apply table_only_bind; [apply table_only_readonly, readonly_Read8 | intros first].
    destruct (JS.eq0 first); [apply table_only_readonly, readonly_ret |].
    apply table_only_bind; [apply table_only_readonly, readonly_Read8 | intros raw].
    apply table_only_bind;
      [apply table_only_readonly, readonly_ReadASCIIString | intros name].
    apply table_only_bind; [apply table_only_readonly, readonly_Read16 | intros p].
    apply table_only_bind; [apply table_only_readonly, readonly_Read32 | intros s].
    apply table_only_bind; [apply table_only_readonly, readonly_Read24 | intros sb].
    apply table_only_bind; [apply table_only_readonly, readonly_Read24 | intros nb].
    apply table_only_bind; [apply table_only_table_push | intros _]. apply IH.
Qed.

Lemma table_only_scan_blocks fuel bs : table_only (scan_blocks fuel bs).
Proof.
  induction bs as [| b bs IH]; cbn [scan_blocks].
  - apply table_only_readonly, readonly_ret.
  - apply table_only_bind; [apply table_only_readonly, readonly_BlockToOffset | intros o].
    apply table_only_bind; [apply table_only_scan_records | intros _]. exact IH.
Qed.

Lemma table_only_scan_root fuel : table_only (scan_root fuel).
Proof.
  unfold scan_root.
  apply table_only_bind; [apply table_only_readonly, readonly_Read24 | intros start].
  apply table_only_bind; [apply table_only_readonly, readonly_Read16 | intros count].
  apply table_only_bind;
    [apply table_only_readonly; unfold STFS_GetBlocksFromBlock;
       apply readonly_blocks_loop
    | intros bs].
  apply table_only_scan_blocks.
Qed.

(** [STFS_InitFS] on a loaded package is the scan from the scanning state. *)
Lemma InitFS_scanning st buf fuel :
  STFS_PackageLoaded st = true -> readable buf st ->
  STFS_InitFS fuel st = scan_root fuel (scanning_state buf st).
Proof.
  intros Hl Hst. unfold STFS_InitFS.
  rewrite (bind_Ok _ _ _ _ _ (run_require_loaded st Hl)).
  unfold bind at 1, modify at 1.
  assert (Hst0 : readable buf (set_FileTable (TArray []) st)) by exact Hst.
  rewrite (bind_Ok _ _ _ _ _ (run_Read32 buf _ Hst0 0x340)).
  assert (Hshift :
    (if negb (JS.sar (JS.and (u32 buf 0x340 + 0xFFF) 0xF000) 0xC =? 0xB)
     then modify (set_TableSizeShift 1) else ret tt) (set_FileTable (TArray []) st)
    = (Ok tt, scanning_state buf st)).
  { unfold scanning_state, header_shift.
    destruct (negb (JS.sar (JS.and (u32 buf 0x340 + 0xFFF) 0xF000) 0xC =? 0xB)).
    - reflexivity.
    - reflexivity. }
  rewrite (bind_Ok _ _ _ _ _ Hshift). reflexivity.
Qed.

Lemma header_shift_idem buf s :
  header_shift buf (header_shift buf s) = header_shift buf s.
Proof.
  unfold header_shift.
  destruct (negb (JS.sar (JS.and (u32 buf 0x340 + 0xFFF) 0xF000) 0xC =? 0xB));
    reflexivity.
Qed.

Lemma scanning_state_again buf st t :
  scanning_state buf (set_FileTable t (scanning_state buf st)) = scanning_state buf st.
Proof.
  unfold scanning_state. cbn [set_FileTable set_TableSizeShift STFS_TableSizeShift
    STFS_FileBuffer STFS_Dirty STFS_PackageLoaded STFS_FileTable].
  rewrite header_shift_idem. reflexivity.
Qed.

End Repeat.

(** X27 ([STFS_InitFS]): the scan can be repeated.  On a loaded package,
    whatever the first call of [STFS_InitFS] does (it returns, throws or
    does not end within the fuel), it changes only the table and the
    table-size shift, and a second call from the state it leaves does the
    same and leaves that state again: the table is rebuilt, not appended
    to, and a shift once set to 1 stays. *)
Theorem InitFS_repeatable (st : State) (buf : list byte) (fuel : nat) :
  STFS_PackageLoaded st = true ->
  readable buf st ->
  STFS_InitFS fuel (after (STFS_InitFS fuel) st) = STFS_InitFS fuel st /\
  STFS_FileBuffer (after (STFS_InitFS fuel) st) = Some buf /\
  STFS_Dirty (after (STFS_InitFS fuel) st) = true /\
  STFS_PackageLoaded (after (STFS_InitFS fuel) st) = true /\
  STFS_TableSizeShift (after (STFS_InitFS fuel) st)
  = header_shift buf (STFS_TableSizeShift st).
Proof.
  intros Hl Hst.
  pose proof (InitFS_scanning st buf fuel Hl Hst) as E.
  destruct (table_only_scan_root fuel (scanning_state buf st)) as [t Ht].
  assert (Ea : after (STFS_InitFS fuel) st = set_FileTable t (scanning_state buf st)).
  { unfold after. rewrite E. exact Ht. }
  rewrite Ea. destruct Hst as [Hd Hb].
  split; [| split; [exact Hb | split; [exact Hd | split; [exact Hl | reflexivity]]]].
  rewrite (InitFS_scanning (set_FileTable t (scanning_state buf st)) buf fuel);
    [| exact Hl | split; [exact Hd | exact Hb]].
  rewrite scanning_state_again. symmetry. exact E.
Qed.

Lemma InitFS_repeatable_witness :
  STFS_InitFS 2 (after (STFS_InitFS 2) two_block_state) = STFS_InitFS 2 two_block_state.
Proof.
  assert (E : two_block_state
              = set_PackageLoaded true (stored two_block_image initial_state)).
  { apply fresh_load; [left; vm_compute; reflexivity | vm_compute; reflexivity]. }
  apply (proj1 (InitFS_repeatable two_block_state two_block_image 2
                  ltac:(rewrite E; reflexivity)
                  ltac:(rewrite E; split; reflexivity))).
Defined.
